(** * AutoAdvisor: listing extraction and knowledge-base retrieval

    A shallow embedding of [backend/extract_listing.py],
    [backend/advisor.py] and [backend/api.py], and the properties of their
    parsing, matching and defaulting code and of their exchanges with the
    completion service and the store.

    Modelling conventions.
    - A Python [str] is a list of Unicode code points ([pystr]).  The
      interpreter's white-space table ([str.strip], [\s]) is written out in
      full.  Decimal digits ([\d], [int]) and case mapping ([lower], [title])
      are modelled on their ASCII part; code points outside ASCII are never
      digits and have no case.
    - Python integers are [Z]; floats are IEEE-754 binary64 values
      ([spec_float]); [None] is [JNull] for values and [None] for CSV cells.
      [int] of a string is modelled without the interpreter's configurable
      limit on the number of digits, and decoding without its recursion
      limit.
    - Exceptions are an explicit [result] type, threaded by a small monad.
    - The standard library's [re] module is modelled by a backtracking
      matcher over the constructors the patterns of the source use; the
      patterns themselves are transcribed constructor by constructor.
    - The remote completion service, the clock and [json.loads] are taken
      as parameters of the pipeline; [Json.loads] is a decoder for the
      standard library's grammar with which the examples are run.
    - A call of [requests.post] is the request it sends and what the
      network gives back for it, a function of the requests sent before;
      the functions that call it are computations over the list of the
      requests sent.  [json.dumps], [str] of an exception without a
      modelled message and the coercion of a response model are
      parameters. *)

From Stdlib Require Import List ZArith NArith Bool Lia Ascii String.
From Stdlib Require Import Floats.SpecFloat.
From Stdlib Require Import DecimalString.
Import ListNotations.

Set Implicit Arguments.

(* ================================================================= *)
(** ** Characters and strings *)

Definition char := N.
Definition pystr := list char.

(** A literal: the code points of an ASCII string. *)
Definition lit (s : string) : pystr := map N_of_ascii (list_ascii_of_string s).

(** A literal in which an apostrophe stands for the double quote. *)
Definition jlit (s : string) : pystr :=
  map (fun c => if N.eqb c 39 then 34%N else c) (lit s).

Definition in_range (lo hi c : N) : bool := (N.leb lo c && N.leb c hi)%bool.

(** [str.isspace] of one code point, which is also what [\s] matches. *)
Definition is_space (c : char) : bool :=
  (in_range 9 13 c || in_range 28 32 c || N.eqb c 133 || N.eqb c 160
   || N.eqb c 5760 || in_range 8192 8202 c || N.eqb c 8232 || N.eqb c 8233
   || N.eqb c 8239 || N.eqb c 8287 || N.eqb c 12288)%bool.

Definition is_digit (c : char) : bool := in_range 48 57 c.

Definition digit_value (c : char) : Z := Z.of_N c - 48.

Definition is_upper (c : char) : bool := in_range 65 90 c.
Definition is_lower (c : char) : bool := in_range 97 122 c.

Definition lower_char (c : char) : char := if is_upper c then (c + 32)%N else c.
Definition upper_char (c : char) : char := if is_lower c then (c - 32)%N else c.

Fixpoint str_eqb (a b : pystr) : bool :=
  match a, b with
  | [], [] => true
  | x :: a', y :: b' => N.eqb x y && str_eqb a' b'
  | _, _ => false
  end.

Fixpoint drop_while (p : char -> bool) (s : pystr) : pystr :=
  match s with
  | c :: s' => if p c then drop_while p s' else s
  | [] => []
  end.

(** The length of the longest prefix of [s] in the class [p]. *)
Fixpoint prefix_len (p : char -> bool) (s : pystr) : nat :=
  match s with
  | c :: s' => if p c then S (prefix_len p s') else 0
  | [] => 0
  end.

Definition lstrip (s : pystr) : pystr := drop_while is_space s.
Definition rstrip (s : pystr) : pystr := rev (drop_while is_space (rev s)).

(** [s.strip()] *)
Definition strip (s : pystr) : pystr := rstrip (lstrip s).

(** [s.lower()] *)
Definition lower (s : pystr) : pystr := map lower_char s.

(** [s.title()]: the first letter of every run of letters in upper case,
    the others in lower case. *)
Fixpoint title_from (in_word : bool) (s : pystr) : pystr :=
  match s with
  | [] => []
  | c :: s' =>
      if (is_upper c || is_lower c)%bool
      then (if in_word then lower_char c else upper_char c) :: title_from true s'
      else c :: title_from false s'
  end.

Definition title (s : pystr) : pystr := title_from false s.

(** [s.isdigit()] *)
Definition isdigit (s : pystr) : bool :=
  match s with [] => false | _ => forallb is_digit s end.

Fixpoint starts_with (pat s : pystr) : bool :=
  match pat, s with
  | [], _ => true
  | p :: pat', c :: s' => N.eqb p c && starts_with pat' s'
  | _ :: _, [] => false
  end.

(** [pat in s] *)
Fixpoint contains (pat s : pystr) : bool :=
  (starts_with pat s
   || match s with [] => false | _ :: s' => contains pat s' end)%bool.

(** [s[len(pat):]] when [s.startswith(pat)] *)
Definition strip_prefix (pat s : pystr) : option pystr :=
  if starts_with pat s then Some (skipn (List.length pat) s) else None.

(** The number a string of digits writes. *)
Definition digits_value (s : pystr) : Z :=
  fold_left (fun acc c => 10 * acc + digit_value c)%Z s 0%Z.

(** [s[b:e]] for [0 <= b <= e] *)
Definition slice (b e : nat) (s : pystr) : pystr := firstn (e - b) (skipn b s).

(* ================================================================= *)
(** ** Regular expressions

    The fragment of [re] the source uses: one-character classes, sequence,
    a greedy optional group, a greedy star over a one-character class,
    capturing groups and the two anchors.  Matching backtracks as [re]
    does: a greedy operator first tries the longest match and gives
    characters back one at a time when what follows fails. *)

Inductive regex : Type :=
| Eps
| Class (p : char -> bool)
| Cat (r1 r2 : regex)
| Opt (r : regex)
| Star (p : char -> bool)
| Group (r : regex)
| Bol
| Eol.

(** The state of a match: the offset in the subject, the text from there
    on, and the groups closed so far (in closing order). *)
Definition cont (A : Type) := nat -> pystr -> list pystr -> option A.

Fixpoint star (A : Type) (p : char -> bool) (k : cont A)
    (pos : nat) (s : pystr) (caps : list pystr) : option A :=
  match s with
  | c :: s' =>
      if p c then
        match star p k (S pos) s' caps with
        | Some r => Some r
        | None => k pos s caps
        end
      else k pos s caps
  | [] => k pos s caps
  end.

Fixpoint rmatch (A : Type) (r : regex) (k : cont A)
    (pos : nat) (s : pystr) (caps : list pystr) : option A :=
  match r with
  | Eps => k pos s caps
  | Class p =>
      match s with
      | c :: s' => if p c then k (S pos) s' caps else None
      | [] => None
      end
  | Cat r1 r2 => rmatch r1 (rmatch r2 k) pos s caps
  | Opt r1 =>
      match rmatch r1 k pos s caps with
      | Some x => Some x
      | None => k pos s caps
      end
  | Star p => star p k pos s caps
  | Group r1 =>
      rmatch r1 (fun pos' s' caps' => k pos' s' (caps' ++ [firstn (pos' - pos) s]))
        pos s caps
  | Bol => if Nat.eqb pos 0 then k pos s caps else None
  | Eol =>
      match s with
      | [] => k pos s caps
      | [c] => if N.eqb c 10 then k pos s caps else None
      | _ => None
      end
  end.

(** A match object: where the match starts and ends, and its groups. *)
Record match_obj : Type := MatchObj {
  m_start : nat;
  m_end : nat;
  m_groups : list pystr
}.

Definition accept (start : nat) : cont match_obj :=
  fun pos _ caps => Some (MatchObj start pos caps).

(** [re.match(r, text)] *)
Definition re_match (r : regex) (text : pystr) : option match_obj :=
  rmatch r (accept 0) 0 text [].

Fixpoint search_from (r : regex) (pos : nat) (s : pystr) : option match_obj :=
  match rmatch r (accept pos) pos s [] with
  | Some m => Some m
  | None =>
      match s with
      | [] => None
      | _ :: s' => search_from r (S pos) s'
      end
  end.

(** [re.search(r, text)] *)
Definition re_search (r : regex) (text : pystr) : option match_obj :=
  search_from r 0 text.

(** [m.group(i)] for [i >= 1], and [m.group(0)] *)
Definition group (m : match_obj) (i : nat) : pystr := nth (i - 1) (m_groups m) [].
Definition group0 (text : pystr) (m : match_obj) : pystr :=
  slice (m_start m) (m_end m) text.

(** [re.sub] of a one-character class by the empty string. *)
Definition re_sub_class (p : char -> bool) (s : pystr) : pystr :=
  filter (fun c => negb (p c)) s.

Definition chr (c : char) : regex := Class (N.eqb c).
Definition lits (s : pystr) : regex := fold_right (fun c r => Cat (chr c) r) Eps s.
Definition any : char -> bool := fun _ => true.

(* ================================================================= *)
(** ** Values, dictionaries and exceptions *)

(** The values [json.loads] produces, which are also the values of a
    listing and of an advisory record. *)
#[warnings="-register-all"]
Inductive json : Type :=
| JNull
| JBool (b : bool)
| JInt (n : Z)
| JFloat (f : spec_float)
| JStr (s : pystr)
| JArr (l : list json)
| JObj (d : list (pystr * json)).

(** A [dict] with string keys, in insertion order, every key once. *)
Definition dict := list (pystr * json).

Fixpoint dict_get (d : dict) (k : pystr) : option json :=
  match d with
  | [] => None
  | (k', v) :: d' => if str_eqb k' k then Some v else dict_get d' k
  end.

(** [d.get(k)] *)
Definition get (d : dict) (k : pystr) : json :=
  match dict_get d k with Some v => v | None => JNull end.

(** [d[k] = v] *)
Fixpoint dict_set (d : dict) (k : pystr) (v : json) : dict :=
  match d with
  | [] => [(k, v)]
  | (k', v') :: d' =>
      if str_eqb k' k then (k', v) :: d' else (k', v') :: dict_set d' k v
  end.

(** [d.setdefault(k, v)], as a statement *)
Definition setdefault (d : dict) (k : pystr) (v : json) : dict :=
  match dict_get d k with Some _ => d | None => dict_set d k v end.

(** Truth value of an object, as [if], [and], [or] and [not] test it. *)
Definition truthy (v : json) : bool :=
  match v with
  | JNull => false
  | JBool b => b
  | JInt n => negb (Z.eqb n 0)
  | JFloat (S754_zero _) => false
  | JFloat _ => true
  | JStr s => match s with [] => false | _ => true end
  | JArr l => match l with [] => false | _ => true end
  | JObj d => match d with [] => false | _ => true end
  end.

(** [a or b] *)
Definition py_or (a b : json) : json := if truthy a then a else b.

Inductive exn : Type :=
| ValueError (msg : pystr)
| JSONDecodeError (doc : pystr)
| OverflowError (msg : pystr)
| AttributeError
| RuntimeError (msg : pystr).



Inductive result (A : Type) : Type :=
| Ok (a : A)
| Raise (e : exn).

Arguments Ok {A} a.
Arguments Raise {A} e.

Definition bind (A B : Type) (c : result A) (k : A -> result B) : result B :=
  match c with Ok a => k a | Raise e => Raise e end.

Notation "x <- c ;; k" := (bind c (fun x => k))
  (at level 61, c at next level, right associativity).

Definition raises (A : Type) (c : result A) : bool :=
  match c with Ok _ => false | Raise _ => true end.

(* ================================================================= *)
(** ** Conversions of the interpreter *)

(** White space [int] skips around a literal: [str.isspace], without the
    four ASCII separators 28 to 31. *)
Definition is_int_space (c : char) : bool :=
  (is_space c && negb (in_range 28 31 c))%bool.

(** The digits of a literal after a first digit: digits, each optionally
    preceded by one underscore. *)
Fixpoint int_digits_from (acc : Z) (s : pystr) : option Z :=
  match s with
  | [] => Some acc
  | c :: t =>
      if is_digit c then int_digits_from (10 * acc + digit_value c) t
      else if N.eqb c 95 then
        match t with
        | d :: t' =>
            if is_digit d then int_digits_from (10 * acc + digit_value d) t'
            else None
        | [] => None
        end
      else None
  end.

Definition int_digits (s : pystr) : option Z :=
  match s with
  | c :: t => if is_digit c then int_digits_from (digit_value c) t else None
  | [] => None
  end.

(** [int(s)] for a string: [None] when it raises [ValueError]. *)
Definition py_int (s : pystr) : option Z :=
  let s := rev (drop_while is_int_space (rev (drop_while is_int_space s))) in
  match s with
  | c :: t =>
      if N.eqb c 43 then int_digits t
      else if N.eqb c 45 then option_map Z.opp (int_digits t)
      else int_digits s
  | [] => None
  end.

Definition int_of_str (s : pystr) : result Z :=
  match py_int s with
  | Some n => Ok n
  | None => Raise (ValueError (lit "invalid literal for int() with base 10"))
  end.

(** [int(x)] for a float: truncation toward zero. *)
Definition int_of_float (f : spec_float) : result Z :=
  match f with
  | S754_zero _ => Ok 0%Z
  | S754_finite s m e =>
      let a := Z.shiftl (Z.pos m) e in Ok (if s then Z.opp a else a)
  | S754_infinity _ =>
      Raise (OverflowError (lit "cannot convert float infinity to integer"))
  | S754_nan => Raise (ValueError (lit "cannot convert float NaN to integer"))
  end.

(** [isinstance(x, int)], with the integer when it holds ([bool] is a
    subclass of [int]). *)
Definition as_int (v : json) : option Z :=
  match v with
  | JInt n => Some n
  | JBool b => Some (if b then 1 else 0)%Z
  | _ => None
  end.

(* ================================================================= *)
(** ** The patterns of the source *)

Definition BACKTICK : char := 96%N.
Definition FENCE_MARK : pystr := [BACKTICK; BACKTICK; BACKTICK].

(** The pattern of line 17: three backticks, an optional [json], white
    space, a group of any characters, three backticks; compiled with
    [re.S], so that the dot matches a newline too. *)
Definition FENCE : regex :=
  Cat (lits FENCE_MARK)
    (Cat (Opt (lits (lit "json")))
      (Cat (Star is_space)
        (Cat (Group (Star any)) (lits FENCE_MARK)))).

Definition LBRACE : char := 123%N.
Definition RBRACE : char := 125%N.

(** The pattern of line 24: an opening brace, any characters, a closing
    brace; with [re.S]. *)
Definition BRACES : regex := Cat (chr LBRACE) (Cat (Star any) (chr RBRACE)).

Definition HYPHEN : char := 45%N.
Definition EN_DASH : char := 8211%N.
Definition is_dash (c : char) : bool := (N.eqb c HYPHEN || N.eqb c EN_DASH)%bool.

Definition D4 : regex :=
  Cat (Class is_digit) (Cat (Class is_digit) (Cat (Class is_digit) (Class is_digit))).

(** The pattern of line 31: start, white space, a group of four digits,
    white space, a hyphen or an en dash, white space, a group of four
    digits, white space, end. *)
Definition YEAR_RANGE : regex :=
  Cat Bol
    (Cat (Star is_space)
      (Cat (Group D4)
        (Cat (Star is_space)
          (Cat (Class is_dash)
            (Cat (Star is_space)
              (Cat (Group D4)
                (Cat (Star is_space) Eol))))))).

Definition EURO : char := 8364%N.

(** The class of line 38: the euro sign, white space, the comma and the
    letters k, m, K, M. *)
Definition is_unit_char (c : char) : bool :=
  (N.eqb c EURO || is_space c || N.eqb c 44 || N.eqb c 107 || N.eqb c 109
   || N.eqb c 75 || N.eqb c 77)%bool.

(** The class of line 39: everything but a digit. *)
Definition is_non_digit (c : char) : bool := negb (is_digit c).

(* ================================================================= *)
(** ** Rows of the knowledge base

    [csv.DictReader] yields one dictionary per line of the table: a column
    of the header maps to the cell's text, or to [None] when the line is
    shorter than the header. *)

Definition row := list (pystr * option pystr).

Fixpoint row_lookup (r : row) (k : pystr) : option (option pystr) :=
  match r with
  | [] => None
  | (k', v) :: r' => if str_eqb k' k then Some v else row_lookup r' k
  end.

(** [row.get(k)] *)
Definition row_get (r : row) (k : pystr) : option pystr :=
  match row_lookup r k with Some v => v | None => None end.

(** [row.get(k, "")] *)
Definition row_get_or_empty (r : row) (k : pystr) : option pystr :=
  match row_lookup r k with Some v => v | None => Some [] end.

(** A cell as a value: text, or [None]. *)
Definition cell (c : option pystr) : json :=
  match c with Some s => JStr s | None => JNull end.

(** A cell inside an f-string. *)
Definition format_cell (c : option pystr) : pystr :=
  match c with Some s => s | None => lit "None" end.

Definition BULLET : char := 8226%N.

(** The outcome of one turn of the filtering loop: one of the three
    [continue] statements, a row without text, or a rendered chunk. *)
Inductive verdict : Type :=
| ExcludedBrand
| ExcludedModel
| ExcludedYear
| NoText
| Chunk (c : pystr).

(* ================================================================= *)
(** ** The source *)

(** [_coerce_number], [extract_listing.py] lines 31-40.  [py_repr] is
    [str] of a value that is not a string. *)
Section Coerce.

Variable py_repr : json -> pystr.

(** [str(x)] *)
Definition py_str (x : json) : pystr :=
  match x with JStr s => s | _ => py_repr x end.

Definition _coerce_number (x : json) : result json :=
  match x with
  | JNull => Ok JNull
  | JInt n => Ok (JInt n)
  | JBool b => Ok (JInt (if b then 1 else 0))
  | JFloat f => n <- int_of_float f ;; Ok (JInt n)
  | _ =>
      let s := py_str x in
      let s := re_sub_class is_unit_char s in
      let s := re_sub_class is_non_digit s in
      if isdigit s then n <- int_of_str s ;; Ok (JInt n) else Ok JNull
  end.

End Coerce.

(** [_extract_json], [advisor.py] lines 15-27 and, word for word,
    [extract_listing.py] lines 42-61.  [json_loads] is [json.loads],
    [None] when it raises. *)
Section ExtractJson.

Variable json_loads : pystr -> option json.

Definition _extract_json (text : pystr) : result json :=
  let text := strip text in
  let fence := re_match FENCE text in
  let text :=
    match fence with
    | Some m => strip (group m 1)
    | None => text
    end in
  match json_loads text with
  | Some v => Ok v
  | None =>
      match re_search BRACES text with
      | Some m =>
          match json_loads (group0 text m) with
          | Some v => Ok v
          | None => Raise (JSONDecodeError (group0 text m))
          end
      | None => Raise (ValueError (lit "Could not parse JSON from model output."))
      end
  end.

End ExtractJson.

(** [_parse_year_range], [advisor.py] lines 29-39 *)
Definition _parse_year_range (r : option pystr) : result (option Z * option Z) :=
  match r with
  | None => Ok (None, None)
  | Some [] => Ok (None, None)
  | Some r =>
      match re_match YEAR_RANGE r with
      | Some m =>
          y1 <- int_of_str (group m 1) ;;
          y2 <- int_of_str (group m 2) ;;
          Ok (Some y1, Some y2)
      | None =>
          match int_of_str (strip r) with
          | Ok y => Ok (Some y, Some y)
          | Raise _ => Ok (None, None)
          end
      end
  end.

(** [_normalize], [advisor.py] lines 41-42 *)
Definition _normalize (s : json) : result pystr :=
  match py_or s (JStr []) with
  | JStr t => Ok (lower (strip t))
  | _ => Raise AttributeError
  end.

(** [x.strip()] of a cell *)
Definition cell_strip (c : option pystr) : result pystr :=
  match c with Some s => Ok (strip s) | None => Raise AttributeError end.

(** The test of line 59. *)
Definition year_excluded (year : json) (y1 y2 : option Z) : bool :=
  match as_int year, y1, y2 with
  | Some y, Some a, Some b =>
      (negb (Z.eqb a 0) && negb (Z.eqb b 0) && negb (Z.leb a y && Z.leb y b))%bool
  | _, _, _ => false
  end.

(** The f-string of lines 64 and 73. *)
Definition render (r : row) (topic txt : pystr) : pystr :=
  lit "[" ++ format_cell (row_get_or_empty r (lit "brand"))
  ++ lit "/" ++ format_cell (row_get_or_empty r (lit "model"))
  ++ lit "/" ++ format_cell (row_get_or_empty r (lit "year_range"))
  ++ lit " " ++ [BULLET] ++ lit " " ++ topic ++ lit "] " ++ txt.

(** Lines 61-64 and 70-73: the chunk of a row, when it has text. *)
Definition render_row (r : row) : result verdict :=
  txt <- cell_strip (row_get_or_empty r (lit "text")) ;;
  topic <- cell_strip (row_get_or_empty r (lit "topic")) ;;
  match txt with
  | [] => Ok NoText
  | _ => Ok (Chunk (render r topic txt))
  end.

(** The body of the first loop, lines 53-64. *)
Definition match_row (brand model : pystr) (year : json) (r : row) : result verdict :=
  rb <- _normalize (cell (row_get r (lit "brand"))) ;;
  rm <- _normalize (cell (row_get r (lit "model"))) ;;
  if (truthy (JStr brand) && truthy (JStr rb) && negb (str_eqb brand rb))%bool
  then Ok ExcludedBrand
  else if (truthy (JStr model) && truthy (JStr rm) && negb (contains model rm))%bool
  then Ok ExcludedModel
  else
    ys <- _parse_year_range (row_get_or_empty r (lit "year_range")) ;;
    if year_excluded year (fst ys) (snd ys) then Ok ExcludedYear
    else render_row r.

(** A [for] loop over the table that appends the chunks to [chunks]. *)
Fixpoint scan (body : row -> result verdict) (kb : list row) (chunks : list pystr)
    : result (list pystr) :=
  match kb with
  | [] => Ok chunks
  | r :: kb' =>
      v <- body r ;;
      scan body kb' (match v with Chunk c => chunks ++ [c] | _ => chunks end)
  end.

(** [load_kb_for_listing], [advisor.py] lines 44-74.  [kb] is the table
    as [csv.DictReader] reads it from [KB_CSV], the same on both passes. *)
Definition load_kb_for_listing (kb : list row) (listing : dict) : result (list pystr) :=
  brand <- _normalize (get listing (lit "brand")) ;;
  model <- _normalize (get listing (lit "model")) ;;
  let year := get listing (lit "year") in
  chunks <- scan (match_row brand model year) kb [] ;;
  chunks <- (match chunks with
             | [] => scan render_row kb chunks
             | _ => Ok chunks
             end) ;;
  Ok (firstn 8 chunks).

(** [advise], [advisor.py] lines 114-144.  [request_content] stands for
    lines 116-131: the prompt is assembled from the listing and the
    chunks and posted, and the message content of the reply is returned,
    or [RuntimeError] (among others) raised. *)
Section Advise.

Variable json_loads : pystr -> option json.
Variable request_content : dict -> list pystr -> result pystr.

Definition advise (kb : list row) (listing : dict) : result json :=
  kb_chunks <- load_kb_for_listing kb listing ;;
  content <- request_content listing kb_chunks ;;
  out <- _extract_json json_loads content ;;
  match out with
  | JObj out =>
      let out := setdefault out (lit "pros") (JArr []) in
      let out := setdefault out (lit "cons") (JArr []) in
      let out := setdefault out (lit "questions_to_ask") (JArr []) in
      let out := setdefault out (lit "citations") (JArr []) in
      let out := setdefault out (lit "price_assessment") (JStr (lit "Unknown")) in
      let out := setdefault out (lit "mechanical_risk") (JStr (lit "Medium")) in
      let out := setdefault out (lit "info_completeness") (JStr (lit "Medium")) in
      let out := setdefault out (lit "summary") (JStr []) in
      Ok (JObj out)
  | _ => Raise AttributeError
  end.

End Advise.

(** [extract_listing], [extract_listing.py] lines 63-102.
    [request_content] stands for lines 64-81 (the exchange with the
    completion service), [utcnow] for the clock of line 100. *)
Section ExtractListing.

Variable json_loads : pystr -> option json.
Variable py_repr : json -> pystr.
Variable request_content : pystr -> result pystr.
Variable utcnow : pystr.

Definition extract_listing (ad_text : pystr) : result dict :=
  content <- request_content ad_text ;;
  data <- _extract_json json_loads content ;;
  match data with
  | JObj data =>
      let brand :=
        if truthy (get data (lit "brand"))
        then JStr (strip (title (py_str py_repr (get data (lit "brand")))))
        else JNull in
      let model :=
        if truthy (get data (lit "model"))
        then JStr (strip (py_str py_repr (get data (lit "model"))))
        else JNull in
      year <- _coerce_number py_repr (get data (lit "year")) ;;
      mileage_km <- _coerce_number py_repr (get data (lit "mileage_km")) ;;
      price_eur <- _coerce_number py_repr (get data (lit "price_eur")) ;;
      Ok [ (lit "brand", brand);
           (lit "model", model);
           (lit "year", year);
           (lit "mileage_km", mileage_km);
           (lit "price_eur", price_eur);
           (lit "fuel", get data (lit "fuel"));
           (lit "transmission", get data (lit "transmission"));
           (lit "trim", get data (lit "trim"));
           (lit "options", py_or (get data (lit "options")) (JArr []));
           (lit "service_history", get data (lit "service_history"));
           (lit "known_issues", py_or (get data (lit "known_issues")) (JArr []));
           (lit "seller_notes", get data (lit "seller_notes"));
           (lit "text", py_or (get data (lit "text")) (JStr ad_text));
           (lit "created_at", JStr (utcnow ++ lit "Z")) ]
  | _ => Raise AttributeError
  end.

End ExtractListing.

(* ================================================================= *)
(** ** A decoder for JSON texts

    What [json.loads] accepts with its default settings: the JSON grammar
    with white space around tokens, the literals [NaN], [Infinity] and
    [-Infinity], strict strings (no raw control character), integers of
    any size and correctly rounded binary64 floats.  The later value of
    a repeated key replaces the earlier one. *)
Module Json.

Definition is_ws (c : char) : bool :=
  (N.eqb c 32 || N.eqb c 9 || N.eqb c 10 || N.eqb c 13)%bool.

Definition skip_ws (s : pystr) : pystr := drop_while is_ws s.

Definition hex_value (c : char) : option N :=
  if in_range 48 57 c then Some (c - 48)%N
  else if in_range 97 102 c then Some (c - 87)%N
  else if in_range 65 70 c then Some (c - 55)%N
  else None.

(** Four hexadecimal digits, as after a backslash and a [u]. *)
Definition hex4 (s : pystr) : option (N * pystr) :=
  match s with
  | a :: b :: c :: d :: rest =>
      match hex_value a, hex_value b, hex_value c, hex_value d with
      | Some x, Some y, Some z, Some w =>
          Some (((x * 16 + y) * 16 + z) * 16 + w, rest)%N
      | _, _, _, _ => None
      end
  | _ => None
  end.

Definition escape (c : char) : option char :=
  if N.eqb c 34 then Some 34%N
  else if N.eqb c 92 then Some 92%N
  else if N.eqb c 47 then Some 47%N
  else if N.eqb c 98 then Some 8%N
  else if N.eqb c 102 then Some 12%N
  else if N.eqb c 110 then Some 10%N
  else if N.eqb c 114 then Some 13%N
  else if N.eqb c 116 then Some 9%N
  else None.

(** The text of a string, from after its opening quote. *)
Fixpoint scan_string (fuel : nat) (s : pystr) (acc : pystr) : option (pystr * pystr) :=
  match fuel with
  | O => None
  | S fuel' =>
      match s with
      | [] => None
      | c :: t =>
          if N.eqb c 34 then Some (rev acc, t)
          else if N.ltb c 32 then None
          else if N.eqb c 92 then
            match t with
            | [] => None
            | e :: t' =>
                if N.eqb e 117 then
                  match hex4 t' with
                  | None => None
                  | Some (u, rest) =>
                      if in_range 55296 56319 u then
                        match rest with
                        | 92%N :: 117%N :: rest' =>
                            match hex4 rest' with
                            | None => None
                            | Some (u2, rest'') =>
                                if in_range 56320 57343 u2
                                then scan_string fuel' rest''
                                       ((65536 + ((u - 55296) * 1024 + (u2 - 56320)))%N :: acc)
                                else scan_string fuel' rest (u :: acc)
                            end
                        | _ => scan_string fuel' rest (u :: acc)
                        end
                      else scan_string fuel' rest (u :: acc)
                  end
                else
                  match escape e with
                  | Some x => scan_string fuel' t' (x :: acc)
                  | None => None
                  end
            end
          else scan_string fuel' t (c :: acc)
      end
  end.

Fixpoint take_while (p : char -> bool) (s : pystr) : pystr :=
  match s with
  | c :: s' => if p c then c :: take_while p s' else []
  | [] => []
  end.

(** The binary64 value nearest to [m * 10 ^ e], ties to even. *)
Definition float_of_decimal (neg : bool) (m : Z) (e : Z) : spec_float :=
  match m with
  | Zpos p =>
      if Z.leb 0 e
      then match (Zpos p * 10 ^ e)%Z with
           | Zpos q => binary_round 53 1024 neg q 0
           | _ => S754_nan
           end
      else match (10 ^ (- e))%Z with
           | Zpos q => SFdiv 53 1024 (S754_finite neg p 0) (S754_finite false q 0)
           | _ => S754_nan
           end
  | _ => S754_zero neg
  end.

(** The integer part of a number: a zero, or digits that start with a
    digit other than zero. *)
Definition int_part (s : pystr) : option (pystr * pystr) :=
  match s with
  | c :: t =>
      if N.eqb c 48 then Some ([c], t)
      else if is_digit c then
        let ds := take_while is_digit s in Some (ds, skipn (List.length ds) s)
      else None
  | [] => None
  end.

(** A fraction: a dot and at least one digit. *)
Definition frac_part (s : pystr) : option (pystr * pystr) :=
  match s with
  | 46%N :: t =>
      match take_while is_digit t with
      | [] => None
      | ds => Some (ds, skipn (List.length ds) t)
      end
  | _ => None
  end.

(** An exponent: [e] or [E], an optional sign, at least one digit. *)
Definition exp_part (s : pystr) : option (Z * pystr) :=
  match s with
  | c :: t =>
      if (N.eqb c 101 || N.eqb c 69)%bool then
        let '(neg, t') :=
          match t with
          | 45%N :: u => (true, u)
          | 43%N :: u => (false, u)
          | _ => (false, t)
          end in
        match take_while is_digit t' with
        | [] => None
        | ds =>
            let v := digits_value ds in
            Some (if neg then Z.opp v else v, skipn (List.length ds) t')
        end
      else None
  | [] => None
  end.

Definition scan_number (s : pystr) : option (json * pystr) :=
  let '(neg, s1) := match s with 45%N :: t => (true, t) | _ => (false, s) end in
  match int_part s1 with
  | None => None
  | Some (ip, s2) =>
      let '(fp, s3) := match frac_part s2 with Some (f, r) => (Some f, r) | None => (None, s2) end in
      let '(ep, s4) := match exp_part s3 with Some (e, r) => (Some e, r) | None => (None, s3) end in
      match fp, ep with
      | None, None =>
          let v := digits_value ip in Some (JInt (if neg then Z.opp v else v), s4)
      | _, _ =>
          let f := match fp with Some f => f | None => [] end in
          let e := match ep with Some e => e | None => 0%Z end in
          Some (JFloat (float_of_decimal neg (digits_value (ip ++ f))
                          (e - Z.of_nat (List.length f))), s4)
      end
  end.

Definition scan_literal (s : pystr) : option (json * pystr) :=
  match strip_prefix (lit "null") s with Some r => Some (JNull, r) | None =>
  match strip_prefix (lit "true") s with Some r => Some (JBool true, r) | None =>
  match strip_prefix (lit "false") s with Some r => Some (JBool false, r) | None =>
  match scan_number s with Some x => Some x | None =>
  match strip_prefix (lit "NaN") s with Some r => Some (JFloat S754_nan, r) | None =>
  match strip_prefix (lit "Infinity") s with
  | Some r => Some (JFloat (S754_infinity false), r)
  | None =>
  match strip_prefix (lit "-Infinity") s with
  | Some r => Some (JFloat (S754_infinity true), r)
  | None => None
  end end end end end end end.

Fixpoint parse_value (fuel : nat) (s : pystr) {struct fuel} : option (json * pystr) :=
  match fuel with
  | O => None
  | S fuel' =>
      match s with
      | 34%N :: t =>
          match scan_string (S (List.length t)) t [] with
          | Some (str, rest) => Some (JStr str, rest)
          | None => None
          end
      | 123%N :: t =>
          match skip_ws t with
          | 125%N :: rest => Some (JObj [], rest)
          | t' => parse_members fuel' t' []
          end
      | 91%N :: t =>
          match skip_ws t with
          | 93%N :: rest => Some (JArr [], rest)
          | t' => parse_elements fuel' t' []
          end
      | _ => scan_literal s
      end
  end
with parse_members (fuel : nat) (s : pystr) (acc : dict) {struct fuel}
    : option (json * pystr) :=
  match fuel with
  | O => None
  | S fuel' =>
      match s with
      | 34%N :: t =>
          match scan_string (S (List.length t)) t [] with
          | None => None
          | Some (key, rest) =>
              match skip_ws rest with
              | 58%N :: rest1 =>
                  match parse_value fuel' (skip_ws rest1) with
                  | None => None
                  | Some (v, rest2) =>
                      match skip_ws rest2 with
                      | 125%N :: rest3 => Some (JObj (dict_set acc key v), rest3)
                      | 44%N :: rest3 =>
                          parse_members fuel' (skip_ws rest3) (dict_set acc key v)
                      | _ => None
                      end
                  end
              | _ => None
              end
          end
      | _ => None
      end
  end
with parse_elements (fuel : nat) (s : pystr) (acc : list json) {struct fuel}
    : option (json * pystr) :=
  match fuel with
  | O => None
  | S fuel' =>
      match parse_value fuel' s with
      | None => None
      | Some (v, rest) =>
          match skip_ws rest with
          | 93%N :: rest1 => Some (JArr (acc ++ [v]), rest1)
          | 44%N :: rest1 => parse_elements fuel' (skip_ws rest1) (acc ++ [v])
          | _ => None
          end
      end
  end.

(** [json.loads(s)], [None] when it raises [JSONDecodeError]. *)
Definition loads (s : pystr) : option json :=
  match parse_value (S (List.length s)) (skip_ws s) with
  | Some (v, rest) =>
      match skip_ws rest with
      | [] => Some v
      | _ => None
      end
  | None => None
  end.

End Json.

(* ================================================================= *)
(** ** The specification's wording, as definitions

    What the specification says each component computes, written without
    the pattern matcher and without the loops of the source. *)

(** [s.find(pat)]: the least offset at which [pat] occurs. *)
Fixpoint find (pat s : pystr) : option nat :=
  if starts_with pat s then Some 0
  else match s with
       | [] => None
       | _ :: s' => option_map S (find pat s')
       end.

(** [s.rfind(pat)]: the greatest offset at which [pat] occurs. *)
Fixpoint rfind (pat s : pystr) : option nat :=
  match s with
  | [] => if starts_with pat [] then Some 0 else None
  | _ :: s' =>
      match rfind pat s' with
      | Some j => Some (S j)
      | None => if starts_with pat s then Some 0 else None
      end
  end.

(** [a] occurs in [b]. *)
Definition substring_of (a b : pystr) : Prop :=
  exists pre post, b = pre ++ a ++ post.

(** The payload of a fenced block: what stands between an opening fence
    with its optional tag and the last fence of the text. *)
Definition fenced_payload (t : pystr) : option pystr :=
  match strip_prefix FENCE_MARK t with
  | None => None
  | Some body =>
      let body :=
        match strip_prefix (lit "json") body with
        | Some b => b
        | None => body
        end in
      let body := lstrip body in
      match rfind FENCE_MARK body with
      | Some j => Some (firstn j body)
      | None => None
      end
  end.

Definition unwrap_fence (t : pystr) : pystr :=
  match fenced_payload t with
  | Some p => strip p
  | None => t
  end.

(** The span from the first opening brace to the last closing brace. *)
Definition brace_span (t : pystr) : option pystr :=
  match find [LBRACE] t, rfind [RBRACE] t with
  | Some i, Some j => if Nat.ltb i j then Some (slice i (S j) t) else None
  | _, _ => None
  end.

(** The recovery of section 4.2, first success winning. *)
Definition extract_spec (json_loads : pystr -> option json) (text : pystr) : result json :=
  let t := unwrap_fence (strip text) in
  match json_loads t with
  | Some v => Ok v
  | None =>
      match brace_span t with
      | Some span =>
          match json_loads span with
          | Some v => Ok v
          | None => Raise (JSONDecodeError span)
          end
      | None => Raise (ValueError (lit "Could not parse JSON from model output."))
      end
  end.


(** Four digits at the head of a string. *)
Definition four_digits (s : pystr) : option (pystr * pystr) :=
  match s with
  | a :: b :: c :: d :: rest =>
      if (is_digit a && is_digit b && is_digit c && is_digit d)%bool
      then Some ([a; b; c; d], rest)
      else None
  | _ => None
  end.

(** The two years of a text of the shape YYYY-YYYY, hyphen or en dash,
    white space allowed around the years. *)
Definition range_years (r : pystr) : option (pystr * pystr) :=
  match four_digits (lstrip r) with
  | None => None
  | Some (lo, s) =>
      match lstrip s with
      | c :: s' =>
          if is_dash c then
            match four_digits (lstrip s') with
            | None => None
            | Some (hi, s'') =>
                match lstrip s'' with
                | [] => Some (lo, hi)
                | _ => None
                end
            end
          else None
      | [] => None
      end
  end.

Definition range_shape (r : pystr) : option (Z * Z) :=
  match range_years r with
  | Some (lo, hi) => Some (digits_value lo, digits_value hi)
  | None => None
  end.

(** The bounds of a year range, with the single year read as [int] reads
    it. *)
Definition year_range_spec (r : option pystr) : option Z * option Z :=
  match r with
  | None => (None, None)
  | Some r =>
      match range_shape r with
      | Some (lo, hi) => (Some lo, Some hi)
      | None =>
          match py_int (strip r) with
          | Some y => (Some y, Some y)
          | None => (None, None)
          end
      end
  end.



(** The text of a cell, [None] read as the empty text. *)
Definition cell_text (c : option pystr) : pystr :=
  match c with Some s => s | None => [] end.

(** A brand or model of the table, lower-cased and trimmed. *)
Definition norm_cell (c : option pystr) : pystr := lower (strip (cell_text c)).

(** A brand or model of a listing, lower-cased and trimmed. *)
Definition norm_text (v : json) : pystr :=
  match v with JStr s => lower (strip s) | _ => [] end.

(** A listing whose brand and model are strings or absent. *)
Definition text_or_absent (v : json) : bool :=
  match v with JStr _ | JNull => true | _ => false end.

Definition listing_typed (listing : dict) : bool :=
  (text_or_absent (get listing (lit "brand"))
   && text_or_absent (get listing (lit "model")))%bool.

(** A row whose text and topic cells are there (the line is not shorter
    than the header). *)
Definition row_complete (r : row) : bool :=
  match row_get_or_empty r (lit "text"), row_get_or_empty r (lit "topic") with
  | Some _, Some _ => true
  | _, _ => false
  end.

Definition row_text (r : row) : pystr := strip (cell_text (row_get_or_empty r (lit "text"))).
Definition row_topic (r : row) : pystr := strip (cell_text (row_get_or_empty r (lit "topic"))).

(** A row has text when its text cell is not empty or white space only. *)
Definition has_text (r : row) : bool :=
  match row_text r with [] => false | _ => true end.

(** The chunk of a row. *)
Definition row_chunk (r : row) : pystr := render r (row_topic r) (row_text r).

(** The three tests of the matching policy. *)
Definition brand_differs (brand : pystr) (r : row) : bool :=
  let rb := norm_cell (row_get r (lit "brand")) in
  (negb (str_eqb brand []) && negb (str_eqb rb []) && negb (str_eqb brand rb))%bool.

Definition model_differs (model : pystr) (r : row) : bool :=
  let rm := norm_cell (row_get r (lit "model")) in
  (negb (str_eqb model []) && negb (str_eqb rm []) && negb (contains model rm))%bool.

Definition year_differs (year : json) (r : row) : bool :=
  let ys := year_range_spec (row_get_or_empty r (lit "year_range")) in
  year_excluded year (fst ys) (snd ys).

Definition row_matches (brand model : pystr) (year : json) (r : row) : bool :=
  negb (brand_differs brand r || model_differs model r || year_differs year r).

(** The chunks of the rows that have text, in table order. *)
Definition chunks_of (kb : list row) : list pystr :=
  map row_chunk (filter has_text kb).

(** The matcher: the chunks of the matching rows, or of the whole table
    when there is none, cut to eight. *)
Definition matcher_spec (kb : list row) (listing : dict) : list pystr :=
  let brand := norm_text (get listing (lit "brand")) in
  let model := norm_text (get listing (lit "model")) in
  let year := get listing (lit "year") in
  match chunks_of (filter (row_matches brand model year) kb) with
  | [] => firstn 8 (chunks_of kb)
  | matching => firstn 8 matching
  end.

(** The defaults of section 4.6. *)
Definition ADVISORY_DEFAULTS : list (pystr * json) :=
  [ (lit "pros", JArr []);
    (lit "cons", JArr []);
    (lit "questions_to_ask", JArr []);
    (lit "citations", JArr []);
    (lit "price_assessment", JStr (lit "Unknown"));
    (lit "mechanical_risk", JStr (lit "Medium"));
    (lit "info_completeness", JStr (lit "Medium"));
    (lit "summary", JStr []) ].

Definition NUMERIC_FIELDS : list pystr :=
  [lit "year"; lit "mileage_km"; lit "price_eur"].

(** An integer or absent. *)
Definition int_or_absent (v : json) : bool :=
  match v with JInt _ | JNull => true | _ => false end.

(** A non-negative integer or absent. *)
Definition natural_or_absent (v : json) : bool :=
  match v with JInt n => Z.leb 0 n | JNull => true | _ => false end.

(** A number below zero. *)
Definition negative_number (v : json) : bool :=
  match v with
  | JInt n => Z.ltb n 0
  | JFloat (S754_finite true _ _) => true
  | _ => false
  end.

(* ================================================================= *)
(** ** Definitions the statements and proofs use *)

(** Filling a dictionary from a table of defaults. *)
Definition fill (defaults : list (pystr * json)) (d : dict) : dict :=
  fold_left (fun d kv => setdefault d (fst kv) (snd kv)) defaults d.

(** The number of a value converted through [str]: what its digits write,
    or [None] without a digit. *)
Definition digits_number (s : pystr) : json :=
  match filter is_digit s with
  | [] => JNull
  | ds => JInt (digits_value ds)
  end.

(** A float that has no integer value: an infinity or a NaN. *)
Definition non_finite (x : json) : bool :=
  match x with
  | JFloat (S754_infinity _) | JFloat S754_nan => true
  | _ => false
  end.

(** The record [extract_listing] builds from the decoded response. *)
Definition listing_record (py_repr : json -> pystr) (utcnow : pystr) (data : dict) (ad_text : pystr) (year mileage_km price_eur : json) : dict :=
  [ (lit "brand",
      if truthy (get data (lit "brand"))
      then JStr (strip (title (py_str py_repr (get data (lit "brand")))))
      else JNull);
    (lit "model",
      if truthy (get data (lit "model"))
      then JStr (strip (py_str py_repr (get data (lit "model"))))
      else JNull);
    (lit "year", year);
    (lit "mileage_km", mileage_km);
    (lit "price_eur", price_eur);
    (lit "fuel", get data (lit "fuel"));
    (lit "transmission", get data (lit "transmission"));
    (lit "trim", get data (lit "trim"));
    (lit "options", py_or (get data (lit "options")) (JArr []));
    (lit "service_history", get data (lit "service_history"));
    (lit "known_issues", py_or (get data (lit "known_issues")) (JArr []));
    (lit "seller_notes", get data (lit "seller_notes"));
    (lit "text", py_or (get data (lit "text")) (JStr ad_text));
    (lit "created_at", JStr (utcnow ++ lit "Z")) ].

(** The continuations of the fence pattern and of the year-range pattern
    after their first steps. *)
Definition fence_tail : cont match_obj :=
  rmatch (Cat (Group (Star any)) (lits FENCE_MARK)) (accept 0).

Definition year_hi : cont match_obj :=
  rmatch (Cat (Group D4) (Cat (Star is_space) Eol)) (accept 0).

Definition year_dash : cont match_obj :=
  rmatch (Cat (Class is_dash) (Cat (Star is_space)
            (Cat (Group D4) (Cat (Star is_space) Eol)))) (accept 0).

Definition year_lo : cont match_obj :=
  rmatch (Cat (Group D4) (Cat (Star is_space) (Cat (Class is_dash) (Cat (Star is_space)
            (Cat (Group D4) (Cat (Star is_space) Eol)))))) (accept 0).

(** ** Example data *)

Definition NEWLINE : pystr := [10%N].

Definition OBJECT_A1 : json := JObj [(lit "a", JInt 1)].

Definition ROW_GOLF7 : row :=
  [ (lit "brand", Some (lit "vw"));
    (lit "model", Some (lit "golf 7"));
    (lit "year_range", Some (lit "2013-2019"));
    (lit "topic", Some (lit "gearbox"));
    (lit "text", Some (lit "Check the DSG service history.")) ].

Definition ROW_BMW : row :=
  [ (lit "brand", Some (lit "bmw"));
    (lit "model", Some (lit "320d"));
    (lit "year_range", Some (lit "2012-2018"));
    (lit "topic", Some (lit "engine"));
    (lit "text", Some (lit "Listen for timing chain noise.")) ].

Definition ROW_GOLF : row :=
  [ (lit "brand", Some (lit "vw"));
    (lit "model", Some (lit "golf"));
    (lit "year_range", Some (lit "2013-2019"));
    (lit "topic", Some (lit "body"));
    (lit "text", Some (lit "Look for rust on the arches.")) ].

Definition ROW_BLANK : row :=
  [ (lit "brand", Some (lit "vw"));
    (lit "model", Some (lit "golf"));
    (lit "year_range", Some (lit "2013-2019"));
    (lit "topic", Some (lit "engine"));
    (lit "text", Some (lit "   ")) ].

(** A line of the table shorter than its header: the last two cells are
    [None]. *)
Definition ROW_SHORT : row :=
  [ (lit "brand", Some (lit "vw"));
    (lit "model", Some (lit "golf"));
    (lit "year_range", Some (lit "2013-2019"));
    (lit "topic", None);
    (lit "text", None) ].

Definition ROW_YEAR_ZERO : row :=
  [ (lit "brand", Some (lit "vw"));
    (lit "model", Some (lit "golf"));
    (lit "year_range", Some (lit "0000-2010"));
    (lit "topic", Some (lit "body"));
    (lit "text", Some (lit "Look for rust on the arches.")) ].

Definition LISTING_GOLF : dict :=
  [ (lit "brand", JStr (lit "VW")); (lit "model", JStr (lit "golf")); (lit "year", JInt 2016) ].

Definition LISTING_BMW : dict := [ (lit "brand", JStr (lit "bmw")) ].

Definition LISTING_NUMERIC_BRAND : dict := [ (lit "brand", JInt 5) ].

Definition CHUNK_GOLF7 : pystr :=
  lit "[vw/golf 7/2013-2019 " ++ [BULLET] ++ lit " gearbox] Check the DSG service history.".


Definition ADVISOR_REPLY : pystr :=
  jlit "{'pros': ['low mileage'], 'price_assessment': 'Over'}".

Definition ADVISOR_OBJECT : dict :=
  [ (lit "pros", JArr [JStr (lit "low mileage")]);
    (lit "price_assessment", JStr (lit "Over")) ].

Definition EXTRACTOR_REPLY : pystr :=
  jlit "{'brand': 'VW', 'year': '2016', 'mileage_km': '98 000 km', 'price_eur': -7}".

Definition EXTRACTOR_OBJECT : dict :=
  [ (lit "brand", JStr (lit "VW"));
    (lit "year", JStr (lit "2016"));
    (lit "mileage_km", JStr (lit "98 000 km"));
    (lit "price_eur", JInt (-7)) ].

Definition AD_TEXT : pystr := lit "VW Golf 7 2016, 98 000 km, diesel, manual".

(** The scenario of section 8 of the specification. *)
Definition SCENARIO_AD : pystr :=
  lit "VW Golf 7 2016, 98 000 km, 11 500" ++ [EURO] ++ lit ", diesel, manual".

Definition SCENARIO_REPLY : pystr :=
  jlit "{'brand': 'VW', 'model': 'Golf 7', 'year': 2016, 'mileage_km': '98 000 km', "
  ++ jlit "'price_eur': '11 500" ++ [EURO] ++ jlit "', 'fuel': 'diesel', "
  ++ jlit "'transmission': 'manual', 'text': null}".

Definition NO_REPR : json -> pystr := fun _ => [].
Definition CLOCK : pystr := lit "2024-01-01T00:00:00".

(** A field of the record a call returned. *)
Definition field (r : result dict) (k : pystr) : option json :=
  match r with Ok d => dict_get d k | Raise _ => None end.

(* ================================================================= *)
(** ** Orderings of lists and keys of dictionaries *)

(** [s] is [l] with some of its elements left out: the elements of [s]
    are elements of [l], as often and in the same order. *)
Inductive subsequence (A : Type) : list A -> list A -> Prop :=
| sub_nil : forall l, subsequence [] l
| sub_take : forall x s l, subsequence s l -> subsequence (x :: s) (x :: l)
| sub_skip : forall x s l, subsequence s l -> subsequence s (x :: l).

(** [k in d] *)
Definition has_key (d : dict) (k : pystr) : bool :=
  match dict_get d k with Some _ => true | None => false end.

Fixpoint keys_distinct (d : list (pystr * json)) : bool :=
  match d with
  | [] => true
  | (k, _) :: d' => (negb (has_key d' k) && keys_distinct d')%bool
  end.

(** [sep.join(l)] *)
Fixpoint join (sep : pystr) (l : list pystr) : pystr :=
  match l with
  | [] => []
  | [x] => x
  | x :: l' => x ++ sep ++ join sep l'
  end.

(** [str(n)] of an integer *)
Definition str_of_int (n : Z) : pystr := lit (NilZero.string_of_int (Z.to_int n)).

(* ================================================================= *)
(** ** The prompts *)

(** [EXTRACTION_SYSTEM], [extract_listing.py] lines 12-26 *)
Definition EXTRACTION_SYSTEM : pystr :=
  (lit "You are an automotive data extractor.") ++ NEWLINE
  ++ (lit "Return ONLY a SINGLE JSON object with this schema:") ++ NEWLINE
  ++ (lit "{") ++ NEWLINE
  ++ (jlit "  'brand': '', 'model': '', 'year': 0, 'mileage_km': 0, 'price_eur': 0,") ++ NEWLINE
  ++ (jlit "  'fuel': '', 'transmission': '', 'trim': '', 'options': [],") ++ NEWLINE
  ++ (jlit "  'service_history': '', 'known_issues': [], 'seller_notes': '', 'text': ''") ++ NEWLINE
  ++ (lit "}") ++ NEWLINE
  ++ (lit "Rules:") ++ NEWLINE
  ++ (lit "- Output ONLY valid JSON (no prose, no markdown fences).") ++ NEWLINE
  ++ (lit "- If unknown, use null (not empty strings).") ++ NEWLINE
  ++ (lit "- mileage_km and price_eur must be integers (e.g., 98000, 11500).") ++ NEWLINE
  ++ (jlit "- Normalize EU formats: '98 000 km' " ++ [8594%N] ++ jlit " 98000, '11 500" ++ [8364%N] ++ jlit "' " ++ [8594%N] ++ lit " 11500.") ++ NEWLINE
  ++ (jlit "- Preserve the exact ad text in the field 'text'.") ++ NEWLINE
  ++ (lit "- Do not invent facts that aren" ++ [8217%N] ++ lit "t in the ad.") ++ NEWLINE.

(** [SYSTEM_PROMPT], [advisor.py] lines 78-95 *)
Definition SYSTEM_PROMPT : pystr :=
  (lit "You are AutoAdvisor, a cautious, transparent used-car assistant.") ++ NEWLINE
  ++ (lit "You will produce a single JSON object with this schema:") ++ NEWLINE
  ++ (lit "{") ++ NEWLINE
  ++ (jlit "  'pros': [], 'cons': [], ") ++ NEWLINE
  ++ (jlit "  'price_assessment': 'Under|At|Over|Unknown',") ++ NEWLINE
  ++ (jlit "  'mechanical_risk': 'Low|Medium|High',") ++ NEWLINE
  ++ (jlit "  'info_completeness': 'Low|Medium|High',") ++ NEWLINE
  ++ (jlit "  'questions_to_ask': [],") ++ NEWLINE
  ++ (jlit "  'summary': '',") ++ NEWLINE
  ++ (jlit "  'citations': []  // direct quotes from the ad text that justify key points") ++ NEWLINE
  ++ (lit "}") ++ NEWLINE
  ++ (lit "Rules:") ++ NEWLINE
  ++ (lit "- Output ONLY valid JSON (no extra text).") ++ NEWLINE
  ++ (lit "- Ground PROS/CONS in the ad text; include short direct quotes in `citations`.") ++ NEWLINE
  ++ (lit "- Use the KB only for general typical issues and inspection tips (don" ++ [8217%N] ++ lit "t invent facts about this specific car).") ++ NEWLINE
  ++ (jlit "- If you lack info for price, set price_assessment to 'Unknown'.") ++ NEWLINE
  ++ (lit "- Keep `summary` " ++ [8804%N] ++ lit " 180 words, friendly and actionable, with clear caveats.") ++ NEWLINE.

Definition LLM_URL : pystr := lit "https://api.mistral.ai/v1/chat/completions".

(** [LLM_MODEL] of [extract_listing.py] and of [advisor.py]. *)
Definition LLM_MODEL_extract_listing : pystr := lit "mistral-small-latest".
Definition LLM_MODEL_advisor : pystr := lit "mistral-tiny-latest".

(** The keys of the comprehension of [build_user_message], line 100. *)
Definition FACT_KEYS : list pystr :=
  [ lit "brand"; lit "model"; lit "year"; lit "mileage_km"; lit "price_eur";
    lit "fuel"; lit "transmission"; lit "trim"; lit "options";
    lit "service_history"; lit "known_issues"; lit "seller_notes" ].

(** [build_user_message], [advisor.py] lines 97-112.  [json_dumps] is
    [json.dumps] with [ensure_ascii=False]; it returns for every value of
    a listing.  [listing.get('text','')] is the empty string only when the
    key is missing; [strip] is a method of strings alone. *)
Section BuildUserMessage.

Variable json_dumps : json -> pystr.

Definition build_user_message (listing : dict) (kb_chunks : list pystr) : result pystr :=
  let facts := json_dumps (JObj (map (fun k => (k, get listing k)) FACT_KEYS)) in
  text <- match dict_get listing (lit "text") with
          | None => Ok []
          | Some (JStr s) => Ok (strip s)
          | Some _ => Raise AttributeError
          end ;;
  Ok (lit "Listing facts (JSON):" ++ NEWLINE
      ++ facts ++ NEWLINE ++ NEWLINE
      ++ lit "Ad text:" ++ NEWLINE
      ++ lit "<<<" ++ text ++ lit ">>>" ++ NEWLINE ++ NEWLINE
      ++ lit "Retrieved knowledge (general reliability & inspection notes):" ++ NEWLINE
      ++ (NEWLINE ++ lit "- ") ++ join (NEWLINE ++ lit "- ") kb_chunks
      ++ NEWLINE ++ NEWLINE ++ lit "Tasks:" ++ NEWLINE
      ++ lit "1) Extract PROS and CONS grounded in the ad text." ++ NEWLINE
      ++ lit "2) Price assessment (Under/At/Over/Unknown) + short rationale." ++ NEWLINE
      ++ lit "3) Mechanical risk (Low/Medium/High) based on model-year typical issues and ad evidence." ++ NEWLINE
      ++ lit "4) Info completeness (Low/Medium/High) considering missing key details." ++ NEWLINE
      ++ lit "5) Top 5 questions to ask the seller." ++ NEWLINE
      ++ lit "6) Provide concise `summary` (" ++ [8804%N] ++ lit "180 words)." ++ NEWLINE).

End BuildUserMessage.

(** Lines 134-144 of [advisor.py]: the eight [setdefault] calls on the
    decoded reply, which has the method only when it is a dictionary. *)
Definition apply_defaults (out : json) : result json :=
  match out with
  | JObj out =>
      let out := setdefault out (lit "pros") (JArr []) in
      let out := setdefault out (lit "cons") (JArr []) in
      let out := setdefault out (lit "questions_to_ask") (JArr []) in
      let out := setdefault out (lit "citations") (JArr []) in
      let out := setdefault out (lit "price_assessment") (JStr (lit "Unknown")) in
      let out := setdefault out (lit "mechanical_risk") (JStr (lit "Medium")) in
      let out := setdefault out (lit "info_completeness") (JStr (lit "Medium")) in
      let out := setdefault out (lit "summary") (JStr []) in
      Ok (JObj out)
  | _ => Raise AttributeError
  end.

(* ================================================================= *)
(** ** The exchanges with the services

    [requests.post] is the one effect of [extract_listing], [advise],
    [insert_listing_to_weaviate] and [analyze], the reads of the table
    and of the clock apart.  A call is modelled by the request it sends
    and by what the network gives back for it: a response, or an
    exception of the library (no connection, time out, a body that cannot
    be sent).  The requests handed to [requests.post] so far, answered or
    not, are the state; what the network gives back may depend on them. *)

Record request : Type := {
  req_url : pystr;
  req_headers : list (pystr * pystr);
  req_json : json;
  req_timeout : Z }.

(** A response: [status_code], [text], and the value of [json()], [None]
    when it raises. *)
Record response : Type := {
  status_code : Z;
  resp_text : pystr;
  resp_json : option json }.

Inductive reply : Type :=
| Answer (r : response)
| Failure (msg : pystr).

(** The exceptions of these functions: those of [exn], those of a
    subscript, the exceptions [requests.post] raises, the validation
    error of a response model, [SystemExit] and [HTTPException]. *)
Inductive pyexn : Type :=
| Std (e : exn)
| KeyError (key : json)
| IndexError
| TypeError
| RequestException (msg : pystr)
| ValidationError
| SystemExit (msg : pystr)
| HTTPException (code : Z) (detail : pystr).

(** [isinstance(e, Exception)]: [SystemExit] derives from
    [BaseException] only. *)
Definition is_Exception (e : pyexn) : bool :=
  match e with SystemExit _ => false | _ => true end.

Inductive outcome (A : Type) : Type :=
| Return (a : A)
| Throw (e : pyexn).

Arguments Return {A} a.
Arguments Throw {A} e.

Definition lift (A : Type) (c : result A) : outcome A :=
  match c with Ok a => Return a | Raise e => Throw (Std e) end.

Definition trace := list request.

(** A computation that sends requests. *)
Definition io (A : Type) : Type := trace -> outcome A * trace.

Definition pure (A : Type) (c : outcome A) : io A := fun t => (c, t).

Definition throw (A : Type) (e : pyexn) : io A := fun t => (Throw e, t).

Arguments throw {A} e.

Definition io_bind (A B : Type) (c : io A) (k : A -> io B) : io B :=
  fun t =>
    match c t with
    | (Return a, t') => k a t'
    | (Throw e, t') => (Throw e, t')
    end.

Notation "x <<- c ;; k" := (io_bind c (fun x => k))
  (at level 61, c at next level, right associativity).

(** [try: c except Exception as e: handler(e)] *)
Definition try_except (A : Type) (c : io A) (handler : pyexn -> io A) : io A :=
  fun t =>
    match c t with
    | (Return a, t') => (Return a, t')
    | (Throw e, t') => if is_Exception e then handler e t' else (Throw e, t')
    end.

(** [v[k]] with a string [k]: only a dictionary has string keys. *)
Definition subscript_key (v : json) (k : pystr) : outcome json :=
  match v with
  | JObj d =>
      match dict_get d k with
      | Some x => Return x
      | None => Throw (KeyError (JStr k))
      end
  | _ => Throw TypeError
  end.

(** [v[0]] *)
Definition subscript_0 (v : json) : outcome json :=
  match v with
  | JArr (x :: _) => Return x
  | JArr [] => Throw IndexError
  | JStr (c :: _) => Return (JStr [c])
  | JStr [] => Throw IndexError
  | JObj _ => Throw (KeyError (JInt 0))
  | _ => Throw TypeError
  end.

Definition outcome_bind (A B : Type) (c : outcome A) (k : A -> outcome B) : outcome B :=
  match c with Return a => k a | Throw e => Throw e end.

(** [resp.json()]; the document of its decoding error is taken to be the
    text of the response. *)
Definition response_json (resp : response) : outcome json :=
  match resp_json resp with
  | Some v => Return v
  | None => Throw (Std (JSONDecodeError (resp_text resp)))
  end.

(** The content of the first choice of the completion: the subscripts
    choices, 0, message and content of the decoded body, line 79 of
    [extract_listing.py] and line 131 of [advisor.py]. *)
Definition envelope_content (resp : response) : outcome json :=
  outcome_bind (response_json resp) (fun v =>
  outcome_bind (subscript_key v (lit "choices")) (fun choices =>
  outcome_bind (subscript_0 choices) (fun choice =>
  outcome_bind (subscript_key choice (lit "message")) (fun message =>
  subscript_key message (lit "content"))))).

(** The argument of [_extract_json], which calls its [strip]. *)
Definition content_text (content : json) : result pystr :=
  match content with JStr s => Ok s | _ => Raise AttributeError end.

(** [d.get(k)] of a decoded body *)
Definition method_get (v : json) (k : pystr) : outcome json :=
  match v with JObj d => Return (get d k) | _ => Throw (Std AttributeError) end.

(** The request and the response of [analyze]. *)
Record AnalyzeRequest : Type := {
  ad_text : pystr;
  source_url : option pystr }.

Record AnalyzeResponse : Type := {
  listing : dict;
  advisor : dict;
  weaviate_id : option pystr }.

(** [not v] of a variable of the environment, and its text in an
    f-string *)
Definition unset (v : option pystr) : bool :=
  match v with Some (_ :: _) => false | _ => true end.

Definition env_text (v : option pystr) : pystr :=
  match v with Some s => s | None => lit "None" end.

(* ================================================================= *)
(** ** The environment at start

    The module-level code that reads the environment: lines 4-6 and 28-29
    of [extract_listing.py], lines 5-7 of [advisor.py], and lines 8-15 of
    [api.py], which imports the two modules before its own test. *)

Definition environ := list (pystr * pystr).

(** [os.getenv(k)] *)
Fixpoint getenv (env : environ) (k : pystr) : option pystr :=
  match env with
  | [] => None
  | (k', v) :: env' => if str_eqb k' k then Some v else getenv env' k
  end.

(** The constants the modules keep from the environment. *)
Record settings : Type := {
  llm_api_key : pystr;
  wcs_url : option pystr;
  wcs_api_key : option pystr }.

Definition import_extract_listing (env : environ) : outcome settings :=
  if unset (getenv env (lit "LLM_API_KEY"))
  then Throw (SystemExit (lit "Missing LLM_API_KEY in environment."))
  else Return {| llm_api_key := env_text (getenv env (lit "LLM_API_KEY"));
                 wcs_url := getenv env (lit "WCS_URL");
                 wcs_api_key := getenv env (lit "WCS_API_KEY") |}.

Definition import_advisor (env : environ) : outcome pystr :=
  if unset (getenv env (lit "LLM_API_KEY"))
  then Throw (SystemExit (lit "Missing LLM_API_KEY in env."))
  else Return (env_text (getenv env (lit "LLM_API_KEY"))).

Definition REQUIRED_ENV : list pystr :=
  [ lit "LLM_API_KEY"; lit "WCS_URL"; lit "WCS_API_KEY" ].

Definition import_api (env : environ) : outcome settings :=
  outcome_bind (import_extract_listing env) (fun s =>
  outcome_bind (import_advisor env) (fun _ =>
  match filter (fun k => unset (getenv env k)) REQUIRED_ENV with
  | [] => Return s
  | missing => Throw (SystemExit (lit "Missing env vars: " ++ join (lit ", ") missing))
  end)).

(** Lines 42-43 of [api.py]: the listing with the address of the ad, when
    the request has one. *)
Definition with_source_url (req : AnalyzeRequest) (listing : dict) : dict :=
  match source_url req with
  | Some (c :: u) => dict_set listing (lit "source_url") (JStr (c :: u))
  | _ => listing
  end.

Section Service.

(** What the network gives back for a request, after the requests sent
    before it. *)
Variable service : trace -> request -> reply.

(** [json.loads], [json.dumps], [str] of a value that is no string, and
    the clock. *)
Variable json_loads : pystr -> option json.
Variable json_dumps : json -> pystr.
Variable py_repr : json -> pystr.
Variable utcnow : pystr.

(** The table [KB_CSV]. *)
Variable kb : list row.

(** The environment: [LLM_API_KEY], [WCS_URL], [WCS_API_KEY]; [None] for a
    variable that is not set. *)
Variable LLM_API_KEY : pystr.
Variable WCS_URL : option pystr.
Variable WCS_API_KEY : option pystr.

(** [str(e)] of an exception whose message is not modelled. *)
Variable describe : pyexn -> pystr.

(** What the response model makes of a [weaviate_id] that is neither
    [None] nor a string: the string it is turned into, or [None] when the
    validation fails. *)
Variable coerce_id : json -> option pystr.

Definition requests_post (rq : request) : io response :=
  fun t =>
    (match service t rq with
     | Answer r => Return r
     | Failure msg => Throw (RequestException msg)
     end, t ++ [rq]).

Definition bearer (key : pystr) : list (pystr * pystr) :=
  [ (lit "Authorization", lit "Bearer " ++ key);
    (lit "Content-Type", lit "application/json") ].

Definition chat (model system user : pystr) (temperature : spec_float) (max_tokens : Z) : json :=
  JObj [ (lit "model", JStr model);
         (lit "messages",
           JArr [ JObj [ (lit "role", JStr (lit "system")); (lit "content", JStr system) ];
                  JObj [ (lit "role", JStr (lit "user")); (lit "content", JStr user) ] ]);
         (lit "temperature", JFloat temperature);
         (lit "max_tokens", JInt max_tokens) ].

(** The call of lines 64-74 of [extract_listing.py]. *)
Definition extraction_request (ad_text : pystr) : request :=
  {| req_url := LLM_URL;
     req_headers := bearer LLM_API_KEY;
     req_json := chat LLM_MODEL_extract_listing EXTRACTION_SYSTEM ad_text (S754_zero false) 400;
     req_timeout := 30 |}.

(** The call of lines 118-128 of [advisor.py]; the temperature is the
    float 0.2. *)
Definition advice_request (user_content : pystr) : request :=
  {| req_url := LLM_URL;
     req_headers := bearer LLM_API_KEY;
     req_json := chat LLM_MODEL_advisor SYSTEM_PROMPT user_content
                   (Json.float_of_decimal false 2 (-1)) 700;
     req_timeout := 45 |}.

(** The call of lines 108-113 of [extract_listing.py]. *)
Definition insert_request (url key : pystr) (listing : dict) : request :=
  {| req_url := url ++ lit "/v1/objects";
     req_headers := bearer key;
     req_json := JObj [ (lit "class", JStr (lit "Listing")); (lit "properties", JObj listing) ];
     req_timeout := 30 |}.

Definition llm_error (resp : response) : pyexn :=
  Std (RuntimeError (lit "LLM error " ++ str_of_int (status_code resp)
                     ++ lit ": " ++ resp_text resp)).

(** [extract_listing] with its exchange, [extract_listing.py] lines
    63-102: the call, the test of the status, the reading of the
    envelope under [try], and the rest of the function on the content. *)
Definition extract_listing_io (ad_text : pystr) : io dict :=
  resp <<- requests_post (extraction_request ad_text) ;;
  if negb (Z.eqb (status_code resp) 200) then throw (llm_error resp)
  else
    content <<- try_except (pure (envelope_content resp))
                  (fun _ => throw (Std (RuntimeError
                     (lit "Unexpected LLM response format: " ++ resp_text resp)))) ;;
    pure (lift (extract_listing json_loads py_repr (fun _ => content_text content)
                  utcnow ad_text)).

(** [advise] with its exchange, [advisor.py] lines 114-144. *)
Definition advise_io (listing : dict) : io json :=
  kb_chunks <<- pure (lift (load_kb_for_listing kb listing)) ;;
  user_content <<- pure (lift (build_user_message json_dumps listing kb_chunks)) ;;
  resp <<- requests_post (advice_request user_content) ;;
  if negb (Z.eqb (status_code resp) 200) then throw (llm_error resp)
  else
    content <<- pure (envelope_content resp) ;;
    pure (lift (text <- content_text content ;;
                out <- _extract_json json_loads text ;;
                apply_defaults out)).

(** [insert_listing_to_weaviate], [extract_listing.py] lines 104-116 *)
Definition insert_listing_to_weaviate (listing : dict) : io json :=
  if (unset WCS_URL || unset WCS_API_KEY)%bool
  then throw (SystemExit (lit "Missing WCS_URL or WCS_API_KEY in environment."))
  else
    r <<- requests_post (insert_request (env_text WCS_URL) (env_text WCS_API_KEY) listing) ;;
    if negb (Z.eqb (status_code r) 200 || Z.eqb (status_code r) 202)
    then throw (Std (RuntimeError (lit "Weaviate insert failed "
                                   ++ str_of_int (status_code r)
                                   ++ lit ": " ++ resp_text r)))
    else pure (response_json r).

(** [str(e)] *)
Definition str_exn (e : pyexn) : pystr :=
  match e with
  | Std (ValueError m) | Std (OverflowError m) | Std (RuntimeError m) => m
  | RequestException m => m
  | _ => describe e
  end.

(** The validation of the field [weaviate_id: Optional[str]]. *)
Definition validate_id (v : json) : outcome (option pystr) :=
  match v with
  | JNull => Return None
  | JStr s => Return (Some s)
  | _ => match coerce_id v with
         | Some s => Return (Some s)
         | None => Throw ValidationError
         end
  end.

(** [analyze], [api.py] lines 37-55 *)
Definition analyze (req : AnalyzeRequest) : io AnalyzeResponse :=
  try_except
    (listing <<- extract_listing_io (ad_text req) ;;
     let listing := with_source_url req listing in
     inserted <<- insert_listing_to_weaviate listing ;;
     weaviate_id <<- pure (method_get inserted (lit "id")) ;;
     advisor <<- advise_io listing ;;
     match advisor with
     | JObj advisor =>
         weaviate_id <<- pure (validate_id weaviate_id) ;;
         pure (Return {| listing := listing; advisor := advisor; weaviate_id := weaviate_id |})
     | _ => throw ValidationError
     end)
    (fun e => throw (HTTPException 500 (str_exn e))).

(** The steps of [analyze] after the extraction, with the handler of its
    [except] at each of them. *)
Definition analyze_tail (listing : dict) (t : trace) : outcome AnalyzeResponse * trace :=
  match insert_listing_to_weaviate listing t with
  | (Throw e, t2) =>
      (if is_Exception e then Throw (HTTPException 500 (str_exn e)) else Throw e, t2)
  | (Return inserted, t2) =>
      match method_get inserted (lit "id") with
      | Throw e => (Throw (HTTPException 500 (str_exn e)), t2)
      | Return id =>
          match advise_io listing t2 with
          | (Throw e, t3) => (Throw (HTTPException 500 (str_exn e)), t3)
          | (Return (JObj advisor), t3) =>
              match validate_id id with
              | Return id =>
                  (Return {| listing := listing; advisor := advisor; weaviate_id := id |}, t3)
              | Throw e => (Throw (HTTPException 500 (str_exn e)), t3)
              end
          | (Return _, t3) => (Throw (HTTPException 500 (str_exn ValidationError)), t3)
          end
      end
  end.

End Service.

(* ================================================================= *)
(** ** More example data *)

(** The body of a completion whose message has the content [content]. *)
Definition envelope (content : pystr) : json :=
  JObj [ (lit "choices",
           JArr [ JObj [ (lit "index", JInt 0);
                         (lit "message",
                           JObj [ (lit "role", JStr (lit "assistant"));
                                  (lit "content", JStr content) ]) ] ]) ].

Definition answer_json (v : json) : reply :=
  Answer {| status_code := 200; resp_text := []; resp_json := Some v |}.

(** A network on which the completion service answers the extraction, the
    store accepts the listing and the completion service answers the
    advice; and one that is down. *)
Definition SERVICE_OK : trace -> request -> reply :=
  fun t _ =>
    match t with
    | [] => answer_json (envelope SCENARIO_REPLY)
    | [_] => answer_json (JObj [ (lit "id", JStr (lit "3f2a")) ])
    | _ => answer_json (envelope ADVISOR_REPLY)
    end.

Definition SERVICE_DOWN : trace -> request -> reply :=
  fun _ _ => Failure (lit "connection refused").

Definition NO_TEXT : pyexn -> pystr := fun _ => [].
Definition NO_ID : json -> option pystr := fun _ => None.

Definition API_KEY : pystr := lit "key".
Definition STORE_URL : option pystr := Some (lit "https://store.example").
Definition STORE_KEY : option pystr := Some (lit "secret").

Definition SCENARIO_REQUEST : AnalyzeRequest :=
  {| ad_text := SCENARIO_AD; source_url := Some (lit "https://ads.example/1") |}.

(** The reply of the scenario of section 8 of the specification, decoded,
    and the record made of it. *)
Definition SCENARIO_OBJECT : dict :=
  [ (lit "brand", JStr (lit "VW"));
    (lit "model", JStr (lit "Golf 7"));
    (lit "year", JInt 2016);
    (lit "mileage_km", JStr (lit "98 000 km"));
    (lit "price_eur", JStr (lit "11 500" ++ [EURO]));
    (lit "fuel", JStr (lit "diesel"));
    (lit "transmission", JStr (lit "manual"));
    (lit "text", JNull) ].

Definition EXTRACTOR_RECORD : dict :=
  [ (lit "brand", JStr (lit "Vw"));
    (lit "model", JStr (lit "Golf 7"));
    (lit "year", JInt 2016);
    (lit "mileage_km", JInt 98000);
    (lit "price_eur", JInt 11500);
    (lit "fuel", JStr (lit "diesel"));
    (lit "transmission", JStr (lit "manual"));
    (lit "trim", JNull);
    (lit "options", JArr []);
    (lit "service_history", JNull);
    (lit "known_issues", JArr []);
    (lit "seller_notes", JNull);
    (lit "text", JStr SCENARIO_AD);
    (lit "created_at", JStr (lit "2024-01-01T00:00:00Z")) ].

(** The listing of the scenario as [analyze] stores it, and the response
    it returns on [SERVICE_OK]. *)
Definition STORED_LISTING : dict :=
  dict_set EXTRACTOR_RECORD (lit "source_url") (JStr (lit "https://ads.example/1")).

Definition SCENARIO_RESPONSE : AnalyzeResponse :=
  {| listing := STORED_LISTING;
     advisor := fill ADVISORY_DEFAULTS ADVISOR_OBJECT;
     weaviate_id := Some (lit "3f2a") |}.

(** The message of the advisor for the record of the scenario and the
    chunk of [ROW_GOLF7], with the facts left out. *)
Definition SCENARIO_MESSAGE : pystr :=
  Eval vm_compute in
    match build_user_message NO_REPR EXTRACTOR_RECORD [CHUNK_GOLF7] with
    | Ok m => m
    | Raise _ => []
    end.

(* ================================================================= *)
(** * Properties *)

(** ** Strings *)

Lemma str_eqb_eq (a b : pystr) : str_eqb a b = true <-> a = b.
Proof.
  revert b; induction a as [|x a IH]; intros [|y b]; simpl; split; intro H;
    try reflexivity; try discriminate.
  - apply andb_true_iff in H as [Hx Hab]. apply N.eqb_eq in Hx.
    apply IH in Hab. now subst.
  - injection H as -> ->. rewrite N.eqb_refl. now apply IH.
Qed.

Lemma str_eqb_refl (a : pystr) : str_eqb a a = true.
Proof. now apply str_eqb_eq. Qed.

Lemma str_eqb_neq (a b : pystr) : str_eqb a b = false <-> a <> b.
Proof.
  split; intro H.
  - intro E. apply str_eqb_eq in E. congruence.
  - destruct (str_eqb a b) eqn:E; [|reflexivity]. apply str_eqb_eq in E. contradiction.
Qed.

Lemma starts_with_app (pat s : pystr) :
  starts_with pat s = true <-> exists rest, s = pat ++ rest.
Proof.
  revert s; induction pat as [|p pat IH]; intros s; simpl.
  - split; [intros _; now exists s | reflexivity].
  - destruct s as [|c s].
    + split; [discriminate | intros [rest H]; discriminate].
    + rewrite andb_true_iff, N.eqb_eq, IH. split.
      * intros [-> [rest ->]]. now exists rest.
      * intros [rest H]. injection H as -> ->. split; [reflexivity | now exists rest].
Qed.

Lemma starts_with_skipn (pat s : pystr) :
  starts_with pat s = true -> s = pat ++ skipn (List.length pat) s.
Proof.
  intro H. apply starts_with_app in H as [rest ->].
  now rewrite skipn_app, skipn_all, Nat.sub_diag.
Qed.

Lemma contains_spec (a b : pystr) : contains a b = true <-> substring_of a b.
Proof.
  unfold substring_of. induction b as [|c b IH].
  - simpl. rewrite orb_false_r, starts_with_app. split.
    + intros [rest H]. now exists [], rest.
    + intros [pre [post H]]. destruct pre; [now exists post|discriminate].
  - cbn [contains]. rewrite orb_true_iff, starts_with_app, IH. split.
    + intros [[rest H] | [pre [post H]]].
      * now exists [], rest.
      * exists (c :: pre), post. now rewrite H.
    + intros [pre [post H]]. destruct pre as [|x pre].
      * left. now exists post.
      * right. injection H as _ H. now exists pre, post.
Qed.

Lemma drop_while_split (p : char -> bool) (s : pystr) :
  exists pre, s = pre ++ drop_while p s /\ forallb p pre = true.
Proof.
  induction s as [|c s [pre [E F]]]; simpl.
  - now exists [].
  - destruct (p c) eqn:Pc.
    + exists (c :: pre). simpl. now rewrite Pc, F, <- E.
    + now exists [].
Qed.

Lemma drop_while_head (p : char -> bool) (s : pystr) c t :
  drop_while p s = c :: t -> p c = false.
Proof.
  induction s as [|x s IH]; simpl; [discriminate|].
  destruct (p x) eqn:Px; [exact IH|]. intro H. now injection H as <- _.
Qed.

Lemma drop_while_idem (p : char -> bool) (s : pystr) :
  drop_while p (drop_while p s) = drop_while p s.
Proof.
  destruct (drop_while p s) as [|c t] eqn:E; [reflexivity|].
  simpl. now rewrite (@drop_while_head p s c t E).
Qed.

(** ** The matcher *)

Section Matcher.

Variable A : Type.

Lemma rmatch_lits (pat : pystr) (k : cont A) pos s caps :
  rmatch (lits pat) k pos s caps =
  if starts_with pat s
  then k (pos + List.length pat) (skipn (List.length pat) s) caps
  else None.
Proof.
  revert pos s; induction pat as [|p pat IH]; intros pos s; simpl.
  - now rewrite Nat.add_0_r.
  - destruct s as [|c s]; [reflexivity|].
    destruct (N.eqb p c); simpl; [|reflexivity].
    rewrite IH. now rewrite Nat.add_succ_r.
Qed.

(** A greedy star over every character, followed by a literal: the match
    ends at the last occurrence of the literal. *)
Lemma star_any_last (pat : pystr) (f : nat -> A) (k : cont A) caps :
  (forall pos s, k pos s caps = if starts_with pat s then Some (f pos) else None) ->
  forall s pos,
    star any k pos s caps =
    match rfind pat s with
    | Some j => Some (f (pos + j))
    | None => None
    end.
Proof.
  intros Hk. induction s as [|c s IH]; intros pos; cbn [star any rfind].
  - rewrite Hk. destruct (starts_with pat []); [now rewrite Nat.add_0_r | reflexivity].
  - rewrite IH. destruct (rfind pat s) as [j|].
    + now rewrite Nat.add_succ_r.
    + rewrite Hk. destruct (starts_with pat (c :: s)); [now rewrite Nat.add_0_r | reflexivity].
Qed.

(** A greedy star before something that fails wherever it failed one
    character of the class later: giving characters back gains nothing. *)
Lemma star_no_backtrack (p : char -> bool) (k : cont A) caps :
  (forall c s pos, p c = true -> k (S pos) s caps = None -> k pos (c :: s) caps = None) ->
  forall s pos,
    star p k pos s caps = k (pos + prefix_len p s) (drop_while p s) caps.
Proof.
  intros Hk. induction s as [|c s IH]; intros pos; cbn [star drop_while prefix_len].
  - now rewrite Nat.add_0_r.
  - destruct (p c) eqn:Pc.
    + rewrite IH, Nat.add_succ_r. cbn [Nat.add].
      destruct (k _ (drop_while p s) caps) eqn:E; [reflexivity|].
      change (S (pos + prefix_len p s)) with (S pos + prefix_len p s) in E.
      rewrite <- IH in E. apply Hk; [exact Pc|].
      clear - Hk E. revert pos E. induction s as [|x s IHs]; intros pos E;
        cbn [star] in *.
      * exact E.
      * destruct (p x) eqn:Px; [|exact E].
        destruct (star p k (S (S pos)) s caps) eqn:E2; [discriminate|].
        apply Hk; [exact Px|]. now apply IHs.
    + now rewrite Nat.add_0_r.
Qed.

End Matcher.

(** ** The brace pattern *)

Lemma starts_with_one (c : char) (s : pystr) :
  starts_with [c] s = match s with x :: _ => N.eqb c x | [] => false end.
Proof. destruct s; simpl; [reflexivity | apply andb_true_r]. Qed.

Lemma rmatch_braces (st pos : nat) (s : pystr) :
  rmatch BRACES (accept st) pos s [] =
  match s with
  | c :: s' =>
      if N.eqb LBRACE c then
        match rfind [RBRACE] s' with
        | Some j => Some (MatchObj st (S (S pos + j)) [])
        | None => None
        end
      else None
  | [] => None
  end.
Proof.
  destruct s as [|c s']; [reflexivity|].
  cbn [BRACES rmatch chr]. destruct (N.eqb LBRACE c); [|reflexivity].
  rewrite (@star_any_last _ [RBRACE] (fun p => MatchObj st (S p) [])).
  - reflexivity.
  - intros p t. rewrite starts_with_one. destruct t as [|x t]; [reflexivity|].
    cbn. now destruct (N.eqb RBRACE x).
Qed.

Lemma rfind_one_skipn (c : char) (n : nat) (s : pystr) :
  rfind [c] (skipn n s) =
  match rfind [c] s with
  | Some j => if Nat.leb n j then Some (j - n) else None
  | None => None
  end.
Proof.
  revert n; induction s as [|x s IH]; intros n.
  - now rewrite skipn_nil.
  - destruct n as [|n].
    + cbn [skipn]. destruct (rfind [c] (x :: s)); [|reflexivity].
      cbn. now rewrite Nat.sub_0_r.
    + cbn [skipn rfind]. rewrite IH. destruct (rfind [c] s) as [j|].
      * reflexivity.
      * now destruct (starts_with [c] (x :: s)).
Qed.

Lemma search_braces (s : pystr) (pos : nat) :
  search_from BRACES pos s =
  match find [LBRACE] s with
  | Some i =>
      match rfind [RBRACE] (skipn (S i) s) with
      | Some j => Some (MatchObj (pos + i) (pos + i + j + 2) [])
      | None => None
      end
  | None => None
  end.
Proof.
  revert pos; induction s as [|c s IH]; intros pos.
  - reflexivity.
  - cbn [search_from find]. rewrite rmatch_braces, starts_with_one.
    destruct (N.eqb LBRACE c).
    + change (skipn 1 (c :: s)) with s. destruct (rfind [RBRACE] s) as [j|] eqn:R.
      * f_equal. f_equal; lia.
      * rewrite IH. destruct (find [LBRACE] s) as [i|]; [|reflexivity].
        now rewrite rfind_one_skipn, R.
    + rewrite IH. destruct (find [LBRACE] s) as [i|]; cbn [option_map]; [|reflexivity].
      change (skipn (S (S i)) (c :: s)) with (skipn (S i) s).
      destruct (rfind [RBRACE] (skipn (S i) s)); [|reflexivity].
      f_equal. f_equal; lia.
Qed.

(** The search for the brace pattern finds the span from the first opening
    brace to the last closing brace. *)
Lemma re_search_braces (t : pystr) :
  option_map (group0 t) (re_search BRACES t) = brace_span t.
Proof.
  unfold re_search, brace_span. rewrite search_braces.
  destruct (find [LBRACE] t) as [i|]; [|reflexivity].
  rewrite rfind_one_skipn. destruct (rfind [RBRACE] t) as [j|]; [|reflexivity].
  destruct (Nat.ltb_spec i j) as [L|L].
  - replace (Nat.leb (S i) j) with true by (symmetry; apply Nat.leb_le; lia).
    unfold option_map, group0, slice. cbn [m_start m_end Nat.add].
    replace (i + (j - S i) + 2 - i) with (S j - i) by lia. reflexivity.
  - replace (Nat.leb (S i) j) with false by (symmetry; apply Nat.leb_gt; lia).
    reflexivity.
Qed.

(** ** The fence pattern *)

Lemma space_not_backtick (c : char) : is_space c = true -> N.eqb BACKTICK c = false.
Proof.
  intro H. destruct (N.eqb_spec BACKTICK c) as [E|]; [|reflexivity].
  subst c. discriminate H.
Qed.

Lemma rfind_fence_cons (c : char) (s : pystr) :
  N.eqb BACKTICK c = false ->
  rfind FENCE_MARK s = None -> rfind FENCE_MARK (c :: s) = None.
Proof.
  intros Hc H. cbn [rfind]. rewrite H. unfold FENCE_MARK. cbn [starts_with].
  now rewrite Hc.
Qed.

Lemma rfind_fence_app (pre s : pystr) :
  forallb (fun c => negb (N.eqb BACKTICK c)) pre = true ->
  rfind FENCE_MARK s = None -> rfind FENCE_MARK (pre ++ s) = None.
Proof.
  induction pre as [|c pre IH]; cbn [forallb app]; intros H R; [exact R|].
  apply andb_true_iff in H as [Hc H]. apply rfind_fence_cons.
  - now apply negb_true_iff.
  - now apply IH.
Qed.

Lemma fence_tail_eq (pos : nat) (s : pystr) (caps : list pystr) :
  fence_tail pos s caps =
  match rfind FENCE_MARK s with
  | Some j => Some (MatchObj 0 (pos + j + 3) (caps ++ [firstn j s]))
  | None => None
  end.
Proof.
  unfold fence_tail. cbn [rmatch].
  rewrite (@star_any_last _ FENCE_MARK
             (fun p => MatchObj 0 (p + 3) (caps ++ [firstn (p - pos) s]))).
  - destruct (rfind FENCE_MARK s) as [j|]; [|reflexivity].
    now replace (pos + j - pos) with j by lia.
  - intros p t. rewrite rmatch_lits. reflexivity.
Qed.

Lemma fence_spaces (pos : nat) (s : pystr) (caps : list pystr) :
  star is_space fence_tail pos s caps =
  fence_tail (pos + prefix_len is_space s) (lstrip s) caps.
Proof.
  apply star_no_backtrack. intros c t p Hc. rewrite !fence_tail_eq.
  destruct (rfind FENCE_MARK t) eqn:R; [discriminate|]. intros _.
  now rewrite (rfind_fence_cons c t (space_not_backtick c Hc) R).
Qed.

Lemma lstrip_split (s : pystr) :
  exists pre, s = pre ++ lstrip s
              /\ forallb (fun c => negb (N.eqb BACKTICK c)) pre = true.
Proof.
  destruct (drop_while_split is_space s) as [pre [E F]]. exists pre. split; [exact E|].
  rewrite forallb_forall in *. intros c Hc. apply negb_true_iff.
  apply space_not_backtick. now apply F.
Qed.

(** The fence pattern matches a text exactly when it is a fenced block, and
    its group is the payload of the block. *)
Lemma re_match_fence (t : pystr) :
  option_map (fun m => group m 1) (re_match FENCE t) = fenced_payload t.
Proof.
  unfold re_match, fenced_payload, FENCE, strip_prefix.
  cbn [rmatch]. rewrite rmatch_lits.
  destruct (starts_with FENCE_MARK t); [|reflexivity].
  set (b := skipn (List.length FENCE_MARK) t). set (p := 0 + List.length FENCE_MARK).
  change (rmatch (Group (Star any)) (rmatch (lits FENCE_MARK) (accept 0))) with fence_tail.
  rewrite rmatch_lits. destruct (starts_with (lit "json") b) eqn:J.
  - set (b4 := skipn (List.length (lit "json")) b).
    rewrite !fence_spaces, !fence_tail_eq.
    destruct (rfind FENCE_MARK (lstrip b4)) as [j|] eqn:R; [reflexivity|].
    assert (R4 : rfind FENCE_MARK b4 = None).
    { destruct (lstrip_split b4) as [pre [E F]]. rewrite E. now apply rfind_fence_app. }
    assert (Rb : rfind FENCE_MARK b = None).
    { rewrite (starts_with_skipn _ _ J). now apply rfind_fence_app. }
    destruct (lstrip_split b) as [pre [E F]].
    destruct (rfind FENCE_MARK (lstrip b)) as [j|] eqn:Rl; [|reflexivity].
    exfalso. rewrite E in Rb.
    assert (X : rfind FENCE_MARK (lstrip b) = None -> False) by (rewrite Rl; discriminate).
    clear - Rb F X. induction pre as [|c pre IH]; [now apply X|].
    cbn [forallb] in F. apply andb_true_iff in F as [_ F].
    cbn [app rfind] in Rb. destruct (rfind FENCE_MARK (pre ++ lstrip b)) eqn:Y; [discriminate|].
    now apply IH.
  - rewrite fence_spaces, fence_tail_eq.
    destruct (rfind FENCE_MARK (lstrip b)) as [j|]; reflexivity.
Qed.

Lemma unwrap_fence_eq (t : pystr) :
  match re_match FENCE t with
  | Some m => strip (group m 1)
  | None => t
  end = unwrap_fence t.
Proof.
  unfold unwrap_fence. rewrite <- re_match_fence.
  now destruct (re_match FENCE t).
Qed.

(** The source function is the recovery the specification describes. *)
Lemma extract_json_eq (json_loads : pystr -> option json) (text : pystr) :
  _extract_json json_loads text = extract_spec json_loads text.
Proof.
  unfold _extract_json, extract_spec. rewrite unwrap_fence_eq.
  set (t := unwrap_fence (strip text)).
  destruct (json_loads t); [reflexivity|].
  rewrite <- re_search_braces. now destruct (re_search BRACES t).
Qed.

(** ** The year-range pattern *)

Lemma digit_not_space (c : char) : is_digit c = true -> is_space c = false.
Proof.
  unfold is_digit, is_space, in_range. intro H.
  apply andb_true_iff in H as [L U]. apply N.leb_le in L, U.
  repeat (apply orb_false_iff; split);
    try (apply andb_false_iff; (left; apply N.leb_gt; lia) || (right; apply N.leb_gt; lia));
    apply N.eqb_neq; lia.
Qed.

Lemma space_not_digit (c : char) : is_space c = true -> is_digit c = false.
Proof.
  intro H. destruct (is_digit c) eqn:D; [|reflexivity].
  apply digit_not_space in D. congruence.
Qed.

Lemma space_not_dash (c : char) : is_space c = true -> is_dash c = false.
Proof.
  intro H. unfold is_dash, HYPHEN, EN_DASH.
  destruct (N.eqb_spec c 45) as [->|]; [discriminate H|].
  destruct (N.eqb_spec c 8211) as [->|]; [discriminate H|]. reflexivity.
Qed.

Lemma four_digits_space (c : char) (s : pystr) :
  is_space c = true -> four_digits (c :: s) = None.
Proof.
  intro H. apply space_not_digit in H. unfold four_digits.
  destruct s as [|b [|x [|d rest]]]; try reflexivity. now rewrite H.
Qed.

Lemma rmatch_group_d4 (A : Type) (k : cont A) pos s caps :
  rmatch (Group D4) k pos s caps =
  match four_digits s with
  | Some (ds, rest) => k (pos + 4) rest (caps ++ [ds])
  | None => None
  end.
Proof.
  unfold D4, four_digits. cbn [rmatch].
  destruct s as [|a [|b [|c [|d s]]]]; try reflexivity;
    try (destruct (is_digit a); [|reflexivity]);
    try (destruct (is_digit b); [|reflexivity]);
    try (destruct (is_digit c); [|reflexivity]);
    try reflexivity.
  destruct (is_digit d); [|reflexivity].
  cbn [andb]. replace (S (S (S (S pos))) - pos) with 4 by lia.
  now replace (S (S (S (S pos)))) with (pos + 4) by lia.
Qed.

Lemma rmatch_cat (A : Type) (r1 r2 : regex) (k : cont A) :
  rmatch (Cat r1 r2) k = rmatch r1 (rmatch r2 k).
Proof. reflexivity. Qed.

Lemma rmatch_class (A : Type) (p : char -> bool) (k : cont A) pos s caps :
  rmatch (Class p) k pos s caps =
  match s with
  | c :: s' => if p c then k (S pos) s' caps else None
  | [] => None
  end.
Proof. reflexivity. Qed.

Lemma rmatch_star (A : Type) (p : char -> bool) (k : cont A) :
  rmatch (Star p) k = star p k.
Proof. reflexivity. Qed.

(** White space and the end of the text. *)
Lemma rmatch_spaces_eol pos s caps :
  star is_space (rmatch Eol (accept 0)) pos s caps =
  match lstrip s with
  | [] => Some (MatchObj 0 (pos + prefix_len is_space s) caps)
  | _ => None
  end.
Proof.
  rewrite star_no_backtrack.
  - unfold lstrip. destruct (drop_while is_space s) as [|c [|d t]] eqn:E;
      cbn [rmatch]; try reflexivity.
    apply drop_while_head in E. destruct (N.eqb_spec c 10) as [->|]; [discriminate E|].
    reflexivity.
  - intros c t p Hc. cbn [rmatch]. destruct t as [|x t]; [discriminate|].
    intros _. now destruct t.
Qed.

Lemma year_hi_eq pos s caps :
  year_hi pos s caps =
  match four_digits s with
  | Some (hi, rest) =>
      match lstrip rest with
      | [] => Some (MatchObj 0 (pos + 4 + prefix_len is_space rest) (caps ++ [hi]))
      | _ => None
      end
  | None => None
  end.
Proof.
  unfold year_hi. rewrite rmatch_cat, rmatch_group_d4.
  destruct (four_digits s) as [[hi rest]|]; [|reflexivity].
  rewrite rmatch_cat, rmatch_star. apply rmatch_spaces_eol.
Qed.

Lemma year_dash_eq pos s caps :
  year_dash pos s caps =
  match s with
  | c :: s' =>
      if is_dash c
      then year_hi (S pos + prefix_len is_space s') (lstrip s') caps
      else None
  | [] => None
  end.
Proof.
  unfold year_dash. rewrite rmatch_cat, rmatch_class.
  destruct s as [|c s']; [reflexivity|].
  destruct (is_dash c); [|reflexivity].
  rewrite rmatch_cat, rmatch_star. fold year_hi.
  apply star_no_backtrack. intros x t p Hx _. rewrite year_hi_eq.
  now rewrite four_digits_space.
Qed.

Lemma year_lo_eq pos s caps :
  year_lo pos s caps =
  match four_digits s with
  | Some (lo, rest) =>
      year_dash (pos + 4 + prefix_len is_space rest) (lstrip rest) (caps ++ [lo])
  | None => None
  end.
Proof.
  unfold year_lo. rewrite rmatch_cat, rmatch_group_d4.
  destruct (four_digits s) as [[lo rest]|]; [|reflexivity].
  rewrite rmatch_cat, rmatch_star. fold year_dash.
  apply star_no_backtrack. intros x t p Hx _. rewrite year_dash_eq.
  now rewrite space_not_dash.
Qed.

(** The year-range pattern matches exactly the texts of the shape
    YYYY-YYYY, and its groups are the two years. *)
Lemma re_match_year_range (r : pystr) :
  option_map (fun m => (group m 1, group m 2)) (re_match YEAR_RANGE r) = range_years r.
Proof.
  unfold re_match, YEAR_RANGE, range_years.
  rewrite rmatch_cat. change (rmatch Bol ?k 0 r []) with (k 0 r []).
  rewrite rmatch_cat, rmatch_star. fold year_lo.
  rewrite star_no_backtrack.
  - rewrite year_lo_eq. unfold lstrip.
    destruct (four_digits (drop_while is_space r)) as [[lo rest]|]; [|reflexivity].
    rewrite year_dash_eq. unfold lstrip.
    destruct (drop_while is_space rest) as [|c s']; [reflexivity|].
    destruct (is_dash c); [|reflexivity].
    rewrite year_hi_eq. unfold lstrip.
    destruct (four_digits (drop_while is_space s')) as [[hi rest']|]; [|reflexivity].
    now destruct (drop_while is_space rest').
  - intros x t p Hx _. rewrite year_lo_eq. now rewrite four_digits_space.
Qed.

(** ** Reading integers *)

Lemma drop_while_none (p : char -> bool) (s : pystr) :
  forallb (fun c => negb (p c)) s = true -> drop_while p s = s.
Proof.
  destruct s as [|c s]; [reflexivity|]. cbn [forallb drop_while].
  intro H. apply andb_true_iff in H as [H _]. apply negb_true_iff in H. now rewrite H.
Qed.

Lemma digit_not_int_space (c : char) : is_digit c = true -> is_int_space c = false.
Proof. intro H. unfold is_int_space. now rewrite (digit_not_space c H). Qed.

Lemma digits_no_int_space (s : pystr) :
  forallb is_digit s = true -> forallb (fun c => negb (is_int_space c)) s = true.
Proof.
  rewrite !forallb_forall. intros H c Hc. apply negb_true_iff.
  apply digit_not_int_space. now apply H.
Qed.

Lemma int_digits_from_digits (s : pystr) (acc : Z) :
  forallb is_digit s = true ->
  int_digits_from acc s = Some (fold_left (fun a c => 10 * a + digit_value c)%Z s acc).
Proof.
  revert acc; induction s as [|c s IH]; intros acc H; [reflexivity|].
  cbn [forallb] in H. apply andb_true_iff in H as [Hc H].
  cbn [int_digits_from fold_left]. rewrite Hc. now apply IH.
Qed.

(** [int] reads a string of digits as the number it writes. *)
Lemma py_int_digits (s : pystr) :
  s <> [] -> forallb is_digit s = true -> py_int s = Some (digits_value s).
Proof.
  intros Hne H. unfold py_int.
  rewrite (drop_while_none is_int_space s (digits_no_int_space s H)).
  rewrite drop_while_none, rev_involutive.
  - destruct s as [|c t]; [contradiction|].
    cbn [forallb] in H. apply andb_true_iff in H as [Hc H].
    destruct (N.eqb_spec c 43) as [->|]; [discriminate Hc|].
    destruct (N.eqb_spec c 45) as [->|]; [discriminate Hc|].
    unfold int_digits, digits_value. rewrite Hc. cbn [fold_left].
    now rewrite (int_digits_from_digits t _ H).
  - apply digits_no_int_space. rewrite forallb_forall in *.
    intros c Hc. apply H. now apply in_rev.
Qed.

Lemma four_digits_inv (s ds rest : pystr) :
  four_digits s = Some (ds, rest) ->
  s = ds ++ rest /\ List.length ds = 4 /\ forallb is_digit ds = true.
Proof.
  unfold four_digits. destruct s as [|a [|b [|c [|d t]]]]; try discriminate.
  destruct (is_digit a) eqn:Da; [|discriminate].
  destruct (is_digit b) eqn:Db; [|discriminate].
  destruct (is_digit c) eqn:Dc; [|discriminate].
  destruct (is_digit d) eqn:Dd; [|discriminate].
  intro H. injection H as <- <-. cbn. now rewrite Da, Db, Dc, Dd.
Qed.

Lemma range_years_inv (r lo hi : pystr) :
  range_years r = Some (lo, hi) ->
  (List.length lo = 4 /\ forallb is_digit lo = true)
  /\ (List.length hi = 4 /\ forallb is_digit hi = true).
Proof.
  unfold range_years.
  destruct (four_digits (lstrip r)) as [[lo' s]|] eqn:F1; [|discriminate].
  destruct (lstrip s) as [|c s']; [discriminate|].
  destruct (is_dash c); [|discriminate].
  destruct (four_digits (lstrip s')) as [[hi' s'']|] eqn:F2; [|discriminate].
  destruct (lstrip s''); [|discriminate].
  intro H. injection H as <- <-.
  apply four_digits_inv in F1 as (_ & L1 & D1). apply four_digits_inv in F2 as (_ & L2 & D2).
  tauto.
Qed.

Lemma int_of_str_digits (s : pystr) :
  List.length s = 4 -> forallb is_digit s = true -> int_of_str s = Ok (digits_value s).
Proof.
  intros L D. unfold int_of_str. rewrite py_int_digits; [reflexivity| |exact D].
  intro E. now rewrite E in L.
Qed.

(** The source function computes the bounds of [year_range_spec], and
    never raises. *)
Lemma parse_year_range_eq (r : option pystr) :
  _parse_year_range r = Ok (year_range_spec r).
Proof.
  destruct r as [r|]; [|reflexivity].
  destruct r as [|c t]; [reflexivity|].
  unfold _parse_year_range, year_range_spec, range_shape.
  set (r := c :: t). pose proof (re_match_year_range r) as M.
  destruct (re_match YEAR_RANGE r) as [m|]; cbn [option_map] in M; rewrite <- M.
  - symmetry in M. apply range_years_inv in M as [[L1 D1] [L2 D2]].
    rewrite (int_of_str_digits _ L1 D1), (int_of_str_digits _ L2 D2). reflexivity.
  - unfold int_of_str. now destruct (py_int (strip r)).
Qed.

(** ** The knowledge-base matcher *)

Lemma truthy_str (s : pystr) : truthy (JStr s) = negb (str_eqb s []).
Proof. now destruct s. Qed.

Lemma normalize_cell (c : option pystr) : _normalize (cell c) = Ok (norm_cell c).
Proof. destruct c as [[|x s]|]; reflexivity. Qed.

Lemma normalize_typed (v : json) :
  text_or_absent v = true -> _normalize v = Ok (norm_text v).
Proof. destruct v as [| | | |[|x s]| |]; try discriminate; reflexivity. Qed.

Lemma render_row_complete (r : row) :
  row_complete r = true ->
  render_row r = Ok (if has_text r then Chunk (row_chunk r) else NoText).
Proof.
  unfold row_complete, render_row, has_text, row_chunk, row_text, row_topic.
  destruct (row_get_or_empty r (lit "text")) as [txt|]; [|discriminate].
  destruct (row_get_or_empty r (lit "topic")) as [topic|]; [|discriminate].
  intros _. cbn [cell_strip bind cell_text]. now destruct (strip txt).
Qed.

Lemma render_row_chunk (r : row) (c : pystr) :
  render_row r = Ok (Chunk c) -> has_text r = true /\ c = row_chunk r.
Proof.
  unfold render_row, has_text, row_chunk, row_text, row_topic.
  destruct (row_get_or_empty r (lit "text")) as [txt|]; [|discriminate].
  destruct (row_get_or_empty r (lit "topic")) as [topic|]; [|discriminate].
  cbn [cell_strip bind cell_text]. destruct (strip txt); [discriminate|].
  intro H. injection H as <-. now split.
Qed.

Lemma render_row_not_excluded (r : row) :
  render_row r <> Ok ExcludedBrand /\ render_row r <> Ok ExcludedModel
  /\ render_row r <> Ok ExcludedYear.
Proof.
  unfold render_row.
  destruct (cell_strip (row_get_or_empty r (lit "text"))) as [txt|]; cbn [bind];
    [|repeat split; discriminate].
  destruct (cell_strip (row_get_or_empty r (lit "topic"))) as [topic|]; cbn [bind];
    [|repeat split; discriminate].
  destruct txt; repeat split; discriminate.
Qed.

(** One turn of the first loop: the three tests in order, then the chunk. *)
Lemma match_row_eq (brand model : pystr) (year : json) (r : row) :
  match_row brand model year r =
  if brand_differs brand r then Ok ExcludedBrand
  else if model_differs model r then Ok ExcludedModel
  else if year_differs year r then Ok ExcludedYear
  else render_row r.
Proof.
  unfold match_row, brand_differs, model_differs, year_differs.
  rewrite !normalize_cell. cbn [bind]. rewrite !truthy_str, parse_year_range_eq.
  reflexivity.
Qed.

Lemma in_firstn (A : Type) (n : nat) (l : list A) (x : A) :
  In x (firstn n l) -> In x l.
Proof.
  intro H. rewrite <- (firstn_skipn n l). apply in_or_app. now left.
Qed.

(** The chunks the loop appends come from rows the body rendered. *)
Lemma scan_chunks (body : row -> result verdict) (kb : list row) (acc out : list pystr) :
  scan body kb acc = Ok out ->
  exists new, out = acc ++ new
              /\ forall c, In c new -> exists r, In r kb /\ body r = Ok (Chunk c).
Proof.
  revert acc; induction kb as [|r kb IH]; intros acc; cbn [scan].
  - intro H. injection H as <-. exists []. split; [now rewrite app_nil_r | intros c []].
  - destruct (body r) as [v|e] eqn:B; cbn [bind]; [|discriminate].
    intro H. apply IH in H as [new [E F]].
    destruct v; try (exists new; split; [exact E|];
      intros c Hc; destruct (F c Hc) as [r' [I Hr]]; exists r'; split; [now right|exact Hr]).
    exists (c :: new). split; [now rewrite E, <- app_assoc|].
    intros x [<-|Hx]; [exists r; split; [now left|exact B]|].
    destruct (F x Hx) as [r' [I Hr]]. exists r'. split; [now right|exact Hr].
Qed.

Lemma scan_render (kb : list row) (acc : list pystr) :
  forallb row_complete kb = true ->
  scan render_row kb acc = Ok (acc ++ chunks_of kb).
Proof.
  revert acc; induction kb as [|r kb IH]; intros acc H; cbn [scan].
  - now rewrite app_nil_r.
  - cbn [forallb] in H. apply andb_true_iff in H as [Hr H].
    rewrite (render_row_complete r Hr). cbn [bind]. unfold chunks_of. cbn [filter].
    destruct (has_text r); rewrite (IH _ H); unfold chunks_of; [|reflexivity].
    cbn [map]. now rewrite <- app_assoc.
Qed.

Lemma scan_match (brand model : pystr) (year : json) (kb : list row) (acc : list pystr) :
  forallb row_complete kb = true ->
  scan (match_row brand model year) kb acc =
  Ok (acc ++ chunks_of (filter (row_matches brand model year) kb)).
Proof.
  revert acc; induction kb as [|r kb IH]; intros acc H; cbn [scan].
  - now rewrite app_nil_r.
  - cbn [forallb] in H. apply andb_true_iff in H as [Hr H].
    rewrite match_row_eq. cbn [filter].
    assert (M : row_matches brand model year r =
                negb (brand_differs brand r || model_differs model r || year_differs year r))
      by reflexivity.
    rewrite M. clear M.
    destruct (brand_differs brand r); cbn [bind orb negb]; [now apply IH|].
    destruct (model_differs model r); cbn [bind orb negb]; [now apply IH|].
    destruct (year_differs year r); cbn [bind orb negb]; [now apply IH|].
    rewrite (render_row_complete r Hr). cbn [bind]. unfold chunks_of. cbn [filter].
    destruct (has_text r); rewrite (IH _ H); unfold chunks_of; [|reflexivity].
    cbn [map]. now rewrite <- app_assoc.
Qed.

(** On a typed listing and a table of complete rows the matcher returns,
    and what it returns is [matcher_spec]. *)
Lemma load_kb_eq (kb : list row) (listing : dict) :
  listing_typed listing = true ->
  forallb row_complete kb = true ->
  load_kb_for_listing kb listing = Ok (matcher_spec kb listing).
Proof.
  unfold listing_typed, load_kb_for_listing, matcher_spec. intros T C.
  apply andb_true_iff in T as [Tb Tm].
  rewrite (normalize_typed _ Tb), (normalize_typed _ Tm). cbn [bind].
  rewrite (scan_match _ _ _ kb [] C). cbn [bind app].
  destruct (chunks_of (filter _ kb)); cbn [bind]; [|reflexivity].
  now rewrite (scan_render kb [] C).
Qed.

(** Whatever the listing and the table, a chunk the matcher returns is the
    chunk of a row of the table that has text. *)
Lemma load_kb_chunks (kb : list row) (listing : dict) (chunks : list pystr) :
  load_kb_for_listing kb listing = Ok chunks ->
  forall c, In c chunks -> exists r, In r kb /\ has_text r = true /\ c = row_chunk r.
Proof.
  unfold load_kb_for_listing.
  destruct (_normalize (get listing (lit "brand"))) as [brand|]; cbn [bind]; [|discriminate].
  destruct (_normalize (get listing (lit "model"))) as [model|]; cbn [bind]; [|discriminate].
  destruct (scan _ kb []) as [found|] eqn:S1; cbn [bind]; [|discriminate].
  assert (R : forall body out, (forall r c, body r = Ok (Chunk c) -> render_row r = Ok (Chunk c)) ->
            scan body kb [] = Ok out ->
            forall c, In c (firstn 8 out) ->
              exists r, In r kb /\ has_text r = true /\ c = row_chunk r).
  { intros body out Hb Hs c Hc. apply in_firstn in Hc.
    apply scan_chunks in Hs as [new [E F]]. cbn [app] in E. subst out.
    destruct (F c Hc) as [r [I B]]. exists r. split; [exact I|].
    now apply render_row_chunk, Hb. }
  destruct found as [|c0 found].
  - destruct (scan render_row kb []) as [all|] eqn:S2; cbn [bind]; [|discriminate].
    intro H. injection H as <-. apply (R render_row all); [now intros|exact S2].
  - cbn [bind]. intro H. injection H as <-.
    refine (R _ _ _ S1). intros r c. rewrite match_row_eq.
    destruct (brand_differs brand r); [discriminate|].
    destruct (model_differs model r); [discriminate|].
    destruct (year_differs _ r); [discriminate|]. exact (fun H => H).
Qed.

Lemma chunks_of_nil (kb : list row) :
  chunks_of kb = [] <-> forallb (fun r => negb (has_text r)) kb = true.
Proof.
  unfold chunks_of. induction kb as [|r kb IH]; cbn [filter forallb]; [tauto|].
  destruct (has_text r); cbn [map negb andb]; [split; discriminate | exact IH].
Qed.

Lemma chunks_of_filter_nil (f : row -> bool) (kb : list row) :
  chunks_of kb = [] -> chunks_of (filter f kb) = [].
Proof.
  rewrite !chunks_of_nil, !forallb_forall. intros H r Hr.
  apply filter_In in Hr as [Hr _]. now apply H.
Qed.

Lemma matcher_spec_length (kb : list row) (listing : dict) :
  List.length (matcher_spec kb listing) <= 8.
Proof.
  unfold matcher_spec. destruct (chunks_of (filter _ kb)); apply firstn_le_length.
Qed.

Lemma matcher_spec_nil (kb : list row) (listing : dict) :
  matcher_spec kb listing = [] <-> chunks_of kb = [].
Proof.
  unfold matcher_spec. split.
  - destruct (chunks_of (filter _ kb)) eqn:E; [|discriminate].
    now destruct (chunks_of kb).
  - intro H. rewrite (chunks_of_filter_nil _ kb H). now rewrite H.
Qed.

(** ** Dictionaries *)

Lemma dict_get_set_same (d : dict) (k : pystr) (v : json) :
  dict_get (dict_set d k v) k = Some v.
Proof.
  induction d as [|[k0 v0] d IH]; cbn [dict_set dict_get].
  - now rewrite str_eqb_refl.
  - destruct (str_eqb k0 k) eqn:E; cbn [dict_get]; now rewrite E.
Qed.

Lemma dict_get_set_other (d : dict) (k k' : pystr) (v : json) :
  str_eqb k k' = false -> dict_get (dict_set d k v) k' = dict_get d k'.
Proof.
  intro N. induction d as [|[k0 v0] d IH]; cbn [dict_set dict_get].
  - now rewrite N.
  - destruct (str_eqb k0 k) eqn:E; cbn [dict_get].
    + apply str_eqb_eq in E. subst k0. now rewrite N.
    + now rewrite IH.
Qed.

Lemma setdefault_get (d : dict) (k k' : pystr) (v : json) :
  dict_get (setdefault d k v) k' =
  if str_eqb k k' then
    match dict_get d k with Some x => Some x | None => Some v end
  else dict_get d k'.
Proof.
  unfold setdefault. destruct (str_eqb k k') eqn:E.
  - apply str_eqb_eq in E. subst k'. destruct (dict_get d k) eqn:G; [exact G|].
    apply dict_get_set_same.
  - destruct (dict_get d k); [reflexivity|]. now apply dict_get_set_other.
Qed.

Lemma fill_get (defaults : list (pystr * json)) (d : dict) (k : pystr) :
  dict_get (fill defaults d) k =
  match dict_get d k with
  | Some v => Some v
  | None => dict_get defaults k
  end.
Proof.
  unfold fill. revert d; induction defaults as [|[k0 v0] defaults IH]; intros d;
    cbn [fold_left fst snd].
  - now destruct (dict_get d k).
  - rewrite IH, setdefault_get. cbn [dict_get].
    destruct (str_eqb k0 k) eqn:E.
    + apply str_eqb_eq in E. subst k0. now destruct (dict_get d k).
    + reflexivity.
Qed.

Lemma advisory_defaults_get (k : pystr) (v : json) :
  In (k, v) ADVISORY_DEFAULTS -> dict_get ADVISORY_DEFAULTS k = Some v.
Proof.
  unfold ADVISORY_DEFAULTS. cbn [In].
  intros H; repeat (destruct H as [H|H]; [injection H as <- <-; reflexivity|]).
  contradiction.
Qed.

(** [advise] returns the parsed object filled from the table of defaults. *)
Lemma advise_eq (json_loads : pystr -> option json)
    (request_content : dict -> list pystr -> result pystr)
    (kb : list row) (listing : dict) (chunks : list pystr) (content : pystr) (d : dict) :
  load_kb_for_listing kb listing = Ok chunks ->
  request_content listing chunks = Ok content ->
  _extract_json json_loads content = Ok (JObj d) ->
  advise json_loads request_content kb listing = Ok (JObj (fill ADVISORY_DEFAULTS d)).
Proof.
  intros L R E. unfold advise. rewrite L. cbn [bind]. rewrite R. cbn [bind].
  rewrite E. reflexivity.
Qed.

(** ** Numbers *)

Lemma digit_not_unit (c : char) : is_digit c = true -> is_unit_char c = false.
Proof.
  intro H. unfold is_unit_char. rewrite (digit_not_space c H).
  unfold is_digit, in_range in H. apply andb_true_iff in H as [L U].
  apply N.leb_le in L, U. unfold EURO.
  repeat (apply orb_false_iff; split); try reflexivity; apply N.eqb_neq; lia.
Qed.

Lemma digits_of_text (s : pystr) :
  re_sub_class is_non_digit (re_sub_class is_unit_char s) = filter is_digit s.
Proof.
  unfold re_sub_class, is_non_digit. induction s as [|c s IH]; [reflexivity|].
  cbn [filter]. destruct (is_digit c) eqn:D.
  - rewrite (digit_not_unit c D). cbn [negb filter]. rewrite D. cbn [negb]. now rewrite IH.
  - destruct (is_unit_char c); cbn [negb filter]; [exact IH|]. rewrite D. exact IH.
Qed.

Lemma filter_digits (s : pystr) : forallb is_digit (filter is_digit s) = true.
Proof.
  apply forallb_forall. intros c Hc. now apply filter_In in Hc.
Qed.

Lemma digits_value_from (s : pystr) (acc : Z) :
  (0 <= acc)%Z -> forallb is_digit s = true ->
  (0 <= fold_left (fun a c => 10 * a + digit_value c) s acc)%Z.
Proof.
  revert acc; induction s as [|c s IH]; intros acc A H; [exact A|].
  cbn [forallb] in H. apply andb_true_iff in H as [Hc H]. cbn [fold_left].
  apply IH; [|exact H]. unfold is_digit, in_range in Hc.
  apply andb_true_iff in Hc as [L _]. apply N.leb_le in L. unfold digit_value. lia.
Qed.

Lemma digits_value_nonneg (s : pystr) :
  forallb is_digit s = true -> (0 <= digits_value s)%Z.
Proof. apply digits_value_from. lia. Qed.

Lemma coerce_text (s : pystr) :
  (if isdigit (re_sub_class is_non_digit (re_sub_class is_unit_char s))
   then n <- int_of_str (re_sub_class is_non_digit (re_sub_class is_unit_char s)) ;;
        Ok (JInt n)
   else Ok JNull) = Ok (digits_number s).
Proof.
  rewrite digits_of_text. unfold digits_number, isdigit.
  pose proof (filter_digits s) as F. destruct (filter is_digit s) as [|c ds] eqn:E.
  - reflexivity.
  - rewrite F. unfold int_of_str. rewrite py_int_digits; [reflexivity|discriminate|exact F].
Qed.

Lemma digits_number_natural (s : pystr) : natural_or_absent (digits_number s) = true.
Proof.
  unfold digits_number. pose proof (filter_digits s) as F.
  destruct (filter is_digit s); [reflexivity|].
  cbn [natural_or_absent]. apply Z.leb_le. now apply digits_value_nonneg.
Qed.

Section CoerceFacts.

Variable py_repr : json -> pystr.


Lemma coerce_number_returns (x : json) :
  non_finite x = false -> exists v, _coerce_number py_repr x = Ok v.
Proof.
  destruct x as [|b|n|f|s|l|d]; intro H; cbn [_coerce_number].
  - now eexists.
  - now eexists.
  - now eexists.
  - destruct f; try discriminate; now eexists.
  - rewrite coerce_text. now eexists.
  - rewrite coerce_text. now eexists.
  - rewrite coerce_text. now eexists.
Qed.

(** What [_coerce_number] returns is an integer or [None], and it is
    below zero only for a number below zero. *)
Lemma coerce_number_value (x v : json) :
  _coerce_number py_repr x = Ok v ->
  int_or_absent v = true
  /\ (natural_or_absent v = false -> negative_number x = true).
Proof.
  destruct x as [|b|n|f|s|l|d]; cbn [_coerce_number].
  - intro H. injection H as <-. now split.
  - intro H. injection H as <-. split; [reflexivity|]. now destruct b.
  - intro H. injection H as <-. split; [reflexivity|].
    cbn [natural_or_absent negative_number]. intro N.
    apply Z.leb_gt in N. now apply Z.ltb_lt.
  - destruct f as [s|s| |s m e]; cbn [int_of_float bind]; try discriminate.
    + intro H. injection H as <-. now split.
    + intro H. injection H as <-. split; [reflexivity|].
      cbn [natural_or_absent negative_number]. destruct s; [reflexivity|].
      intro N. apply Z.leb_gt in N.
      assert (0 <= Z.shiftl (Z.pos m) e)%Z by (apply Z.shiftl_nonneg; lia). lia.
  - rewrite coerce_text. intro H. injection H as <-.
    rewrite digits_number_natural. split; [|discriminate].
    unfold digits_number. now destruct (filter is_digit _).
  - rewrite coerce_text. intro H. injection H as <-.
    rewrite digits_number_natural. split; [|discriminate].
    unfold digits_number. now destruct (filter is_digit _).
  - rewrite coerce_text. intro H. injection H as <-.
    rewrite digits_number_natural. split; [|discriminate].
    unfold digits_number. now destruct (filter is_digit _).
Qed.

End CoerceFacts.

(** ** The listing record *)

Section ListingFacts.

Variable json_loads : pystr -> option json.
Variable py_repr : json -> pystr.
Variable request_content : pystr -> result pystr.
Variable utcnow : pystr.

Lemma extract_listing_inv (ad_text : pystr) (out : dict) :
  extract_listing json_loads py_repr request_content utcnow ad_text = Ok out ->
  exists content data year mileage_km price_eur,
    request_content ad_text = Ok content
    /\ _extract_json json_loads content = Ok (JObj data)
    /\ _coerce_number py_repr (get data (lit "year")) = Ok year
    /\ _coerce_number py_repr (get data (lit "mileage_km")) = Ok mileage_km
    /\ _coerce_number py_repr (get data (lit "price_eur")) = Ok price_eur
    /\ out = listing_record py_repr utcnow data ad_text year mileage_km price_eur.
Proof.
  unfold extract_listing.
  destruct (request_content ad_text) as [content|] eqn:R; cbn [bind]; [|discriminate].
  destruct (_extract_json json_loads content) as [v|] eqn:E; cbn [bind]; [|discriminate].
  destruct v as [| | | | | |data]; try discriminate.
  destruct (_coerce_number py_repr (get data (lit "year"))) as [y|] eqn:Y; cbn [bind];
    [|discriminate].
  destruct (_coerce_number py_repr (get data (lit "mileage_km"))) as [m|] eqn:M; cbn [bind];
    [|discriminate].
  destruct (_coerce_number py_repr (get data (lit "price_eur"))) as [p|] eqn:P; cbn [bind];
    [|discriminate].
  intro H. injection H as <-. exists content, data, y, m, p.
  repeat split; assumption || reflexivity.
Qed.

Lemma extract_listing_returns (ad_text content : pystr) (data : dict) :
  request_content ad_text = Ok content ->
  _extract_json json_loads content = Ok (JObj data) ->
  non_finite (get data (lit "year")) = false ->
  non_finite (get data (lit "mileage_km")) = false ->
  non_finite (get data (lit "price_eur")) = false ->
  exists out, extract_listing json_loads py_repr request_content utcnow ad_text = Ok out.
Proof.
  intros R E Y M P. unfold extract_listing. rewrite R. cbn [bind]. rewrite E. cbn [bind].
  destruct (coerce_number_returns py_repr _ Y) as [y ->].
  destruct (coerce_number_returns py_repr _ M) as [m ->].
  destruct (coerce_number_returns py_repr _ P) as [p ->].
  cbn [bind]. now eexists.
Qed.

End ListingFacts.

(** ** What [find] and [rfind] find *)

Lemma find_one_split (c : char) (s : pystr) (i : nat) :
  find [c] s = Some i ->
  exists pre post, s = pre ++ c :: post /\ List.length pre = i /\ ~ In c pre.
Proof.
  revert i; induction s as [|x s IH]; intros i; cbn [find]; rewrite starts_with_one.
  - discriminate.
  - destruct (N.eqb_spec c x) as [<-|N].
    + intro H. injection H as <-. exists [], s. now repeat split.
    + destruct (find [c] s) as [j|]; cbn [option_map]; [|discriminate].
      intro H. injection H as <-. destruct (IH j eq_refl) as (pre & post & E & L & F).
      exists (x :: pre), post. subst s. repeat split; cbn; [now rewrite L|].
      intros [H|H]; [now apply N|now apply F].
Qed.

Lemma rfind_one_none (c : char) (s : pystr) : rfind [c] s = None -> ~ In c s.
Proof.
  induction s as [|x s IH]; cbn [rfind]; [now intros _ []|].
  destruct (rfind [c] s); [discriminate|]. rewrite starts_with_one.
  destruct (N.eqb_spec c x) as [|N]; [discriminate|].
  intros _ [H|H]; [now apply N|now apply IH].
Qed.

Lemma rfind_one_split (c : char) (s : pystr) (j : nat) :
  rfind [c] s = Some j ->
  exists pre post, s = pre ++ c :: post /\ List.length pre = j /\ ~ In c post.
Proof.
  revert j; induction s as [|x s IH]; intros j; cbn [rfind].
  - discriminate.
  - destruct (rfind [c] s) as [k|] eqn:R.
    + intro H. injection H as <-. destruct (IH k eq_refl) as (pre & post & E & L & F).
      exists (x :: pre), post. subst s. repeat split; cbn; [now rewrite L|exact F].
    + rewrite starts_with_one. destruct (N.eqb_spec c x) as [<-|]; [|discriminate].
      intro H. injection H as <-. exists [], s. repeat split. now apply rfind_one_none.
Qed.

(** The span of [brace_span] starts at the first opening brace of the
    text and ends at its last closing brace. *)
Lemma brace_span_split (t span : pystr) :
  brace_span t = Some span ->
  exists pre mid post,
    t = pre ++ span ++ post
    /\ span = LBRACE :: mid ++ [RBRACE]
    /\ ~ In LBRACE pre /\ ~ In RBRACE post.
Proof.
  unfold brace_span.
  destruct (find [LBRACE] t) as [i|] eqn:F; [|discriminate].
  destruct (rfind [RBRACE] t) as [j|] eqn:R; [|discriminate].
  destruct (Nat.ltb_spec i j) as [L|]; [|discriminate].
  intro H. injection H as <-.
  destruct (find_one_split _ _ F) as (pre1 & post1 & E1 & L1 & N1).
  destruct (rfind_one_split _ _ R) as (pre2 & post2 & E2 & L2 & N2).
  assert (X : exists mid, pre2 = pre1 ++ LBRACE :: mid).
  { assert (E : pre1 ++ LBRACE :: post1 = pre2 ++ RBRACE :: post2) by congruence.
    clear - E L L1 L2. subst i j. revert pre2 E L.
    induction pre1 as [|a pre1 IH]; intros [|b pre2] E L; cbn in *; try lia.
    - injection E as <- _. now exists pre2.
    - injection E as <- E. destruct (IH pre2 E) as [mid ->]; [|now exists mid]. lia. }
  destruct X as [mid ->]. exists pre1, mid, post2.
  assert (HS : slice i (S j) t = LBRACE :: mid ++ [RBRACE]).
  { subst i j. unfold slice. rewrite E2, <- app_assoc, skipn_app, skipn_all, Nat.sub_diag.
    cbn [skipn app]. rewrite length_app. cbn [List.length].
    replace (S (List.length pre1 + S (List.length mid)) - List.length pre1)
      with (S (List.length (mid ++ [RBRACE]))) by (rewrite length_app; cbn [List.length]; lia).
    cbn [firstn]. f_equal.
    change (RBRACE :: post2) with ([RBRACE] ++ post2). rewrite app_assoc.
    rewrite firstn_app, firstn_all, Nat.sub_diag. cbn [firstn]. now rewrite app_nil_r. }
  rewrite HS. repeat split; [|exact N1|exact N2].
  rewrite E2. cbn. rewrite <- !app_assoc. reflexivity.
Qed.

(** Without a span there is no closing brace after an opening brace. *)
Lemma brace_span_none (t : pystr) :
  brace_span t = None ->
  forall pre mid post, t <> pre ++ LBRACE :: mid ++ RBRACE :: post.
Proof.
  unfold brace_span. intros H pre mid post E.
  destruct (find [LBRACE] t) as [i|] eqn:F.
  - destruct (find_one_split _ _ F) as (pre1 & post1 & E1 & L1 & N1).
    destruct (rfind [RBRACE] t) as [j|] eqn:R.
    + destruct (rfind_one_split _ _ R) as (pre2 & post2 & E2 & L2 & N2).
      destruct (Nat.ltb_spec i j) as [|G]; [discriminate|].
      (* the last closing brace stands before the first opening brace *)
      assert (A : List.length pre1 <= List.length pre).
      { destruct (Nat.le_gt_cases (List.length pre1) (List.length pre)) as [|C]; [assumption|].
        exfalso. apply N1. rewrite E in E1.
        clear - E1 C. revert pre1 E1 C. induction pre as [|a pre IH]; intros [|b pre1] E1 C;
          cbn in *; try lia.
        - injection E1 as <- _. now left.
        - injection E1 as _ E1. right. apply (IH pre1 E1). lia. }
      assert (B : List.length (pre ++ LBRACE :: mid) <= List.length pre2).
      { destruct (Nat.le_gt_cases (List.length (pre ++ LBRACE :: mid)) (List.length pre2))
          as [|C]; [assumption|].
        exfalso. apply N2.
        assert (E3 : pre2 ++ RBRACE :: post2 = (pre ++ LBRACE :: mid) ++ RBRACE :: post)
          by (rewrite <- E2, E, <- app_assoc; reflexivity).
        clear - E3 C. revert E3 C. generalize (pre ++ LBRACE :: mid) as q.
        induction pre2 as [|a pre2 IH]; intros [|b q] E3 C; cbn in *; try lia.
        - injection E3 as _ ->. apply in_or_app. right. now left.
        - injection E3 as _ E3. apply (IH q E3). lia. }
      rewrite length_app in B. cbn in B. lia.
    + apply (rfind_one_none _ _ R). rewrite E. apply in_or_app. right. right.
      apply in_or_app. right. now left.
  - clear H. revert F. rewrite E. clear E. induction pre as [|a pre IH]; cbn [app find].
    + rewrite starts_with_one. unfold LBRACE. now rewrite N.eqb_refl.
    + destruct (starts_with [LBRACE] (a :: pre ++ LBRACE :: mid ++ RBRACE :: post));
        [discriminate|].
      destruct (find [LBRACE] (pre ++ LBRACE :: mid ++ RBRACE :: post)); [discriminate|].
      intros _. now apply IH.
Qed.

Lemma rfind_starts (pat s : pystr) (j : nat) :
  rfind pat s = Some j -> starts_with pat (skipn j s) = true /\ j <= List.length s.
Proof.
  revert j; induction s as [|x s IH]; intros j; cbn [rfind].
  - destruct (starts_with pat []) eqn:E; [|discriminate].
    intro H. injection H as <-. now split.
  - destruct (rfind pat s) as [k|].
    + intro H. injection H as <-. destruct (IH k eq_refl) as [A B].
      split; [exact A | cbn; lia].
    + destruct (starts_with pat (x :: s)) eqn:E; [|discriminate].
      intro H. injection H as <-. split; [exact E | cbn; lia].
Qed.

Lemma rfind_greatest (pat s : pystr) (j i : nat) :
  rfind pat s = Some j -> j < i -> i <= List.length s ->
  starts_with pat (skipn i s) = false.
Proof.
  revert j i; induction s as [|x s IH]; intros j i; cbn [rfind].
  - cbn [List.length]. intros _ A B. lia.
  - destruct (rfind pat s) as [k|] eqn:R.
    + intro H. injection H as <-. intros A B. destruct i as [|i]; [lia|].
      cbn [skipn]. apply (IH k i eq_refl); cbn in B; lia.
    + destruct (starts_with pat (x :: s)); [|discriminate].
      intro H. injection H as <-. intros A B. destruct i as [|i]; [lia|].
      cbn [skipn]. cbn in B. clear - R B.
      revert i B. induction s as [|y s IHs]; intros i B; cbn [rfind] in R.
      * destruct i; [|cbn in B; lia]. cbn [skipn].
        now destruct (starts_with pat []).
      * destruct (rfind pat s) eqn:R'; [discriminate|].
        destruct i as [|i]; cbn [skipn].
        -- now destruct (starts_with pat (y :: s)).
        -- apply IHs; [reflexivity | cbn in B; lia].
Qed.

(** A fenced block: the opening fence, an optional tag, white space, the
    payload, and the last fence of the text. *)
Lemma fenced_payload_split (t p : pystr) :
  fenced_payload t = Some p ->
  exists tag ws rest,
    t = FENCE_MARK ++ tag ++ ws ++ p ++ FENCE_MARK ++ rest
    /\ (tag = [] \/ tag = lit "json")
    /\ forallb is_space ws = true
    /\ rfind FENCE_MARK (p ++ FENCE_MARK ++ rest) = Some (List.length p).
Proof.
  assert (G : forall tag b1 : pystr,
             t = FENCE_MARK ++ tag ++ b1 -> (tag = [] \/ tag = lit "json") ->
             match rfind FENCE_MARK (lstrip b1) with
             | Some j => Some (firstn j (lstrip b1))
             | None => None
             end = Some p ->
             exists tag ws rest,
               t = FENCE_MARK ++ tag ++ ws ++ p ++ FENCE_MARK ++ rest
               /\ (tag = [] \/ tag = lit "json")
               /\ forallb is_space ws = true
               /\ rfind FENCE_MARK (p ++ FENCE_MARK ++ rest) = Some (List.length p)).
  { intros tag b1 Et Htag.
    destruct (drop_while_split is_space b1) as (ws & Ews & Hws). fold (lstrip b1) in Ews.
    destruct (rfind FENCE_MARK (lstrip b1)) as [j|] eqn:R; [|discriminate].
    intro H. injection H as <-.
    destruct (rfind_starts _ _ R) as [S L]. apply starts_with_skipn in S.
    assert (E2 : lstrip b1 = firstn j (lstrip b1) ++ FENCE_MARK
                   ++ skipn (List.length FENCE_MARK) (skipn j (lstrip b1))).
    { rewrite <- S. symmetry. apply firstn_skipn. }
    exists tag, ws, (skipn (List.length FENCE_MARK) (skipn j (lstrip b1))).
    repeat split; [|exact Htag|exact Hws|].
    - rewrite Et. f_equal. f_equal. rewrite Ews at 1. f_equal. exact E2.
    - rewrite <- E2, R. f_equal. symmetry. apply firstn_length_le. exact L. }
  unfold fenced_payload, strip_prefix.
  destruct (starts_with FENCE_MARK t) eqn:F; [|discriminate].
  apply starts_with_skipn in F.
  destruct (starts_with (lit "json") (skipn (List.length FENCE_MARK) t)) eqn:J.
  - apply starts_with_skipn in J. apply (G (lit "json")); [|now right].
    rewrite F at 1. f_equal. exact J.
  - apply (G []); [exact F | now left].
Qed.

(** ** Strings of digits *)






(* ================================================================= *)
(** ** The claims *)

(** C1.  [_extract_json] is the recovery of section 4.2: the text is
    trimmed; a fenced block, tagged [json] or not, is unwrapped to its
    trimmed payload; the result is parsed strictly; when that fails, the
    span from the first opening brace to the last closing brace is parsed
    strictly.  A fenced block is an opening fence, an optional tag, white
    space, the payload and the last fence of the text.  The span, when
    there is one, starts at the first opening brace and ends at the last
    closing brace of the text.  A fenced block around the object a:1 and
    the same object inside prose both give the object. *)
Theorem extract_json_recovery :
  (forall (json_loads : pystr -> option json) (text : pystr),
      _extract_json json_loads text = extract_spec json_loads text)
  /\ (forall t p : pystr,
        fenced_payload t = Some p ->
        exists tag ws rest,
          t = FENCE_MARK ++ tag ++ ws ++ p ++ FENCE_MARK ++ rest
          /\ (tag = [] \/ tag = lit "json")
          /\ forallb is_space ws = true
          /\ rfind FENCE_MARK (p ++ FENCE_MARK ++ rest) = Some (List.length p))
  /\ (forall t span : pystr,
        brace_span t = Some span ->
        exists pre mid post,
          t = pre ++ span ++ post /\ span = LBRACE :: mid ++ [RBRACE]
          /\ ~ In LBRACE pre /\ ~ In RBRACE post)
  /\ (forall t : pystr,
        brace_span t = None ->
        forall pre mid post, t <> pre ++ LBRACE :: mid ++ RBRACE :: post)
  /\ _extract_json Json.loads
       (FENCE_MARK ++ lit "json" ++ NEWLINE ++ jlit "{'a':1}" ++ NEWLINE ++ FENCE_MARK)
     = Ok OBJECT_A1
  /\ _extract_json Json.loads (FENCE_MARK ++ jlit "{'a':1}" ++ FENCE_MARK) = Ok OBJECT_A1
  /\ _extract_json Json.loads (jlit "noise {'a':1} trailing") = Ok OBJECT_A1.
Proof.
  split; [exact extract_json_eq|].
  split; [exact fenced_payload_split|].
  split; [exact brace_span_split|].
  split; [exact brace_span_none|].
  repeat split; vm_compute; reflexivity.
Qed.

(** C2.  One turn of the matching loop excludes the row on its brand
    exactly when the listing's brand and the row's brand, both lower-cased
    and trimmed, are not empty and differ; on its model exactly when it is
    not excluded on its brand and both models are not empty and the
    listing's model does not occur in the row's model; on its year only
    when the listing's year is an integer, the row's range parses to two
    bounds and the year is outside them.  A row with an empty brand or
    model is not excluded on that field.  A listing for a golf matches
    the row of the golf 7; a listing for a golf 7 does not match the row
    of the golf. *)
Theorem kb_row_exclusion :
  forall (brand model : pystr) (year : json) (r : row),
    let rb := norm_cell (row_get r (lit "brand")) in
    let rm := norm_cell (row_get r (lit "model")) in
    _normalize (cell (row_get r (lit "brand"))) = Ok rb
    /\ _normalize (cell (row_get r (lit "model"))) = Ok rm
    /\ (forall s, _normalize (JStr s) = Ok (lower (strip s)))
    /\ (match_row brand model year r = Ok ExcludedBrand
        <-> brand <> [] /\ rb <> [] /\ brand <> rb)
    /\ (match_row brand model year r = Ok ExcludedModel
        <-> ~ (brand <> [] /\ rb <> [] /\ brand <> rb)
            /\ model <> [] /\ rm <> [] /\ ~ substring_of model rm)
    /\ (match_row brand model year r = Ok ExcludedYear ->
        exists y lo hi,
          as_int year = Some y
          /\ _parse_year_range (row_get_or_empty r (lit "year_range")) = Ok (Some lo, Some hi)
          /\ ~ (lo <= y <= hi)%Z)
    /\ (rb = [] -> match_row brand model year r <> Ok ExcludedBrand)
    /\ (rm = [] -> match_row brand model year r <> Ok ExcludedModel)
    /\ load_kb_for_listing [ROW_GOLF7; ROW_BMW] LISTING_GOLF = Ok [CHUNK_GOLF7]
    /\ match_row (lit "vw") (lit "golf 7") (JInt 2016) ROW_GOLF = Ok ExcludedModel.
Proof.
  intros brand model year r rb rm.
  assert (B : brand_differs brand r = true <-> brand <> [] /\ rb <> [] /\ brand <> rb).
  { unfold brand_differs. fold rb. rewrite !andb_true_iff, !negb_true_iff, !str_eqb_neq.
    tauto. }
  assert (M : model_differs model r = true <-> model <> [] /\ rm <> [] /\ ~ substring_of model rm).
  { unfold model_differs. fold rm. rewrite !andb_true_iff, !negb_true_iff, !str_eqb_neq.
    rewrite <- contains_spec, not_true_iff_false. tauto. }
  destruct (render_row_not_excluded r) as (R1 & R2 & R3).
  split; [apply normalize_cell|]. split; [apply normalize_cell|].
  split; [intros [|x s]; reflexivity|].
  rewrite match_row_eq.
  split; [|split; [|split; [|split; [|split; [|split]]]]].
  - rewrite <- B. destruct (brand_differs brand r); [tauto|].
    destruct (model_differs model r); [split; discriminate|].
    destruct (year_differs year r); [split; discriminate|].
    split; [intro H; now apply R1 in H | discriminate].
  - rewrite <- B, <- M. destruct (brand_differs brand r).
    + split; [discriminate | intros [H _]; now destruct H].
    + destruct (model_differs model r); [split; [split; [discriminate|reflexivity]|reflexivity]|].
      destruct (year_differs year r); [split; [discriminate|intros [_ H]; discriminate]|].
      split; [intro H; now apply R2 in H | intros [_ H]; discriminate].
  - destruct (brand_differs brand r); [discriminate|].
    destruct (model_differs model r); [discriminate|].
    destruct (year_differs year r) eqn:Y; [|intro H; now apply R3 in H].
    intros _. unfold year_differs, year_excluded in Y. rewrite parse_year_range_eq.
    destruct (as_int year) as [y|]; [|discriminate].
    destruct (year_range_spec _) as [[lo|] [hi|]]; cbn [fst snd] in Y; try discriminate.
    exists y, lo, hi. repeat split.
    apply andb_true_iff in Y as [_ Y]. apply negb_true_iff in Y.
    intros [L U]. apply Z.leb_le in L, U. rewrite L, U in Y. discriminate.
  - intros E H. destruct (brand_differs brand r).
    + destruct (proj1 B eq_refl) as (_ & X & _). contradiction.
    + destruct (model_differs model r); [discriminate|].
      destruct (year_differs year r); [discriminate|]. now apply R1 in H.
  - intros E H. destruct (brand_differs brand r); [discriminate|].
    destruct (model_differs model r).
    + destruct (proj1 M eq_refl) as (_ & X & _). contradiction.
    + destruct (year_differs year r); [discriminate|]. now apply R2 in H.
  - vm_compute. reflexivity.
  - vm_compute. reflexivity.
Qed.

(** C3, as the code has it.  For a listing whose brand and model are
    strings or absent and a table whose rows have their text and topic
    cells, the matcher returns: the chunks of the matching rows that have
    text, or, when there is none, the chunks of all rows that have text,
    in table order and cut to the first eight.  The result is empty
    exactly when no row of the table has text. *)
Theorem matcher_fallback_and_cap :
  forall (kb : list row) (listing : dict),
    listing_typed listing = true ->
    forallb row_complete kb = true ->
    load_kb_for_listing kb listing = Ok (matcher_spec kb listing)
    /\ List.length (matcher_spec kb listing) <= 8
    /\ (matcher_spec kb listing = [] <-> forallb (fun r => negb (has_text r)) kb = true).
Proof.
  intros kb listing T C. split; [now apply load_kb_eq|].
  split; [apply matcher_spec_length|].
  rewrite matcher_spec_nil. apply chunks_of_nil.
Qed.

(** A table of eleven rows, ten of which match the listing: eight chunks
    are returned. *)
Lemma matcher_fallback_and_cap_witness :
  load_kb_for_listing (ROW_BMW :: repeat ROW_GOLF7 10) LISTING_GOLF
  = Ok (matcher_spec (ROW_BMW :: repeat ROW_GOLF7 10) LISTING_GOLF)
  /\ List.length (matcher_spec (ROW_BMW :: repeat ROW_GOLF7 10) LISTING_GOLF) <= 8
  /\ (matcher_spec (ROW_BMW :: repeat ROW_GOLF7 10) LISTING_GOLF = []
      <-> forallb (fun r => negb (has_text r)) (ROW_BMW :: repeat ROW_GOLF7 10) = true).
Proof. apply matcher_fallback_and_cap; reflexivity. Defined.

(** C3, as stated, fails: a listing that matches no row of a table whose
    only row has a blank text gets the empty sequence, not a non-empty
    fallback; and the matcher raises on a listing whose brand is a number
    and on a line of the table that is shorter than the header. *)
Lemma matcher_empty_fallback :
  load_kb_for_listing [ROW_BLANK] LISTING_BMW = Ok []
  /\ match_row (lit "bmw") [] JNull ROW_BLANK = Ok ExcludedBrand
  /\ load_kb_for_listing [ROW_GOLF7] LISTING_NUMERIC_BRAND = Raise AttributeError
  /\ load_kb_for_listing [ROW_SHORT] LISTING_GOLF = Raise AttributeError.
Proof. repeat split; vm_compute; reflexivity. Qed.




(** C5.  When the reply parses to an object, [advise] returns that object
    filled from the table of defaults: a field of the parsed object keeps
    its value; each of the eight fields of the table that the parsed
    object lacks gets its default; the eight fields are all present; and
    nothing else is added. *)
Theorem advise_defaults :
  forall (json_loads : pystr -> option json)
         (request_content : dict -> list pystr -> result pystr)
         (kb : list row) (listing : dict) (chunks : list pystr) (content : pystr) (d : dict),
    load_kb_for_listing kb listing = Ok chunks ->
    request_content listing chunks = Ok content ->
    _extract_json json_loads content = Ok (JObj d) ->
    exists out,
      advise json_loads request_content kb listing = Ok (JObj out)
      /\ (forall k v, dict_get d k = Some v -> dict_get out k = Some v)
      /\ (forall k v, In (k, v) ADVISORY_DEFAULTS -> dict_get d k = None ->
                      dict_get out k = Some v)
      /\ (forall k, In k (map fst ADVISORY_DEFAULTS) -> dict_get out k <> None)
      /\ (forall k, dict_get out k <> None ->
                    dict_get d k <> None \/ dict_get ADVISORY_DEFAULTS k <> None).
Proof.
  intros json_loads request_content kb listing chunks content d L R E.
  exists (fill ADVISORY_DEFAULTS d). split; [now apply (@advise_eq json_loads request_content kb listing chunks content d)|].
  split; [|split; [|split]].
  - intros k v G. now rewrite fill_get, G.
  - intros k v I G. rewrite fill_get, G. now apply advisory_defaults_get.
  - intros k I. apply in_map_iff in I as [[k' v] [<- I]]. cbn [fst].
    rewrite fill_get. destruct (dict_get d k'); [discriminate|].
    now rewrite (advisory_defaults_get I).
  - intros k. rewrite fill_get. destruct (dict_get d k); [left; discriminate|now right].
Qed.

(** A reply that gives two of the eight fields. *)
Lemma advise_defaults_witness :
  exists out,
    advise Json.loads (fun _ _ => Ok ADVISOR_REPLY) [ROW_GOLF7] LISTING_GOLF = Ok (JObj out)
    /\ (forall k v, dict_get ADVISOR_OBJECT k = Some v -> dict_get out k = Some v)
    /\ (forall k v, In (k, v) ADVISORY_DEFAULTS -> dict_get ADVISOR_OBJECT k = None ->
                    dict_get out k = Some v)
    /\ (forall k, In k (map fst ADVISORY_DEFAULTS) -> dict_get out k <> None)
    /\ (forall k, dict_get out k <> None ->
                  dict_get ADVISOR_OBJECT k <> None \/ dict_get ADVISORY_DEFAULTS k <> None).
Proof.
  apply (@advise_defaults Json.loads (fun _ _ => Ok ADVISOR_REPLY) [ROW_GOLF7] LISTING_GOLF
           [CHUNK_GOLF7] ADVISOR_REPLY ADVISOR_OBJECT).
  - vm_compute. reflexivity.
  - reflexivity.
  - vm_compute. reflexivity.
Defined.

(** C6: the code breaks the claim on a float without an integer value,
    and only there.  [_coerce_number] raises exactly on an infinite or NaN
    float; [json.loads] reads [1e999] as infinity, [_coerce_number] then
    raises [OverflowError] (and [ValueError] on a NaN), and so does
    [extract_listing]. *)
Theorem coerce_number_raises_on_non_finite :
  (forall py_repr x, raises (_coerce_number py_repr x) = non_finite x)
  /\ (forall py_repr s,
      _coerce_number py_repr (JFloat (S754_infinity s))
      = Raise (OverflowError (lit "cannot convert float infinity to integer")))
  /\ (forall py_repr,
      _coerce_number py_repr (JFloat S754_nan)
      = Raise (ValueError (lit "cannot convert float NaN to integer")))
  /\ Json.loads (jlit "{'price_eur': 1e999}")
     = Some (JObj [(lit "price_eur", JFloat (S754_infinity false))])
  /\ extract_listing Json.loads NO_REPR (fun _ => Ok (jlit "{'price_eur': 1e999}")) CLOCK AD_TEXT
     = Raise (OverflowError (lit "cannot convert float infinity to integer")).
Proof.
  split.
  - intros py_repr x. destruct (non_finite x) eqn:N.
    + destruct x as [| | |f| | |]; try discriminate. now destruct f.
    + now destruct (coerce_number_returns py_repr x N) as [v ->].
  - repeat split; vm_compute; reflexivity.
Qed.

(** C7, as the code has it.  In the record [extract_listing] returns,
    each of year, mileage_km and price_eur is an integer or [None], never
    a string; it is below zero only when the reply gave a number below
    zero for it.  The call returns whenever none of the three values of
    the reply is an infinite or NaN float. *)
Theorem listing_numeric_fields :
  forall (json_loads : pystr -> option json) (py_repr : json -> pystr)
         (request_content : pystr -> result pystr) (utcnow ad_text content : pystr)
         (data : dict),
    request_content ad_text = Ok content ->
    _extract_json json_loads content = Ok (JObj data) ->
    (forall out,
        extract_listing json_loads py_repr request_content utcnow ad_text = Ok out ->
        forall k, In k NUMERIC_FIELDS ->
          exists v, dict_get out k = Some v
                    /\ int_or_absent v = true
                    /\ (natural_or_absent v = false -> negative_number (get data k) = true))
    /\ (forallb (fun k => negb (non_finite (get data k))) NUMERIC_FIELDS = true ->
        exists out, extract_listing json_loads py_repr request_content utcnow ad_text = Ok out).
Proof.
  intros json_loads py_repr request_content utcnow ad_text content data R E. split.
  - intros out H k I.
    apply extract_listing_inv in H as (c' & d' & y & m & p & R' & E' & Y & M & P & ->).
    rewrite R in R'. injection R' as <-. rewrite E in E'. injection E' as <-.
    destruct I as [<-|[<-|[<-|[]]]].
    + exists y. split; [reflexivity|]. exact (@coerce_number_value py_repr _ _ Y).
    + exists m. split; [reflexivity|]. exact (@coerce_number_value py_repr _ _ M).
    + exists p. split; [reflexivity|]. exact (@coerce_number_value py_repr _ _ P).
  - unfold NUMERIC_FIELDS. cbn [forallb]. rewrite !andb_true_iff, !negb_true_iff.
    intros (Y & M & P & _).
    now apply (@extract_listing_returns json_loads py_repr request_content utcnow ad_text content data).
Qed.

(** A reply with a textual year, a textual mileage and a negative price. *)
Lemma listing_numeric_fields_witness :
  (forall out,
      extract_listing Json.loads NO_REPR (fun _ => Ok EXTRACTOR_REPLY) CLOCK AD_TEXT = Ok out ->
      forall k, In k NUMERIC_FIELDS ->
        exists v, dict_get out k = Some v
                  /\ int_or_absent v = true
                  /\ (natural_or_absent v = false ->
                      negative_number (get EXTRACTOR_OBJECT k) = true))
  /\ (forallb (fun k => negb (non_finite (get EXTRACTOR_OBJECT k))) NUMERIC_FIELDS = true ->
      exists out,
        extract_listing Json.loads NO_REPR (fun _ => Ok EXTRACTOR_REPLY) CLOCK AD_TEXT = Ok out).
Proof.
  apply (@listing_numeric_fields Json.loads NO_REPR (fun _ => Ok EXTRACTOR_REPLY) CLOCK AD_TEXT
           EXTRACTOR_REPLY EXTRACTOR_OBJECT).
  - reflexivity.
  - vm_compute. reflexivity.
Defined.

(** C7, as stated, fails: a reply that gives the year -5 yields a record
    whose year is -5, an integer below zero. *)
Lemma listing_negative_year :
  field (extract_listing Json.loads NO_REPR (fun _ => Ok (jlit "{'year': -5}")) CLOCK AD_TEXT)
        (lit "year") = Some (JInt (-5))
  /\ natural_or_absent (JInt (-5)) = false.
Proof. split; vm_compute; reflexivity. Qed.





(** C10.  A row without text is rendered on neither path: the turn of the
    first loop and the turn of the fallback loop give no chunk for it.
    Every chunk the matcher returns is the chunk of a row of the table
    that has text; so a table without any text gives the empty sequence,
    and a non-empty result needs a row with text. *)
Theorem blank_rows_never_rendered :
  forall (kb : list row) (listing : dict),
    (forall brand model year r c,
        has_text r = false ->
        match_row brand model year r <> Ok (Chunk c) /\ render_row r <> Ok (Chunk c))
    /\ (forall chunks,
          load_kb_for_listing kb listing = Ok chunks ->
          forall c, In c chunks ->
            exists r, In r kb /\ has_text r = true /\ c = row_chunk r)
    /\ (listing_typed listing = true ->
        forallb row_complete kb = true ->
        forallb (fun r => negb (has_text r)) kb = true ->
        load_kb_for_listing kb listing = Ok [])
    /\ (forall chunks,
          load_kb_for_listing kb listing = Ok chunks ->
          forallb (fun r => negb (has_text r)) kb = true -> chunks = [])
    /\ (forall chunks,
          load_kb_for_listing kb listing = Ok chunks ->
          chunks <> [] -> exists r, In r kb /\ has_text r = true)
    /\ load_kb_for_listing [ROW_BLANK; ROW_GOLF7] LISTING_BMW = Ok [CHUNK_GOLF7]
    /\ load_kb_for_listing [ROW_BLANK; ROW_GOLF7] LISTING_GOLF = Ok [CHUNK_GOLF7]
    /\ load_kb_for_listing [ROW_BLANK; ROW_BLANK] LISTING_GOLF = Ok [].
Proof.
  intros kb listing.
  assert (P : forall chunks, load_kb_for_listing kb listing = Ok chunks ->
              forallb (fun r => negb (has_text r)) kb = true -> chunks = []).
  { intros chunks L B. destruct chunks as [|c chunks]; [reflexivity|].
    destruct (@load_kb_chunks kb listing _ L c (or_introl eq_refl)) as (r & I & T & _).
    rewrite forallb_forall in B. apply B in I. rewrite T in I. discriminate. }
  split; [|split; [|split; [|split; [|split]]]].
  - intros brand model year r c T.
    assert (R : render_row r <> Ok (Chunk c)).
    { intro H. apply render_row_chunk in H as [H _]. congruence. }
    split; [|exact R]. rewrite match_row_eq.
    destruct (brand_differs brand r); [discriminate|].
    destruct (model_differs model r); [discriminate|].
    destruct (year_differs year r); [discriminate|exact R].
  - apply load_kb_chunks.
  - intros T C B. rewrite (@load_kb_eq kb listing T C). f_equal.
    apply matcher_spec_nil. now apply chunks_of_nil.
  - exact P.
  - intros chunks L N. destruct chunks as [|c chunks]; [contradiction|].
    destruct (@load_kb_chunks kb listing _ L c (or_introl eq_refl)) as (r & I & T & _).
    now exists r.
  - repeat split; vm_compute; reflexivity.
Qed.

(* ================================================================= *)
(** ** Beyond the claims *)


(** X2.  The year test of the matching loop reads a bound of zero as no
    bound: a row whose range starts or ends at year zero is never excluded
    on its year. *)
Theorem year_zero_bound_ignored :
  (forall year hi, year_excluded year (Some 0%Z) hi = false)
  /\ (forall year lo, year_excluded year lo (Some 0%Z) = false)
  /\ _parse_year_range (row_get_or_empty ROW_YEAR_ZERO (lit "year_range"))
     = Ok (Some 0%Z, Some 2010%Z)
  /\ match_row (lit "vw") (lit "golf") (JInt 2016) ROW_YEAR_ZERO
     = Ok (Chunk (row_chunk ROW_YEAR_ZERO)).
Proof.
  split; [|split; [|split; vm_compute; reflexivity]].
  - intros year hi. unfold year_excluded. destruct (as_int year); [|reflexivity].
    now destruct hi.
  - intros year lo. unfold year_excluded. destruct (as_int year); [|reflexivity].
    destruct lo; [|reflexivity]. cbn. now rewrite andb_false_r.
Qed.

(** ** Trimming and case *)






Lemma drop_while_app_all (p : char -> bool) (a b : pystr) :
  forallb p a = true -> drop_while p (a ++ b) = drop_while p b.
Proof.
  induction a as [|c a IH]; cbn [forallb app drop_while]; [reflexivity|].
  intro H. apply andb_true_iff in H as [Hc H]. rewrite Hc. now apply IH.
Qed.

Lemma drop_while_app_stop (p : char -> bool) (a b : pystr) :
  drop_while p a <> [] -> drop_while p (a ++ b) = drop_while p a ++ b.
Proof.
  induction a as [|c a IH]; cbn [app drop_while]; [contradiction|].
  destruct (p c); [exact IH | reflexivity].
Qed.

Lemma drop_while_nil_all (p : char -> bool) (a : pystr) :
  drop_while p a = [] -> forallb p a = true.
Proof.
  induction a as [|c a IH]; cbn [drop_while forallb]; [reflexivity|].
  destruct (p c); [exact IH | discriminate].
Qed.

Lemma forallb_rev (p : char -> bool) (a : pystr) : forallb p (rev a) = forallb p a.
Proof.
  destruct (forallb p a) eqn:E.
  - rewrite forallb_forall in *. intros x Hx. apply E. now apply in_rev.
  - destruct (forallb p (rev a)) eqn:F; [|reflexivity].
    rewrite forallb_forall in F. rewrite <- E. symmetry. apply forallb_forall.
    intros x Hx. apply F. now apply in_rev in Hx.
Qed.

(** White space around a text does not change what [strip] gives. *)
Lemma strip_spaces (a t b : pystr) :
  forallb is_space a = true -> forallb is_space b = true ->
  strip (a ++ t ++ b) = strip t.
Proof.
  intros A B. unfold strip, lstrip. rewrite drop_while_app_all by exact A.
  destruct (drop_while is_space t) as [|c u] eqn:E.
  - apply drop_while_nil_all in E.
    rewrite drop_while_app_all by exact E.
    unfold rstrip. cbn [rev drop_while].
    rewrite <- (app_nil_r (rev (drop_while is_space b))).
    destruct (drop_while_split is_space b) as [pre [Eb Fb]].
    assert (X : drop_while is_space (rev (drop_while is_space b)) = []).
    { assert (Y : forallb is_space (drop_while is_space b) = true).
      { rewrite forallb_forall in *. intros x Hx. apply B. rewrite Eb.
        apply in_or_app. now right. }
      rewrite <- (app_nil_r (rev _)). rewrite drop_while_app_all; [reflexivity|].
      now rewrite forallb_rev. }
    rewrite app_nil_r. now rewrite X.
  - rewrite drop_while_app_stop by (rewrite E; discriminate). rewrite E.
    unfold rstrip. f_equal. rewrite rev_app_distr.
    apply drop_while_app_all. now rewrite forallb_rev.
Qed.

Lemma strip_idem (s : pystr) : strip (strip s) = strip s.
Proof.
  unfold strip at 2. unfold lstrip, rstrip.
  destruct (drop_while_split is_space s) as [a [Ea Fa]].
  destruct (drop_while_split is_space (rev (drop_while is_space s))) as [b [Eb Fb]].
  set (core := rev (drop_while is_space (rev (drop_while is_space s)))).
  assert (E : s = a ++ core ++ rev b).
  { rewrite Ea at 1. f_equal. unfold core.
    rewrite <- (rev_involutive (drop_while is_space s)) at 1. rewrite Eb at 1.
    now rewrite rev_app_distr. }
  assert (Fb' : forallb is_space (rev b) = true) by now rewrite forallb_rev.
  pose proof (strip_spaces a core (rev b) Fa Fb') as X. rewrite <- E in X.
  (* strip s = strip core, and strip s = core *)
  assert (C : strip s = core) by reflexivity.
  rewrite <- C at 1. rewrite C. now rewrite <- X.
Qed.

(** ** The matcher, whatever the listing and the table *)

Lemma normalize_cases (v : json) :
  _normalize v = Ok (norm_text v) \/ _normalize v = Raise AttributeError.
Proof.
  destruct v as [|b|n|f|s|l|d]; unfold _normalize, py_or; cbn [truthy norm_text].
  - now left.
  - destruct b; [now right | now left].
  - destruct (Z.eqb n 0); [now left | now right].
  - destruct f; (now left) || (now right).
  - destruct s; now left.
  - destruct l; [now left | now right].
  - destruct d; [now left | now right].
Qed.

Lemma render_row_cases (r : row) :
  render_row r = Ok (if has_text r then Chunk (row_chunk r) else NoText)
  \/ render_row r = Raise AttributeError.
Proof.
  unfold render_row, has_text, row_chunk, row_text, row_topic.
  destruct (row_get_or_empty r (lit "text")) as [txt|]; [|now right].
  destruct (row_get_or_empty r (lit "topic")) as [topic|]; [|now right].
  left. cbn [cell_strip bind cell_text]. now destruct (strip txt).
Qed.

Lemma scan_render_cases (kb : list row) (acc : list pystr) :
  scan render_row kb acc = Ok (acc ++ chunks_of kb)
  \/ scan render_row kb acc = Raise AttributeError.
Proof.
  revert acc; induction kb as [|r kb IH]; intros acc; cbn [scan].
  - left. now rewrite app_nil_r.
  - destruct (render_row_cases r) as [-> | ->]; cbn [bind]; [|now right].
    unfold chunks_of. cbn [filter]. destruct (has_text r).
    + destruct (IH (acc ++ [row_chunk r])) as [-> | ->]; [left|now right].
      unfold chunks_of. cbn [map]. now rewrite <- app_assoc.
    + exact (IH acc).
Qed.

Lemma scan_match_cases (brand model : pystr) (year : json) (kb : list row) (acc : list pystr) :
  scan (match_row brand model year) kb acc
  = Ok (acc ++ chunks_of (filter (row_matches brand model year) kb))
  \/ scan (match_row brand model year) kb acc = Raise AttributeError.
Proof.
  revert acc; induction kb as [|r kb IH]; intros acc; cbn [scan].
  - left. now rewrite app_nil_r.
  - rewrite match_row_eq. cbn [filter].
    assert (M : row_matches brand model year r =
                negb (brand_differs brand r || model_differs model r || year_differs year r))
      by reflexivity.
    rewrite M. clear M.
    destruct (brand_differs brand r); cbn [bind orb negb]; [exact (IH acc)|].
    destruct (model_differs model r); cbn [bind orb negb]; [exact (IH acc)|].
    destruct (year_differs year r); cbn [bind orb negb]; [exact (IH acc)|].
    destruct (render_row_cases r) as [-> | ->]; cbn [bind]; [|now right].
    unfold chunks_of. cbn [filter]. destruct (has_text r).
    + destruct (IH (acc ++ [row_chunk r])) as [-> | ->]; [left|now right].
      unfold chunks_of. cbn [map]. now rewrite <- app_assoc.
    + exact (IH acc).
Qed.

Lemma load_kb_cases (kb : list row) (listing : dict) :
  load_kb_for_listing kb listing = Ok (matcher_spec kb listing)
  \/ load_kb_for_listing kb listing = Raise AttributeError.
Proof.
  unfold load_kb_for_listing, matcher_spec.
  destruct (normalize_cases (get listing (lit "brand"))) as [-> | ->]; cbn [bind]; [|now right].
  destruct (normalize_cases (get listing (lit "model"))) as [-> | ->]; cbn [bind]; [|now right].
  destruct (scan_match_cases (norm_text (get listing (lit "brand")))
              (norm_text (get listing (lit "model"))) (get listing (lit "year")) kb [])
    as [-> | ->]; cbn [bind app]; [|now right].
  destruct (chunks_of (filter _ kb)); cbn [bind]; [|now left].
  destruct (scan_render_cases kb []) as [-> | ->]; cbn [bind app]; [now left | now right].
Qed.

Lemma subsequence_trans (A : Type) (a b c : list A) :
  subsequence a b -> subsequence b c -> subsequence a c.
Proof.
  intros H1 H2. revert a H1. induction H2 as [l|x s l H IH|x s l H IH]; intros a H1.
  - inversion H1. constructor.
  - inversion H1; subst; constructor; auto.
  - constructor. auto.
Qed.

Lemma subsequence_firstn (A : Type) (n : nat) (l : list A) : subsequence (firstn n l) l.
Proof.
  revert n; induction l as [|x l IH]; intros [|n]; cbn; constructor. apply IH.
Qed.

Lemma subsequence_filter (A : Type) (f : A -> bool) (l : list A) : subsequence (filter f l) l.
Proof.
  induction l as [|x l IH]; cbn; [constructor|]. destruct (f x); constructor; exact IH.
Qed.

Lemma subsequence_map (A B : Type) (f : A -> B) (s l : list A) :
  subsequence s l -> subsequence (map f s) (map f l).
Proof. induction 1; cbn; constructor; assumption. Qed.

Lemma filter_filter_comm (A : Type) (f g : A -> bool) (l : list A) :
  filter f (filter g l) = filter g (filter f l).
Proof.
  induction l as [|x l IH]; [reflexivity|]. cbn [filter].
  destruct (f x) eqn:F, (g x) eqn:G; cbn [filter]; rewrite ?F, ?G, IH; reflexivity.
Qed.

Lemma matcher_spec_subsequence (kb : list row) (listing : dict) :
  subsequence (matcher_spec kb listing) (chunks_of kb).
Proof.
  unfold matcher_spec.
  destruct (chunks_of (filter _ kb)) eqn:E.
  - apply subsequence_firstn.
  - rewrite <- E. eapply subsequence_trans; [apply subsequence_firstn|].
    unfold chunks_of. rewrite filter_filter_comm. apply subsequence_map, subsequence_filter.
Qed.

(** ** Normalisation *)


(** ** Recovery of an object inside prose *)

Lemma find_one_app (c : char) (pre rest : pystr) :
  ~ In c pre -> find [c] (pre ++ c :: rest) = Some (List.length pre).
Proof.
  induction pre as [|x pre IH]; intro N; cbn [app find List.length].
  - cbn. now rewrite N.eqb_refl.
  - assert (X : starts_with [c] (x :: pre ++ c :: rest) = false).
    { cbn. rewrite andb_true_r. apply N.eqb_neq. intro E. apply N. now left. }
    rewrite X, IH; [reflexivity|]. intro H. apply N. now right.
Qed.

Lemma rfind_one_absent (c : char) (s : pystr) : ~ In c s -> rfind [c] s = None.
Proof.
  induction s as [|x s IH]; intro N; cbn [rfind]; [reflexivity|].
  rewrite IH by (intro H; apply N; now right).
  cbn. rewrite andb_true_r.
  replace (N.eqb c x) with false; [reflexivity|].
  symmetry. apply N.eqb_neq. intro E. apply N. now left.
Qed.

Lemma rfind_one_app (c : char) (pre post : pystr) :
  ~ In c post -> rfind [c] (pre ++ c :: post) = Some (List.length pre).
Proof.
  intro N. induction pre as [|x pre IH]; cbn [app rfind List.length].
  - rewrite (@rfind_one_absent c post N). cbn. now rewrite N.eqb_refl.
  - now rewrite IH.
Qed.

Lemma brace_span_intro (pre mid post : pystr) :
  ~ In LBRACE pre -> ~ In RBRACE post ->
  brace_span (pre ++ (LBRACE :: mid ++ [RBRACE]) ++ post) = Some (LBRACE :: mid ++ [RBRACE]).
Proof.
  intros N1 N2. unfold brace_span.
  assert (F : find [LBRACE] (pre ++ (LBRACE :: mid ++ [RBRACE]) ++ post)
              = Some (List.length pre)).
  { cbn [app]. now apply find_one_app. }
  assert (R : rfind [RBRACE] (pre ++ (LBRACE :: mid ++ [RBRACE]) ++ post)
              = Some (List.length (pre ++ LBRACE :: mid))).
  { replace (pre ++ (LBRACE :: mid ++ [RBRACE]) ++ post)
      with ((pre ++ LBRACE :: mid) ++ RBRACE :: post).
    - now apply rfind_one_app.
    - cbn [app]. repeat (rewrite <- app_assoc; cbn [app]). reflexivity. }
  rewrite F, R. rewrite length_app. cbn [List.length].
  replace (Nat.ltb (List.length pre) (List.length pre + S (List.length mid))) with true
    by (symmetry; apply Nat.ltb_lt; lia).
  f_equal. unfold slice. rewrite skipn_app, skipn_all, Nat.sub_diag. cbn [skipn app].
  replace (S (List.length pre + S (List.length mid)) - List.length pre)
    with (S (List.length (mid ++ [RBRACE]))) by (rewrite length_app; cbn [List.length]; lia).
  cbn [firstn]. f_equal. rewrite <- app_assoc.
  rewrite app_assoc.
  rewrite firstn_app, firstn_all, Nat.sub_diag. cbn [firstn]. now rewrite app_nil_r.
Qed.

(** ** The order of a filled dictionary *)

Lemma dict_set_absent (d : dict) (k : pystr) (v : json) :
  dict_get d k = None -> dict_set d k v = d ++ [(k, v)].
Proof.
  induction d as [|[k0 v0] d IH]; cbn [dict_get dict_set app]; [reflexivity|].
  destruct (str_eqb k0 k); [discriminate|]. intro H. now rewrite IH.
Qed.

Lemma dict_get_app (d e : dict) (k : pystr) :
  dict_get (d ++ e) k = match dict_get d k with Some v => Some v | None => dict_get e k end.
Proof.
  induction d as [|[k0 v0] d IH]; cbn [app dict_get]; [reflexivity|].
  now destruct (str_eqb k0 k).
Qed.

Lemma fill_order (defaults : list (pystr * json)) (d : dict) :
  keys_distinct defaults = true ->
  fill defaults d = d ++ filter (fun kv => negb (has_key d (fst kv))) defaults.
Proof.
  unfold fill. revert d; induction defaults as [|[k v] defaults IH]; intros d H;
    cbn [fold_left filter fst snd].
  - now rewrite app_nil_r.
  - cbn [keys_distinct] in H. apply andb_true_iff in H as [Hk H].
    apply negb_true_iff in Hk. rewrite (IH _ H). unfold setdefault, has_key at 2.
    destruct (dict_get d k) eqn:G; cbn [negb]; [reflexivity|].
    rewrite (@dict_set_absent d k v G), <- app_assoc. cbn [app]. f_equal. f_equal.
    apply filter_ext_in. intros [k' v'] I. cbn [fst]. unfold has_key.
    rewrite dict_get_app. destruct (dict_get d k'); [reflexivity|].
    cbn [dict_get]. destruct (str_eqb k k') eqn:E; [|reflexivity].
    apply str_eqb_eq in E. subst k'. exfalso.
    unfold has_key in Hk. clear - I Hk. induction defaults as [|[k0 v0] defaults IHd];
      [contradiction|]. cbn [dict_get] in Hk. destruct I as [I|I].
    + injection I as -> _. now rewrite str_eqb_refl in Hk.
    + destruct (str_eqb k0 k); [discriminate|]. now apply IHd.
Qed.

(** ** More on the matcher *)

Lemma load_kb_ext (kb : list row) (l1 l2 : dict) :
  _normalize (get l1 (lit "brand")) = _normalize (get l2 (lit "brand")) ->
  _normalize (get l1 (lit "model")) = _normalize (get l2 (lit "model")) ->
  get l1 (lit "year") = get l2 (lit "year") ->
  load_kb_for_listing kb l1 = load_kb_for_listing kb l2.
Proof. intros B M Y. unfold load_kb_for_listing. now rewrite B, M, Y. Qed.


Lemma get_set_other (d : dict) (k k' : pystr) (v : json) :
  str_eqb k k' = false -> get (dict_set d k v) k' = get d k'.
Proof. intros N. unfold get. now rewrite dict_get_set_other. Qed.


(** X3.  [load_kb_for_listing], whatever the listing and the table.  It
    returns the chunks of the matcher or raises [AttributeError], and no
    other exception: the integers of a year range always parse.  What it
    returns has at most eight chunks, which are chunks of rows of the
    table that have text, in the order of the table and none repeated
    beyond the table.  It raises only on a listing whose brand or model
    is neither a string nor [None], or on a table with a line shorter than
    its header. *)
Theorem load_kb_outcomes :
  forall (kb : list row) (listing : dict),
    (load_kb_for_listing kb listing = Ok (matcher_spec kb listing)
     \/ load_kb_for_listing kb listing = Raise AttributeError)
    /\ (forall chunks, load_kb_for_listing kb listing = Ok chunks ->
          List.length chunks <= 8 /\ subsequence chunks (chunks_of kb))
    /\ (forall e, load_kb_for_listing kb listing = Raise e ->
          e = AttributeError
          /\ (listing_typed listing = false \/ forallb row_complete kb = false)).
Proof.
  intros kb listing. split; [apply load_kb_cases|]. split.
  - intros chunks L. destruct (load_kb_cases kb listing) as [E | E];
      rewrite E in L; [|discriminate].
    injection L as <-. split; [apply matcher_spec_length | apply matcher_spec_subsequence].
  - intros e L. split.
    + destruct (load_kb_cases kb listing) as [E | E]; rewrite E in L;
        [discriminate | now injection L as <-].
    + destruct (listing_typed listing) eqn:T; [|now left].
      destruct (forallb row_complete kb) eqn:C; [|now right].
      rewrite (@load_kb_eq kb listing T C) in L. discriminate.
Qed.



(** ** More on trimming and on the recovery of a JSON value *)

Lemma substring_refl (s : pystr) : substring_of s s.
Proof. exists [], []. now rewrite app_nil_r. Qed.

Lemma substring_trans (a b c : pystr) :
  substring_of a b -> substring_of b c -> substring_of a c.
Proof.
  intros (p1 & q1 & ->) (p2 & q2 & ->). exists (p2 ++ p1), (q1 ++ q2).
  now rewrite <- !app_assoc.
Qed.

Lemma rstrip_split (s : pystr) :
  exists post, s = rstrip s ++ post /\ forallb is_space post = true.
Proof.
  unfold rstrip. destruct (drop_while_split is_space (rev s)) as (pre & E & F).
  exists (rev pre). split; [|now rewrite forallb_rev].
  rewrite <- rev_app_distr, <- E. now rewrite rev_involutive.
Qed.

Lemma strip_split (s : pystr) :
  exists pre post, s = pre ++ strip s ++ post
                   /\ forallb is_space pre = true /\ forallb is_space post = true.
Proof.
  destruct (drop_while_split is_space s) as (pre & E & F).
  destruct (rstrip_split (lstrip s)) as (post & E' & F').
  exists pre, post. split; [|now split].
  unfold strip. rewrite <- E'. exact E.
Qed.

Lemma strip_substring (s : pystr) : substring_of (strip s) s.
Proof. destruct (strip_split s) as (pre & post & E & _). now exists pre, post. Qed.

Lemma unwrap_fence_substring (t : pystr) : substring_of (unwrap_fence t) t.
Proof.
  unfold unwrap_fence. destruct (fenced_payload t) as [p|] eqn:E; [|apply substring_refl].
  apply fenced_payload_split in E as (tag & ws & rest & E & _).
  apply substring_trans with (b := p); [apply strip_substring|].
  exists (FENCE_MARK ++ tag ++ ws), (FENCE_MARK ++ rest).
  rewrite E. now rewrite <- !app_assoc.
Qed.

(** A text between two characters that are no white space is trimmed
    before the first and after the second only. *)
Lemma strip_around (pre mid post : pystr) (x y : char) :
  is_space x = false -> is_space y = false ->
  strip (pre ++ x :: mid ++ y :: post) = lstrip pre ++ x :: mid ++ y :: rstrip post.
Proof.
  intros X Y. unfold strip.
  assert (L : lstrip (pre ++ x :: mid ++ y :: post) = lstrip pre ++ x :: mid ++ y :: post).
  { unfold lstrip. destruct (drop_while is_space pre) as [|c u] eqn:E.
    - apply drop_while_nil_all in E. rewrite drop_while_app_all by exact E.
      cbn [drop_while]. now rewrite X.
    - rewrite drop_while_app_stop by (rewrite E; discriminate). now rewrite E. }
  rewrite L. unfold rstrip.
  replace (lstrip pre ++ x :: mid ++ y :: post)
    with ((lstrip pre ++ x :: mid) ++ y :: post) by now rewrite <- app_assoc.
  rewrite rev_app_distr. cbn [rev]. rewrite <- app_assoc. cbn [app].
  destruct (drop_while is_space (rev post)) as [|c u] eqn:E.
  - apply drop_while_nil_all in E. rewrite drop_while_app_all by exact E.
    cbn [drop_while]. rewrite Y. cbn [rev]. rewrite rev_involutive.
    now rewrite <- app_assoc.
  - rewrite drop_while_app_stop by (rewrite E; discriminate). rewrite E.
    rewrite rev_app_distr. cbn [rev]. rewrite rev_involutive.
    now rewrite <- !app_assoc.
Qed.

Lemma in_drop_while (p : char -> bool) (s : pystr) (c : char) :
  In c (drop_while p s) -> In c s.
Proof.
  destruct (drop_while_split p s) as (pre & E & _). intro H. rewrite E.
  apply in_or_app. now right.
Qed.

Lemma in_rstrip (s : pystr) (c : char) : In c (rstrip s) -> In c s.
Proof.
  unfold rstrip. intro H. apply in_rev in H. apply in_drop_while in H.
  now apply in_rev.
Qed.

Lemma fenced_payload_head (t : pystr) :
  match t with c :: _ => N.eqb BACKTICK c = false | [] => True end ->
  fenced_payload t = None.
Proof.
  destruct t as [|c t]; [reflexivity|]. intro H. unfold fenced_payload, strip_prefix.
  cbn [FENCE_MARK starts_with]. now rewrite H.
Qed.

Lemma rfind_fence_end (q : pystr) :
  ~ In BACKTICK q -> rfind FENCE_MARK (q ++ FENCE_MARK) = Some (List.length q).
Proof.
  induction q as [|c q IH]; intro H; [reflexivity|].
  cbn [app rfind List.length]. rewrite IH; [reflexivity|].
  intro I. apply H. now right.
Qed.

Lemma strip_prefix_app (pat s : pystr) : strip_prefix pat (pat ++ s) = Some s.
Proof.
  unfold strip_prefix.
  assert (H : starts_with pat (pat ++ s) = true) by (apply starts_with_app; now exists s).
  rewrite H. now rewrite skipn_app, skipn_all, Nat.sub_diag.
Qed.

(** The payload of a block without a backtick inside. *)
Lemma fenced_payload_block (body p : pystr) (ws : pystr) :
  forallb is_space ws = true -> ~ In BACKTICK p ->
  match strip_prefix (lit "json") (body ++ FENCE_MARK) with
  | Some b => b
  | None => body ++ FENCE_MARK
  end = ws ++ p ++ FENCE_MARK ->
  fenced_payload (FENCE_MARK ++ body ++ FENCE_MARK) = Some (lstrip p).
Proof.
  intros W P B. unfold fenced_payload. rewrite strip_prefix_app. rewrite B.
  assert (L : lstrip (ws ++ p ++ FENCE_MARK) = lstrip p ++ FENCE_MARK).
  { unfold lstrip. rewrite drop_while_app_all by exact W.
    destruct (drop_while is_space p) as [|c u] eqn:E.
    - apply drop_while_nil_all in E. now rewrite drop_while_app_all by exact E.
    - rewrite drop_while_app_stop by (rewrite E; discriminate). now rewrite E. }
  rewrite L. rewrite rfind_fence_end.
  - now rewrite firstn_app, firstn_all, Nat.sub_diag, app_nil_r.
  - intro I. apply P. now apply in_drop_while in I.
Qed.

Lemma strip_lstrip (p : pystr) : strip (lstrip p) = strip p.
Proof.
  unfold strip. f_equal. unfold lstrip. apply drop_while_idem.
Qed.

Lemma strip_fenced (body : pystr) :
  strip (FENCE_MARK ++ body ++ FENCE_MARK) = FENCE_MARK ++ body ++ FENCE_MARK.
Proof.
  assert (E : FENCE_MARK ++ body ++ FENCE_MARK
              = [] ++ BACKTICK :: ([BACKTICK; BACKTICK] ++ body ++ [BACKTICK; BACKTICK])
                   ++ BACKTICK :: []).
  { cbn [FENCE_MARK app]. do 3 f_equal. now rewrite <- app_assoc. }
  rewrite E. now rewrite strip_around by reflexivity.
Qed.

Lemma unwrap_fence_plain (t : pystr) :
  ~ In BACKTICK t -> unwrap_fence t = t.
Proof.
  intro H. unfold unwrap_fence. rewrite fenced_payload_head; [reflexivity|].
  destruct t as [|c t]; [exact I|]. apply N.eqb_neq. intros <-. apply H. now left.
Qed.

Lemma in_strip (s : pystr) (c : char) : In c (strip s) -> In c s.
Proof. unfold strip, lstrip. intro H. apply in_rstrip in H. now apply in_drop_while in H. Qed.

Lemma neqb_not_in (c : char) (s : pystr) :
  forallb (fun x => negb (N.eqb c x)) s = true -> ~ In c s.
Proof.
  intros H I. rewrite forallb_forall in H. apply H in I.
  now rewrite N.eqb_refl in I.
Qed.

Lemma extract_spec_block (json_loads : pystr -> option json) (body ws p : pystr) :
  forallb is_space ws = true -> ~ In BACKTICK p ->
  match strip_prefix (lit "json") (body ++ FENCE_MARK) with
  | Some b => b
  | None => body ++ FENCE_MARK
  end = ws ++ p ++ FENCE_MARK ->
  extract_spec json_loads (FENCE_MARK ++ body ++ FENCE_MARK) = extract_spec json_loads p.
Proof.
  intros W P B. unfold extract_spec. rewrite strip_fenced.
  assert (U : unwrap_fence (FENCE_MARK ++ body ++ FENCE_MARK) = strip p).
  { unfold unwrap_fence. rewrite (@fenced_payload_block body p ws W P B).
    apply strip_lstrip. }
  rewrite U. rewrite unwrap_fence_plain; [reflexivity|].
  intro I. apply P. now apply in_strip in I.
Qed.

(** X5.  What surrounds a reply does not change its reading.  White space
    before and after the text is ignored by [_extract_json]; a text
    without a backtick, put in a fenced block tagged json, or in an
    untagged block that opens with white space, is read as the text
    itself, with the same result and the same error. *)
Theorem extract_json_ignores_wrapping :
  forall (json_loads : pystr -> option json) (a t b ws p : pystr),
    forallb is_space a = true ->
    forallb is_space b = true ->
    forallb is_space ws = true ->
    ~ In BACKTICK p ->
    _extract_json json_loads (a ++ t ++ b) = _extract_json json_loads t
    /\ _extract_json json_loads (FENCE_MARK ++ (lit "json" ++ ws ++ p) ++ FENCE_MARK)
       = _extract_json json_loads p
    /\ (ws <> [] ->
        _extract_json json_loads (FENCE_MARK ++ (ws ++ p) ++ FENCE_MARK)
        = _extract_json json_loads p).
Proof.
  intros json_loads a t b ws p A B W P. split; [|split].
  - unfold _extract_json. now rewrite (@strip_spaces a t b A B).
  - rewrite !extract_json_eq. apply extract_spec_block with (ws := ws); try assumption.
    rewrite <- !app_assoc. now rewrite strip_prefix_app.
  - intros N. rewrite !extract_json_eq. apply extract_spec_block with (ws := ws); try assumption.
    destruct ws as [|c ws]; [contradiction|].
    cbn [forallb] in W. apply andb_true_iff in W as [C _].
    unfold strip_prefix. cbn [app].
    assert (J : starts_with (lit "json") (c :: (ws ++ p) ++ FENCE_MARK) = false).
    { change (lit "json") with (106%N :: lit "son"). cbn [starts_with].
      destruct (N.eqb_spec 106 c) as [<-|]; [discriminate C | reflexivity]. }
    rewrite J. now rewrite <- app_assoc.
Qed.

Lemma extract_json_ignores_wrapping_witness :
  _extract_json Json.loads (NEWLINE ++ jlit "{'a': 1}" ++ lit "  ") = _extract_json Json.loads (jlit "{'a': 1}")
  /\ _extract_json Json.loads (FENCE_MARK ++ (lit "json" ++ NEWLINE ++ jlit "{'a': 1} ") ++ FENCE_MARK)
     = _extract_json Json.loads (jlit "{'a': 1} ")
  /\ (NEWLINE <> [] ->
      _extract_json Json.loads (FENCE_MARK ++ (NEWLINE ++ jlit "{'a': 1} ") ++ FENCE_MARK)
      = _extract_json Json.loads (jlit "{'a': 1} ")).
Proof.
  apply (@extract_json_ignores_wrapping Json.loads NEWLINE (jlit "{'a': 1}") (lit "  ")
           NEWLINE (jlit "{'a': 1} ")); try reflexivity.
  apply neqb_not_in. reflexivity.
Defined.

(** X6.  [_extract_json] makes up nothing: every value it returns is what
    the decoder gives for one contiguous part of the text it was given. *)
Theorem extract_json_value_from_text :
  forall (json_loads : pystr -> option json) (text : pystr) (v : json),
    _extract_json json_loads text = Ok v ->
    exists s, substring_of s text /\ json_loads s = Some v.
Proof.
  intros json_loads text v. rewrite extract_json_eq. unfold extract_spec.
  assert (T : substring_of (unwrap_fence (strip text)) text).
  { eapply substring_trans; [apply unwrap_fence_substring | apply strip_substring]. }
  destruct (json_loads (unwrap_fence (strip text))) as [x|] eqn:D.
  - intros [= <-]. now exists (unwrap_fence (strip text)).
  - destruct (brace_span (unwrap_fence (strip text))) as [span|] eqn:S; [|discriminate].
    destruct (json_loads span) as [x|] eqn:D'; [|discriminate].
    intros [= <-]. exists span. split; [|exact D'].
    apply brace_span_split in S as (pre & mid & post & E & _).
    eapply substring_trans; [|exact T]. now exists pre, post.
Qed.

Lemma extract_json_value_from_text_witness :
  exists s, substring_of s (lit "Sure: " ++ jlit "{'a': 1}" ++ lit " Done.")
            /\ Json.loads s = Some OBJECT_A1.
Proof.
  apply (@extract_json_value_from_text Json.loads
           (lit "Sure: " ++ jlit "{'a': 1}" ++ lit " Done.") OBJECT_A1).
  vm_compute. reflexivity.
Defined.

(** X7.  An object in prose is recovered.  When the text before the first
    opening brace has neither a brace nor a backtick, the text after the
    last closing brace has no closing brace, the text as a whole does not
    decode and the span between the two braces does, [_extract_json]
    returns the value of the span. *)
Theorem extract_json_object_in_prose :
  forall (json_loads : pystr -> option json) (pre mid post : pystr) (v : json),
    ~ In LBRACE pre ->
    ~ In BACKTICK pre ->
    ~ In RBRACE post ->
    json_loads (strip (pre ++ LBRACE :: mid ++ RBRACE :: post)) = None ->
    json_loads (LBRACE :: mid ++ [RBRACE]) = Some v ->
    _extract_json json_loads (pre ++ LBRACE :: mid ++ RBRACE :: post) = Ok v.
Proof.
  intros json_loads pre mid post v L K R N D.
  rewrite extract_json_eq. unfold extract_spec.
  rewrite strip_around in * by reflexivity.
  assert (U : unwrap_fence (lstrip pre ++ LBRACE :: mid ++ RBRACE :: rstrip post)
              = lstrip pre ++ LBRACE :: mid ++ RBRACE :: rstrip post).
  { unfold unwrap_fence. rewrite fenced_payload_head; [reflexivity|].
    destruct (lstrip pre) as [|c u] eqn:E; cbn [app]; [reflexivity|].
    apply N.eqb_neq. intros <-. apply K. apply in_drop_while with (p := is_space).
    unfold lstrip in E. rewrite E. now left. }
  rewrite U, N.
  assert (S : brace_span (lstrip pre ++ LBRACE :: mid ++ RBRACE :: rstrip post)
              = Some (LBRACE :: mid ++ [RBRACE])).
  { replace (lstrip pre ++ LBRACE :: mid ++ RBRACE :: rstrip post)
      with (lstrip pre ++ (LBRACE :: mid ++ [RBRACE]) ++ rstrip post)
      by (cbn [app]; now rewrite <- app_assoc).
    apply brace_span_intro.
    - intro I. apply L. now apply in_drop_while in I.
    - intro I. apply R. now apply in_rstrip in I. }
  now rewrite S, D.
Qed.

Lemma extract_json_object_in_prose_witness :
  _extract_json Json.loads
    (lit "Sure, here it is: " ++ LBRACE :: jlit "'a': 1" ++ RBRACE :: lit " Anything else?")
  = Ok OBJECT_A1.
Proof.
  apply (@extract_json_object_in_prose Json.loads
           (lit "Sure, here it is: ") (jlit "'a': 1") (lit " Anything else?") OBJECT_A1);
    try (apply neqb_not_in; reflexivity); vm_compute; reflexivity.
Defined.

(** ** More on the advisory record *)

Lemma advise_apply_defaults (json_loads : pystr -> option json)
    (request_content : dict -> list pystr -> result pystr) (kb : list row) (listing : dict) :
  advise json_loads request_content kb listing =
  (kb_chunks <- load_kb_for_listing kb listing ;;
   content <- request_content listing kb_chunks ;;
   out <- _extract_json json_loads content ;;
   apply_defaults out).
Proof. reflexivity. Qed.

Lemma apply_defaults_fill (d : dict) :
  apply_defaults (JObj d) = Ok (JObj (fill ADVISORY_DEFAULTS d)).
Proof. reflexivity. Qed.

Lemma fill_complete (d : dict) :
  forallb (has_key d) (map fst ADVISORY_DEFAULTS) = true ->
  fill ADVISORY_DEFAULTS d = d.
Proof.
  intro H. rewrite fill_order by reflexivity.
  rewrite <- (app_nil_r d) at 2. f_equal.
  rewrite forallb_forall in H.
  induction ADVISORY_DEFAULTS as [|[k v] l IH]; [reflexivity|].
  cbn [filter fst]. rewrite (H k) by now left. cbn [negb].
  apply IH. intros x I. apply H. now right.
Qed.

Lemma fill_has_keys (d : dict) :
  forallb (has_key (fill ADVISORY_DEFAULTS d)) (map fst ADVISORY_DEFAULTS) = true.
Proof.
  apply forallb_forall. intros k I. unfold has_key. rewrite fill_get.
  destruct (dict_get d k); [reflexivity|].
  apply in_map_iff in I as ([k' v] & <- & I). cbn [fst].
  now rewrite (@advisory_defaults_get k' v I).
Qed.

(** X8.  The record [advise] returns is the object of the reply, its
    entries in their order and with their values, followed by the
    defaults of the keys it lacks, in the order of the [setdefault]
    calls.  A reply that has the eight keys is returned as it is, and
    filling a filled record again changes nothing. *)
Theorem advise_appends_missing_defaults :
  forall (json_loads : pystr -> option json)
         (request_content : dict -> list pystr -> result pystr)
         (kb : list row) (listing : dict) (chunks : list pystr) (content : pystr) (d : dict),
    load_kb_for_listing kb listing = Ok chunks ->
    request_content listing chunks = Ok content ->
    _extract_json json_loads content = Ok (JObj d) ->
    let out := d ++ filter (fun kv => negb (has_key d (fst kv))) ADVISORY_DEFAULTS in
    advise json_loads request_content kb listing = Ok (JObj out)
    /\ (forallb (has_key d) (map fst ADVISORY_DEFAULTS) = true -> out = d)
    /\ apply_defaults (JObj out) = Ok (JObj out).
Proof.
  intros json_loads request_content kb listing chunks content d L R E out.
  assert (F : out = fill ADVISORY_DEFAULTS d) by (symmetry; now apply fill_order).
  split; [|split].
  - rewrite F. now apply advise_eq with (chunks := chunks) (content := content).
  - intro H. rewrite F. now apply fill_complete.
  - rewrite apply_defaults_fill, F. do 2 f_equal. apply fill_complete. apply fill_has_keys.
Qed.

Lemma advise_appends_missing_defaults_witness :
  let out := ADVISOR_OBJECT
             ++ filter (fun kv => negb (has_key ADVISOR_OBJECT (fst kv))) ADVISORY_DEFAULTS in
  advise Json.loads (fun _ _ => Ok ADVISOR_REPLY) [ROW_GOLF7] LISTING_GOLF = Ok (JObj out)
  /\ (forallb (has_key ADVISOR_OBJECT) (map fst ADVISORY_DEFAULTS) = true -> out = ADVISOR_OBJECT)
  /\ apply_defaults (JObj out) = Ok (JObj out).
Proof.
  apply (@advise_appends_missing_defaults Json.loads (fun _ _ => Ok ADVISOR_REPLY)
           [ROW_GOLF7] LISTING_GOLF [CHUNK_GOLF7] ADVISOR_REPLY ADVISOR_OBJECT);
    vm_compute; reflexivity.
Defined.

(** X9.  A reply that decodes to a value that is no object (a list, a
    number, a string, [null]) makes [advise] and [extract_listing] raise
    [AttributeError], not [ValueError]: [_extract_json] returns any JSON
    value and its callers use it as a dictionary. *)
Theorem non_object_reply_raises :
  forall (json_loads : pystr -> option json) (py_repr : json -> pystr)
         (request_advice : dict -> list pystr -> result pystr)
         (request_extraction : pystr -> result pystr)
         (utcnow ad_text content : pystr)
         (kb : list row) (listing : dict) (chunks : list pystr) (v : json),
    load_kb_for_listing kb listing = Ok chunks ->
    request_advice listing chunks = Ok content ->
    request_extraction ad_text = Ok content ->
    _extract_json json_loads content = Ok v ->
    (forall d, v <> JObj d) ->
    advise json_loads request_advice kb listing = Raise AttributeError
    /\ extract_listing json_loads py_repr request_extraction utcnow ad_text
       = Raise AttributeError.
Proof.
  intros json_loads py_repr ra re utcnow ad_text content kb listing chunks v L A X E N.
  split.
  - unfold advise. rewrite L. cbn [bind]. rewrite A. cbn [bind]. rewrite E. cbn [bind].
    destruct v; try reflexivity. now destruct (N d).
  - unfold extract_listing. rewrite X. cbn [bind]. rewrite E. cbn [bind].
    destruct v; try reflexivity. now destruct (N d).
Qed.

Lemma non_object_reply_raises_witness :
  advise Json.loads (fun _ _ => Ok (lit "[1, 2]")) [ROW_GOLF7] LISTING_GOLF
  = Raise AttributeError
  /\ extract_listing Json.loads NO_REPR (fun _ => Ok (lit "[1, 2]")) CLOCK AD_TEXT
     = Raise AttributeError.
Proof.
  apply (@non_object_reply_raises Json.loads NO_REPR (fun _ _ => Ok (lit "[1, 2]"))
           (fun _ => Ok (lit "[1, 2]")) CLOCK AD_TEXT (lit "[1, 2]")
           [ROW_GOLF7] LISTING_GOLF [CHUNK_GOLF7] (JArr [JInt 1; JInt 2]));
    try (vm_compute; reflexivity).
  intros d H. discriminate H.
Defined.

(** ** More on the listing record *)

Lemma py_or_truthy (a b : json) : py_or a b = b \/ truthy (py_or a b) = true.
Proof. unfold py_or. destruct (truthy a) eqn:T; [now right | now left]. Qed.

(** X10.  The record [extract_listing] returns has the same fourteen keys
    in the same order whatever the reply holds: the twelve facts that
    [build_user_message] reads, then [text] and [created_at]; keys of the
    reply outside them are dropped.  Its brand and its model are [None]
    or a string without white space at its ends, its options and known
    issues are the empty list or a truthy value, and [created_at] is the
    clock followed by Z. *)
Theorem listing_record_shape :
  forall (json_loads : pystr -> option json) (py_repr : json -> pystr)
         (request_content : pystr -> result pystr) (utcnow ad_text : pystr) (out : dict),
    extract_listing json_loads py_repr request_content utcnow ad_text = Ok out ->
    map fst out = FACT_KEYS ++ [lit "text"; lit "created_at"]
    /\ keys_distinct out = true
    /\ (forall k, In k [lit "brand"; lit "model"] ->
          dict_get out k = Some JNull
          \/ exists s, dict_get out k = Some (JStr s) /\ strip s = s)
    /\ (forall k, In k [lit "options"; lit "known_issues"] ->
          exists v, dict_get out k = Some v /\ (v = JArr [] \/ truthy v = true))
    /\ dict_get out (lit "created_at") = Some (JStr (utcnow ++ lit "Z")).
Proof.
  intros json_loads py_repr request_content utcnow ad_text out H.
  apply extract_listing_inv in H
    as (content & data & year & mileage_km & price_eur & _ & _ & _ & _ & _ & ->).
  split; [reflexivity|]. split; [reflexivity|]. split; [|split; [|reflexivity]].
  - intros k [<- | [<- | []]].
    + change (dict_get (listing_record py_repr utcnow data ad_text year mileage_km price_eur)
                (lit "brand"))
        with (Some (if truthy (get data (lit "brand"))
                    then JStr (strip (title (py_str py_repr (get data (lit "brand")))))
                    else JNull)).
      destruct (truthy (get data (lit "brand"))); [right | now left].
      eexists. split; [reflexivity | apply strip_idem].
    + change (dict_get (listing_record py_repr utcnow data ad_text year mileage_km price_eur)
                (lit "model"))
        with (Some (if truthy (get data (lit "model"))
                    then JStr (strip (py_str py_repr (get data (lit "model"))))
                    else JNull)).
      destruct (truthy (get data (lit "model"))); [right | now left].
      eexists. split; [reflexivity | apply strip_idem].
  - intros k [<- | [<- | []]]; eexists; (split; [reflexivity | apply py_or_truthy]).
Qed.

Lemma listing_record_shape_witness :
  map fst EXTRACTOR_RECORD = FACT_KEYS ++ [lit "text"; lit "created_at"]
  /\ keys_distinct EXTRACTOR_RECORD = true
  /\ (forall k, In k [lit "brand"; lit "model"] ->
        dict_get EXTRACTOR_RECORD k = Some JNull
        \/ exists s, dict_get EXTRACTOR_RECORD k = Some (JStr s) /\ strip s = s)
  /\ (forall k, In k [lit "options"; lit "known_issues"] ->
        exists v, dict_get EXTRACTOR_RECORD k = Some v /\ (v = JArr [] \/ truthy v = true))
  /\ dict_get EXTRACTOR_RECORD (lit "created_at") = Some (JStr (CLOCK ++ lit "Z")).
Proof.
  apply (@listing_record_shape Json.loads NO_REPR (fun _ => Ok SCENARIO_REPLY)
           CLOCK SCENARIO_AD EXTRACTOR_RECORD).
  vm_compute. reflexivity.
Defined.

(** X11.  [_coerce_number] is idempotent: what it returns is returned
    unchanged when given to it again. *)
Theorem coerce_number_idempotent :
  forall (py_repr : json -> pystr) (x v : json),
    _coerce_number py_repr x = Ok v -> _coerce_number py_repr v = Ok v.
Proof.
  intros py_repr x v H. apply coerce_number_value in H as [H _].
  destruct v; try discriminate; reflexivity.
Qed.

Lemma coerce_number_idempotent_witness :
  _coerce_number NO_REPR (JInt 98000) = Ok (JInt 98000).
Proof.
  apply (@coerce_number_idempotent NO_REPR (JStr (lit "98 000 km")) (JInt 98000)).
  vm_compute. reflexivity.
Defined.

(** ** The listing record as the input of the matcher and of the message *)

Lemma listing_record_typed (py_repr : json -> pystr) (utcnow : pystr) (data : dict)
    (ad_text : pystr) (year mileage_km price_eur : json) :
  listing_typed (listing_record py_repr utcnow data ad_text year mileage_km price_eur) = true.
Proof.
  unfold listing_typed.
  change (get (listing_record py_repr utcnow data ad_text year mileage_km price_eur)
            (lit "brand"))
    with (if truthy (get data (lit "brand"))
          then JStr (strip (title (py_str py_repr (get data (lit "brand")))))
          else JNull).
  change (get (listing_record py_repr utcnow data ad_text year mileage_km price_eur)
            (lit "model"))
    with (if truthy (get data (lit "model"))
          then JStr (strip (py_str py_repr (get data (lit "model"))))
          else JNull).
  destruct (truthy (get data (lit "brand"))), (truthy (get data (lit "model")));
    reflexivity.
Qed.

(** X12.  A record of [extract_listing] is a fit input of the matcher: its
    brand and model are strings or [None], so [load_kb_for_listing]
    returns the chunks of the matcher on it whenever no line of the table
    is shorter than the header, and can raise only on such a line.  The
    [source_url] that [analyze] adds to the record does not change the
    chunks. *)
Theorem extracted_listing_lookup :
  forall (json_loads : pystr -> option json) (py_repr : json -> pystr)
         (request_content : pystr -> result pystr) (utcnow ad_text : pystr)
         (out : dict) (kb : list row),
    extract_listing json_loads py_repr request_content utcnow ad_text = Ok out ->
    listing_typed out = true
    /\ (forall url, load_kb_for_listing kb (dict_set out (lit "source_url") url)
                    = load_kb_for_listing kb out)
    /\ (forallb row_complete kb = true ->
        load_kb_for_listing kb out = Ok (matcher_spec kb out))
    /\ (forall e, load_kb_for_listing kb out = Raise e ->
                  forallb row_complete kb = false).
Proof.
  intros json_loads py_repr request_content utcnow ad_text out kb H.
  apply extract_listing_inv in H
    as (content & data & year & mileage_km & price_eur & _ & _ & _ & _ & _ & ->).
  pose proof (listing_record_typed py_repr utcnow data ad_text year mileage_km price_eur) as T.
  split; [exact T|]. split; [|split].
  - intro url. apply load_kb_ext; now rewrite get_set_other by reflexivity.
  - intro C. now apply load_kb_eq.
  - intros e L. destruct (forallb row_complete kb) eqn:C; [|reflexivity].
    rewrite (@load_kb_eq kb _ T C) in L. discriminate.
Qed.

Lemma extracted_listing_lookup_witness :
  listing_typed EXTRACTOR_RECORD = true
  /\ (forall url, load_kb_for_listing [ROW_GOLF7; ROW_BMW]
                    (dict_set EXTRACTOR_RECORD (lit "source_url") url)
                  = load_kb_for_listing [ROW_GOLF7; ROW_BMW] EXTRACTOR_RECORD)
  /\ (forallb row_complete [ROW_GOLF7; ROW_BMW] = true ->
      load_kb_for_listing [ROW_GOLF7; ROW_BMW] EXTRACTOR_RECORD
      = Ok (matcher_spec [ROW_GOLF7; ROW_BMW] EXTRACTOR_RECORD))
  /\ (forall e, load_kb_for_listing [ROW_GOLF7; ROW_BMW] EXTRACTOR_RECORD = Raise e ->
                forallb row_complete [ROW_GOLF7; ROW_BMW] = false).
Proof.
  apply (@extracted_listing_lookup Json.loads NO_REPR (fun _ => Ok SCENARIO_REPLY)
           CLOCK SCENARIO_AD EXTRACTOR_RECORD [ROW_GOLF7; ROW_BMW]).
  vm_compute. reflexivity.
Defined.

(** ** The message of the advisor *)

Lemma in_fact_keys (k : pystr) :
  In k FACT_KEYS -> str_eqb (lit "text") k = false
                    /\ str_eqb (lit "created_at") k = false
                    /\ str_eqb (lit "source_url") k = false.
Proof.
  intro I. repeat (destruct I as [<- | I]; [now vm_compute|]). contradiction.
Qed.

Lemma build_user_message_ext (json_dumps : json -> pystr) (l1 l2 : dict)
    (chunks : list pystr) :
  (forall k, In k FACT_KEYS -> get l1 k = get l2 k) ->
  dict_get l1 (lit "text") = dict_get l2 (lit "text") ->
  build_user_message json_dumps l1 chunks = build_user_message json_dumps l2 chunks.
Proof.
  intros F T. unfold build_user_message. rewrite T.
  replace (map (fun k => (k, get l1 k)) FACT_KEYS)
    with (map (fun k => (k, get l2 k)) FACT_KEYS); [reflexivity|].
  apply map_ext_in. intros k I. now rewrite (F k I).
Qed.

(** X13.  What [build_user_message] reads of a listing.  It raises, and
    then [AttributeError], exactly when the listing has a [text] that is
    no string ([None] included).  A key outside the twelve facts and
    [text], such as [created_at] or [source_url], never reaches the
    message.  White space around the text is dropped, and a listing
    without [text] gives the message of an empty text. *)
Theorem build_user_message_reads :
  forall (json_dumps : json -> pystr) (listing : dict) (chunks : list pystr),
    (forall e, build_user_message json_dumps listing chunks = Raise e <->
               e = AttributeError
               /\ exists v, dict_get listing (lit "text") = Some v
                            /\ forall s, v <> JStr s)
    /\ (forall k v, ~ In k FACT_KEYS -> k <> lit "text" ->
          build_user_message json_dumps (dict_set listing k v) chunks
          = build_user_message json_dumps listing chunks)
    /\ (forall a s b, forallb is_space a = true -> forallb is_space b = true ->
          build_user_message json_dumps
            (dict_set listing (lit "text") (JStr (a ++ s ++ b))) chunks
          = build_user_message json_dumps (dict_set listing (lit "text") (JStr s)) chunks)
    /\ (dict_get listing (lit "text") = None ->
        build_user_message json_dumps (dict_set listing (lit "text") (JStr [])) chunks
        = build_user_message json_dumps listing chunks).
Proof.
  intros json_dumps listing chunks. split; [|split; [|split]].
  - intro e. unfold build_user_message.
    destruct (dict_get listing (lit "text")) as [v|] eqn:T; cbn [bind].
    + destruct v; cbn [bind];
        try (split; [intros [= <-]; split; [reflexivity|]; eexists; split;
                       [reflexivity | intros s; discriminate]
                    | now intros [-> _]]).
      split; [discriminate|]. intros [_ (v & [= <-] & N)]. now destruct (N s).
    + split; [discriminate|]. intros [_ (v & V & _)]. discriminate V.
  - intros k v F N. apply build_user_message_ext.
    + intros k' I. apply get_set_other. apply str_eqb_neq. intros ->. now apply F.
    + apply dict_get_set_other. now apply str_eqb_neq.
  - intros a s b A B. unfold build_user_message.
    rewrite !dict_get_set_same. cbn [bind].
    rewrite (@strip_spaces a s b A B).
    replace (map (fun k => (k, get (dict_set listing (lit "text") (JStr (a ++ s ++ b))) k))
               FACT_KEYS)
      with (map (fun k => (k, get (dict_set listing (lit "text") (JStr s)) k)) FACT_KEYS);
      [reflexivity|].
    apply map_ext_in. intros k I. apply in_fact_keys in I as [I _].
    now rewrite !get_set_other by exact I.
  - intro T. unfold build_user_message. rewrite dict_get_set_same, T. cbn [bind].
    replace (map (fun k => (k, get (dict_set listing (lit "text") (JStr [])) k)) FACT_KEYS)
      with (map (fun k => (k, get listing k)) FACT_KEYS); [reflexivity|].
    apply map_ext_in. intros k I. apply in_fact_keys in I as [I _].
    now rewrite get_set_other by exact I.
Qed.

Lemma build_user_message_text (json_dumps : json -> pystr) (listing : dict)
    (chunks : list pystr) (s : pystr) :
  dict_get listing (lit "text") = Some (JStr s) ->
  exists m, build_user_message json_dumps listing chunks = Ok m
            /\ substring_of (lit "<<<" ++ strip s ++ lit ">>>") m.
Proof.
  intro T. unfold build_user_message. rewrite T. cbn [bind].
  eexists. split; [reflexivity|].
  match goal with
  | |- substring_of _ (?p1 ++ ?p2 ++ ?p3 ++ ?p4 ++ ?p5 ++ ?p6 ++ ?p7
                        ++ ?open ++ ?text ++ ?close ++ ?rest) =>
      exists (p1 ++ p2 ++ p3 ++ p4 ++ p5 ++ p6 ++ p7), rest
  end.
  repeat rewrite <- app_assoc. reflexivity.
Qed.

(** X14.  From the reply of the extraction to the message of the advisor.
    On a record of [extract_listing], [build_user_message] raises
    [AttributeError] exactly when the [text] of the reply is truthy and no
    string (a number, a list, an object).  When it is falsy the message
    quotes the trimmed text of the ad between the angle brackets, and
    when it is a non-empty string it quotes that string, trimmed. *)
Theorem extracted_text_in_message :
  forall (json_loads : pystr -> option json) (json_dumps : json -> pystr)
         (py_repr : json -> pystr) (request_content : pystr -> result pystr)
         (utcnow ad_text content : pystr) (data out : dict) (chunks : list pystr),
    request_content ad_text = Ok content ->
    _extract_json json_loads content = Ok (JObj data) ->
    extract_listing json_loads py_repr request_content utcnow ad_text = Ok out ->
    (build_user_message json_dumps out chunks = Raise AttributeError <->
       truthy (get data (lit "text")) = true
       /\ forall s, get data (lit "text") <> JStr s)
    /\ (truthy (get data (lit "text")) = false ->
        exists m, build_user_message json_dumps out chunks = Ok m
                  /\ substring_of (lit "<<<" ++ strip ad_text ++ lit ">>>") m)
    /\ (forall c s, get data (lit "text") = JStr (c :: s) ->
        exists m, build_user_message json_dumps out chunks = Ok m
                  /\ substring_of (lit "<<<" ++ strip (c :: s) ++ lit ">>>") m).
Proof.
  intros json_loads json_dumps py_repr request_content utcnow ad_text content data out
         chunks R E H.
  apply extract_listing_inv in H
    as (content' & data' & year & mileage_km & price_eur & R' & E' & _ & _ & _ & ->).
  rewrite R in R'. injection R' as <-. rewrite E in E'. injection E' as <-.
  assert (T : dict_get (listing_record py_repr utcnow data ad_text year mileage_km price_eur)
                (lit "text")
              = Some (py_or (get data (lit "text")) (JStr ad_text))) by reflexivity.
  unfold py_or in T. split; [|split].
  - destruct (truthy (get data (lit "text"))) eqn:Y.
    + unfold build_user_message. rewrite T.
      destruct (get data (lit "text")); cbn [bind];
        try (split; [intros _; split; [reflexivity | intros s; discriminate]
                    | reflexivity]).
      split; [discriminate|]. intros [_ N]. now destruct (N s).
    + destruct (build_user_message_text json_dumps _ chunks T) as (m & -> & _).
      split; [discriminate | now intros [? _]].
  - intros Y. rewrite Y in T. exact (build_user_message_text json_dumps _ chunks T).
  - intros c s G. rewrite G in T. cbn [truthy] in T.
    exact (build_user_message_text json_dumps _ chunks T).
Qed.

Lemma extracted_text_in_message_witness :
  (build_user_message NO_REPR EXTRACTOR_RECORD [CHUNK_GOLF7] = Raise AttributeError <->
     truthy (get SCENARIO_OBJECT (lit "text")) = true
     /\ forall s, get SCENARIO_OBJECT (lit "text") <> JStr s)
  /\ (truthy (get SCENARIO_OBJECT (lit "text")) = false ->
      exists m, build_user_message NO_REPR EXTRACTOR_RECORD [CHUNK_GOLF7] = Ok m
                /\ substring_of (lit "<<<" ++ strip SCENARIO_AD ++ lit ">>>") m)
  /\ (forall c s, get SCENARIO_OBJECT (lit "text") = JStr (c :: s) ->
      exists m, build_user_message NO_REPR EXTRACTOR_RECORD [CHUNK_GOLF7] = Ok m
                /\ substring_of (lit "<<<" ++ strip (c :: s) ++ lit ">>>") m).
Proof.
  apply (@extracted_text_in_message Json.loads NO_REPR NO_REPR (fun _ => Ok SCENARIO_REPLY)
           CLOCK SCENARIO_AD SCENARIO_REPLY SCENARIO_OBJECT EXTRACTOR_RECORD [CHUNK_GOLF7]);
    vm_compute; reflexivity.
Defined.

(** ** The exchanges *)

Lemma subscript_key_return (v : json) (k : pystr) (x : json) :
  subscript_key v k = Return x <-> exists d, v = JObj d /\ dict_get d k = Some x.
Proof.
  split.
  - destruct v; try discriminate. cbn [subscript_key].
    destruct (dict_get d k) eqn:G; [|discriminate]. intros [= <-]. now exists d.
  - intros (d & -> & G). cbn [subscript_key]. now rewrite G.
Qed.

Lemma subscript_key_exception (v : json) (k : pystr) (e : pyexn) :
  subscript_key v k = Throw e -> e = KeyError (JStr k) \/ e = TypeError.
Proof.
  destruct v; cbn [subscript_key]; try (intros [= <-]; now right).
  destruct (dict_get d k); [discriminate | intros [= <-]; now left].
Qed.

Lemma subscript_0_exception (v : json) (e : pyexn) :
  subscript_0 v = Throw e -> e = KeyError (JInt 0) \/ e = IndexError \/ e = TypeError.
Proof.
  destruct v as [| | | |[|c s]|[|x l]|d]; cbn [subscript_0]; try discriminate;
    intros [= <-]; auto.
Qed.

Lemma envelope_content_exception (resp : response) (e : pyexn) :
  envelope_content resp = Throw e ->
  e = Std (JSONDecodeError (resp_text resp)) \/ e = TypeError \/ e = IndexError
  \/ exists k, e = KeyError k.
Proof.
  unfold envelope_content, response_json.
  destruct (resp_json resp) as [v|]; cbn [outcome_bind]; [|intros [= <-]; now left].
  destruct (subscript_key v (lit "choices")) as [choices|e1] eqn:E1; cbn [outcome_bind].
  2:{ intros [= <-]. apply subscript_key_exception in E1 as [-> | ->]; eauto. }
  destruct (subscript_0 choices) as [choice|e2] eqn:E2; cbn [outcome_bind].
  2:{ intros [= <-]. apply subscript_0_exception in E2 as [-> | [-> | ->]]; eauto. }
  destruct (subscript_key choice (lit "message")) as [message|e3] eqn:E3; cbn [outcome_bind].
  2:{ intros [= <-]. apply subscript_key_exception in E3 as [-> | ->]; eauto. }
  intro E4. apply subscript_key_exception in E4 as [-> | ->]; eauto.
Qed.

Lemma envelope_content_is_exception (resp : response) (e : pyexn) :
  envelope_content resp = Throw e -> is_Exception e = true.
Proof.
  intro H. apply envelope_content_exception in H as [-> | [-> | [-> | [k ->]]]];
    reflexivity.
Qed.

(** X15.  The subscripts that read the content of a completion succeed on
    one shape only: the body decodes to an object whose [choices] is a
    list that starts with an object whose [message] is an object that has
    a [content]; the content may be any value.  On every other body they
    raise the decoding error, [KeyError], [IndexError] or [TypeError], and
    the decoding error exactly when the body does not decode. *)
Theorem envelope_content_shape :
  forall (resp : response),
    (forall c, envelope_content resp = Return c <->
       exists d choice rest message,
         resp_json resp = Some (JObj d)
         /\ dict_get d (lit "choices") = Some (JArr (JObj choice :: rest))
         /\ dict_get choice (lit "message") = Some (JObj message)
         /\ dict_get message (lit "content") = Some c)
    /\ (forall e, envelope_content resp = Throw e ->
          e = Std (JSONDecodeError (resp_text resp)) \/ e = TypeError \/ e = IndexError
          \/ exists k, e = KeyError k)
    /\ (resp_json resp = None <->
        envelope_content resp = Throw (Std (JSONDecodeError (resp_text resp)))).
Proof.
  intro resp. split; [|split; [apply envelope_content_exception|]].
  - intro c. unfold envelope_content, response_json. split.
    + destruct (resp_json resp) as [v|]; cbn [outcome_bind]; [|discriminate].
      destruct (subscript_key v (lit "choices")) as [choices|] eqn:E1;
        cbn [outcome_bind]; [|discriminate].
      destruct (subscript_0 choices) as [x|] eqn:E2; cbn [outcome_bind]; [|discriminate].
      destruct (subscript_key x (lit "message")) as [message|] eqn:E3;
        cbn [outcome_bind]; [|discriminate].
      intro E4.
      apply subscript_key_return in E1 as (d & -> & G1).
      apply subscript_key_return in E3 as (choice & -> & G3).
      apply subscript_key_return in E4 as (m & -> & G4).
      destruct choices as [| | | |[|a s]|[|y rest]|]; try discriminate E2.
      cbn [subscript_0] in E2. injection E2 as ->.
      now exists d, choice, rest, m.
    + intros (d & choice & rest & message & -> & G1 & G3 & G4). cbn [outcome_bind].
      cbn [subscript_key]. rewrite G1. cbn [outcome_bind subscript_0 subscript_key].
      rewrite G3. cbn [outcome_bind subscript_key]. now rewrite G4.
  - unfold envelope_content, response_json. split.
    + now intros ->.
    + destruct (resp_json resp) as [v|]; [|reflexivity]. cbn [outcome_bind].
      intro H. exfalso.
      destruct (subscript_key v (lit "choices")) as [choices|e1] eqn:E1; cbn [outcome_bind] in H.
      2:{ injection H as ->. apply subscript_key_exception in E1 as [E | E]; discriminate E. }
      destruct (subscript_0 choices) as [choice|e2] eqn:E2; cbn [outcome_bind] in H.
      2:{ injection H as ->. apply subscript_0_exception in E2 as [E | [E | E]];
          discriminate E. }
      destruct (subscript_key choice (lit "message")) as [message|e3] eqn:E3;
        cbn [outcome_bind] in H.
      2:{ injection H as ->. apply subscript_key_exception in E3 as [E | E]; discriminate E. }
      apply subscript_key_exception in H as [E | E]; discriminate E.
Qed.

Section ServiceFacts.

Variable service : trace -> request -> reply.
Variable json_loads : pystr -> option json.
Variable json_dumps : json -> pystr.
Variable py_repr : json -> pystr.
Variable utcnow : pystr.
Variable kb : list row.
Variable LLM_API_KEY : pystr.
Variable WCS_URL : option pystr.
Variable WCS_API_KEY : option pystr.
Variable describe : pyexn -> pystr.
Variable coerce_id : json -> option pystr.

Lemma extract_listing_io_eq (ad_text : pystr) (t : trace) :
  extract_listing_io service json_loads py_repr utcnow LLM_API_KEY ad_text t =
  (match service t (extraction_request LLM_API_KEY ad_text) with
   | Failure msg => Throw (RequestException msg)
   | Answer resp =>
       if negb (Z.eqb (status_code resp) 200) then Throw (llm_error resp)
       else match envelope_content resp with
            | Return c =>
                lift (extract_listing json_loads py_repr (fun _ => content_text c)
                        utcnow ad_text)
            | Throw _ =>
                Throw (Std (RuntimeError (lit "Unexpected LLM response format: "
                                          ++ resp_text resp)))
            end
   end, t ++ [extraction_request LLM_API_KEY ad_text]).
Proof.
  unfold extract_listing_io, io_bind, requests_post.
  destruct (service t (extraction_request LLM_API_KEY ad_text)) as [resp|msg];
    [|reflexivity].
  destruct (negb (Z.eqb (status_code resp) 200)); [reflexivity|].
  unfold try_except, pure.
  destruct (envelope_content resp) as [c|e] eqn:E; [reflexivity|].
  now rewrite (envelope_content_is_exception _ E).
Qed.

Lemma advise_io_eq (listing : dict) (t : trace) :
  advise_io service json_loads json_dumps kb LLM_API_KEY listing t =
  match load_kb_for_listing kb listing with
  | Raise e => (Throw (Std e), t)
  | Ok chunks =>
      match build_user_message json_dumps listing chunks with
      | Raise e => (Throw (Std e), t)
      | Ok m =>
          (match service t (advice_request LLM_API_KEY m) with
           | Failure msg => Throw (RequestException msg)
           | Answer resp =>
               if negb (Z.eqb (status_code resp) 200) then Throw (llm_error resp)
               else match envelope_content resp with
                    | Return c =>
                        lift (text <- content_text c ;;
                              out <- _extract_json json_loads text ;;
                              apply_defaults out)
                    | Throw e => Throw e
                    end
           end, t ++ [advice_request LLM_API_KEY m])
      end
  end.
Proof.
  unfold advise_io, io_bind, pure.
  destruct (load_kb_for_listing kb listing) as [chunks|e]; [|reflexivity]. cbn [lift].
  destruct (build_user_message json_dumps listing chunks) as [m|e]; [|reflexivity].
  cbn [lift]. unfold requests_post.
  destruct (service t (advice_request LLM_API_KEY m)) as [resp|msg]; [|reflexivity].
  destruct (negb (Z.eqb (status_code resp) 200)); [reflexivity|].
  now destruct (envelope_content resp).
Qed.

Lemma insert_listing_eq (listing : dict) (t : trace) :
  insert_listing_to_weaviate service WCS_URL WCS_API_KEY listing t =
  if (unset WCS_URL || unset WCS_API_KEY)%bool
  then (Throw (SystemExit (lit "Missing WCS_URL or WCS_API_KEY in environment.")), t)
  else
    let rq := insert_request (env_text WCS_URL) (env_text WCS_API_KEY) listing in
    (match service t rq with
     | Failure msg => Throw (RequestException msg)
     | Answer r =>
         if negb (Z.eqb (status_code r) 200 || Z.eqb (status_code r) 202)
         then Throw (Std (RuntimeError (lit "Weaviate insert failed "
                                        ++ str_of_int (status_code r)
                                        ++ lit ": " ++ resp_text r)))
         else response_json r
     end, t ++ [rq]).
Proof.
  unfold insert_listing_to_weaviate.
  destruct (unset WCS_URL || unset WCS_API_KEY)%bool; [reflexivity|].
  unfold io_bind, requests_post. cbn zeta.
  destruct (service t _) as [r|msg]; [|reflexivity].
  now destruct (negb (Z.eqb (status_code r) 200 || Z.eqb (status_code r) 202)).
Qed.

Lemma lift_return (A : Type) (c : result A) (a : A) : lift c = Return a <-> c = Ok a.
Proof. destruct c; cbn [lift]; split; intro H; now inversion H. Qed.

Lemma lift_exception (A : Type) (c : result A) (e : pyexn) :
  lift c = Throw e -> exists x, e = Std x.
Proof. destruct c; cbn [lift]; [discriminate|]. intros [= <-]. now eexists. Qed.

Lemma extract_listing_content (ad_text : pystr) (c : json) (out : dict) :
  extract_listing json_loads py_repr (fun _ => content_text c) utcnow ad_text = Ok out <->
  exists s, c = JStr s
            /\ extract_listing json_loads py_repr (fun _ => Ok s) utcnow ad_text = Ok out.
Proof.
  split.
  - destruct c; try discriminate. intro H. now exists s.
  - now intros (s & -> & H).
Qed.

End ServiceFacts.

(** X16.  The exchange of [extract_listing].  One request is sent, whatever
    the outcome, and it carries the text of the ad as it was given.  The
    function returns a record exactly when the service answers with
    status 200 and a completion whose content is a string from which the
    rest of the function builds the record.  Any other status raises
    [RuntimeError] with the status and the body of the answer, and a body
    that is no completion raises [RuntimeError] with the body: the errors
    of the subscripts never leave the function. *)
Theorem extract_listing_exchange :
  forall (service : trace -> request -> reply) (json_loads : pystr -> option json)
         (py_repr : json -> pystr) (utcnow LLM_API_KEY ad_text : pystr) (t : trace),
    let rq := extraction_request LLM_API_KEY ad_text in
    let run := extract_listing_io service json_loads py_repr utcnow LLM_API_KEY ad_text t in
    snd run = t ++ [rq]
    /\ (forall out, fst run = Return out <->
          exists resp content,
            service t rq = Answer resp
            /\ status_code resp = 200%Z
            /\ envelope_content resp = Return (JStr content)
            /\ extract_listing json_loads py_repr (fun _ => Ok content) utcnow ad_text
               = Ok out)
    /\ (forall e, fst run = Throw e ->
          (exists msg, e = RequestException msg) \/ (exists x, e = Std x))
    /\ (forall resp, service t rq = Answer resp ->
          (status_code resp <> 200%Z ->
           fst run = Throw (Std (RuntimeError (lit "LLM error "
                                               ++ str_of_int (status_code resp)
                                               ++ lit ": " ++ resp_text resp))))
          /\ (forall e, status_code resp = 200%Z -> envelope_content resp = Throw e ->
              fst run = Throw (Std (RuntimeError (lit "Unexpected LLM response format: "
                                                  ++ resp_text resp))))).
Proof.
  intros service json_loads py_repr utcnow LLM_API_KEY ad_text t rq run.
  assert (R : run = _) by apply extract_listing_io_eq. fold rq in R.
  rewrite R. cbn [fst snd]. split; [reflexivity|]. split; [|split].
  - intro out. split.
    + destruct (service t rq) as [resp|msg]; [|discriminate].
      destruct (Z.eqb_spec (status_code resp) 200) as [S|S]; cbn [negb]; [|discriminate].
      destruct (envelope_content resp) as [c|e] eqn:E; [|discriminate].
      intro H. apply lift_return in H. apply extract_listing_content in H as (s & -> & H).
      now exists resp, s.
    + intros (resp & content & -> & S & E & H). rewrite S, E. cbn [Z.eqb negb Pos.eqb].
      apply lift_return. exact H.
  - intro e. destruct (service t rq) as [resp|msg].
    + destruct (negb (Z.eqb (status_code resp) 200)).
      * intros [= <-]. right. now eexists.
      * destruct (envelope_content resp) as [c|e'].
        -- intro H. right. now apply lift_exception in H.
        -- intros [= <-]. right. now eexists.
    + intros [= <-]. left. now eexists.
  - intros resp ->. split.
    + intro S. apply Z.eqb_neq in S. now rewrite S.
    + intros e S E. now rewrite S, E.
Qed.

(** X17.  [advise] sends nothing before the knowledge base is read and the
    message is built: when [load_kb_for_listing] or [build_user_message]
    raises, the exception is raised as it is and no request is sent.
    Otherwise one request is sent, with the message built from the
    listing and the chunks. *)
Theorem advise_sends_after_lookup :
  forall (service : trace -> request -> reply) (json_loads : pystr -> option json)
         (json_dumps : json -> pystr) (kb : list row) (LLM_API_KEY : pystr)
         (listing : dict) (t : trace),
    let run := advise_io service json_loads json_dumps kb LLM_API_KEY listing t in
    (forall e, load_kb_for_listing kb listing = Raise e -> run = (Throw (Std e), t))
    /\ (forall chunks e,
          load_kb_for_listing kb listing = Ok chunks ->
          build_user_message json_dumps listing chunks = Raise e ->
          run = (Throw (Std e), t))
    /\ (forall chunks m,
          load_kb_for_listing kb listing = Ok chunks ->
          build_user_message json_dumps listing chunks = Ok m ->
          snd run = t ++ [advice_request LLM_API_KEY m])
    /\ (snd run = t \/ exists m, snd run = t ++ [advice_request LLM_API_KEY m]).
Proof.
  intros service json_loads json_dumps kb LLM_API_KEY listing t run.
  assert (R : run = _) by apply advise_io_eq. rewrite R.
  split; [|split; [|split]].
  - now intros e ->.
  - now intros chunks e -> ->.
  - now intros chunks m -> ->.
  - destruct (load_kb_for_listing kb listing) as [chunks|e]; [|now left].
    destruct (build_user_message json_dumps listing chunks) as [m|e]; [|now left].
    right. now exists m.
Qed.

(** X18.  The exchange of [advise].  It returns exactly when the chunks and
    the message are built, the service answers with status 200 and a
    completion whose content is a string, and the rest of the function
    returns on that content; what it returns is an object with the eight
    advisory keys.  Unlike [extract_listing], a body that is no completion
    raises the error of the subscript itself.  It never raises
    [SystemExit]. *)
Theorem advise_exchange :
  forall (service : trace -> request -> reply) (json_loads : pystr -> option json)
         (json_dumps : json -> pystr) (kb : list row) (LLM_API_KEY : pystr)
         (listing : dict) (t : trace),
    let run := advise_io service json_loads json_dumps kb LLM_API_KEY listing t in
    (forall out, fst run = Return out <->
       exists chunks m resp content,
         load_kb_for_listing kb listing = Ok chunks
         /\ build_user_message json_dumps listing chunks = Ok m
         /\ service t (advice_request LLM_API_KEY m) = Answer resp
         /\ status_code resp = 200%Z
         /\ envelope_content resp = Return (JStr content)
         /\ advise json_loads (fun _ _ => Ok content) kb listing = Ok out)
    /\ (forall out, fst run = Return out ->
          exists d, out = JObj d
                    /\ forallb (has_key d) (map fst ADVISORY_DEFAULTS) = true)
    /\ (forall chunks m resp e,
          load_kb_for_listing kb listing = Ok chunks ->
          build_user_message json_dumps listing chunks = Ok m ->
          service t (advice_request LLM_API_KEY m) = Answer resp ->
          status_code resp = 200%Z ->
          envelope_content resp = Throw e ->
          fst run = Throw e)
    /\ (forall e, fst run = Throw e -> is_Exception e = true).
Proof.
  intros service json_loads json_dumps kb LLM_API_KEY listing t run.
  assert (R : run = _) by apply advise_io_eq. rewrite R.
  assert (A : forall out,
             fst (match load_kb_for_listing kb listing with
                  | Raise e => (Throw (Std e), t)
                  | Ok chunks =>
                      match build_user_message json_dumps listing chunks with
                      | Raise e => (Throw (Std e), t)
                      | Ok m =>
                          (match service t (advice_request LLM_API_KEY m) with
                           | Failure msg => Throw (RequestException msg)
                           | Answer resp =>
                               if negb (Z.eqb (status_code resp) 200)
                               then Throw (llm_error resp)
                               else match envelope_content resp with
                                    | Return c =>
                                        lift (text <- content_text c ;;
                                              out <- _extract_json json_loads text ;;
                                              apply_defaults out)
                                    | Throw e => Throw e
                                    end
                           end, t ++ [advice_request LLM_API_KEY m])
                      end
                  end) = Return out ->
             exists chunks m resp content,
               load_kb_for_listing kb listing = Ok chunks
               /\ build_user_message json_dumps listing chunks = Ok m
               /\ service t (advice_request LLM_API_KEY m) = Answer resp
               /\ status_code resp = 200%Z
               /\ envelope_content resp = Return (JStr content)
               /\ (out0 <- _extract_json json_loads content ;; apply_defaults out0) = Ok out).
  { intro out.
    destruct (load_kb_for_listing kb listing) as [chunks|e] eqn:L; [|discriminate].
    destruct (build_user_message json_dumps listing chunks) as [m|e] eqn:B; [|discriminate].
    cbn [fst].
    destruct (service t (advice_request LLM_API_KEY m)) as [resp|msg] eqn:V; [|discriminate].
    destruct (Z.eqb_spec (status_code resp) 200) as [S|S]; cbn [negb]; [|discriminate].
    destruct (envelope_content resp) as [c|e] eqn:E; [|discriminate].
    intro H. apply lift_return in H. destruct c; try discriminate H.
    exists chunks, m, resp, s. repeat (split; [reflexivity || assumption|]). exact H. }
  split; [|split; [|split]].
  - intro out. split.
    + intro H. apply A in H as (chunks & m & resp & content & L & B & S & C & E & H).
      exists chunks, m, resp, content. repeat (split; [assumption|]).
      rewrite advise_apply_defaults, L. exact H.
    + intros (chunks & m & resp & content & L & B & S & C & E & H).
      rewrite L, B. cbn [fst]. rewrite S, C, E. cbn [Z.eqb Pos.eqb negb content_text bind].
      apply lift_return. rewrite advise_apply_defaults, L in H. exact H.
  - intros out H. apply A in H as (_ & _ & _ & content & _ & _ & _ & _ & _ & H).
    destruct (_extract_json json_loads content) as [v|]; [|discriminate].
    cbn [bind] in H. destruct v; try discriminate H.
    rewrite apply_defaults_fill in H. injection H as <-.
    eexists. split; [reflexivity | apply fill_has_keys].
  - intros chunks m resp e L B S C E. rewrite L, B. cbn [fst]. now rewrite S, C, E.
  - intro e.
    destruct (load_kb_for_listing kb listing) as [chunks|x]; [|now intros [= <-]].
    destruct (build_user_message json_dumps listing chunks) as [m|x]; [|now intros [= <-]].
    cbn [fst].
    destruct (service t (advice_request LLM_API_KEY m)) as [resp|msg]; [|now intros [= <-]].
    destruct (negb (Z.eqb (status_code resp) 200)); [now intros [= <-]|].
    destruct (envelope_content resp) as [c|e'] eqn:E.
    + intro H. apply lift_exception in H as [x ->]. reflexivity.
    + intros [= <-]. exact (envelope_content_is_exception _ E).
Qed.

(** X19.  [insert_listing_to_weaviate].  When the address or the key of the
    store is unset or empty, it raises [SystemExit] and sends nothing.
    Otherwise it sends one request with the listing as it is under
    [properties], returns the decoded body exactly when the status is 200
    or 202 and the body decodes, whatever the body is, and raises
    [RuntimeError] with the status and the body on any other status,
    201 included. *)
Theorem insert_listing_outcomes :
  forall (service : trace -> request -> reply) (WCS_URL WCS_API_KEY : option pystr)
         (listing : dict) (t : trace),
    let run := insert_listing_to_weaviate service WCS_URL WCS_API_KEY listing t in
    let rq := insert_request (env_text WCS_URL) (env_text WCS_API_KEY) listing in
    ((unset WCS_URL || unset WCS_API_KEY)%bool = true ->
     run = (Throw (SystemExit (lit "Missing WCS_URL or WCS_API_KEY in environment.")), t))
    /\ ((unset WCS_URL || unset WCS_API_KEY)%bool = false ->
        snd run = t ++ [rq]
        /\ (forall v, fst run = Return v <->
              exists resp, service t rq = Answer resp
                           /\ (status_code resp = 200%Z \/ status_code resp = 202%Z)
                           /\ resp_json resp = Some v)
        /\ (forall resp, service t rq = Answer resp ->
              status_code resp <> 200%Z -> status_code resp <> 202%Z ->
              fst run = Throw (Std (RuntimeError (lit "Weaviate insert failed "
                                                  ++ str_of_int (status_code resp)
                                                  ++ lit ": " ++ resp_text resp))))
        /\ (forall e, fst run = Throw e -> is_Exception e = true)).
Proof.
  intros service WCS_URL WCS_API_KEY listing t run rq.
  assert (R : run = _) by apply insert_listing_eq. fold rq in R. cbn zeta in R.
  rewrite R. split.
  - now intros ->.
  - intros ->. cbn [fst snd]. split; [reflexivity|]. split; [|split].
    + intro v. split.
      * destruct (service t rq) as [resp|msg]; [|discriminate].
        destruct (Z.eqb_spec (status_code resp) 200) as [S|S]; cbn [orb negb].
        -- unfold response_json. destruct (resp_json resp) eqn:J; [|discriminate].
           intros [= <-]. exists resp. auto.
        -- destruct (Z.eqb_spec (status_code resp) 202) as [S'|S']; cbn [negb];
             [|discriminate].
           unfold response_json. destruct (resp_json resp) eqn:J; [|discriminate].
           intros [= <-]. exists resp. auto.
      * intros (resp & -> & S & J). unfold response_json. rewrite J.
        destruct S as [-> | ->]; reflexivity.
    + intros resp -> S S'. apply Z.eqb_neq in S, S'. now rewrite S, S'.
    + intro e. destruct (service t rq) as [resp|msg]; [|now intros [= <-]].
      destruct (negb (Z.eqb (status_code resp) 200 || Z.eqb (status_code resp) 202));
        [now intros [= <-]|].
      unfold response_json. destruct (resp_json resp); [discriminate | now intros [= <-]].
Qed.

(** ** The endpoint *)

Section AnalyzeFacts.

Variable service : trace -> request -> reply.
Variable json_loads : pystr -> option json.
Variable json_dumps : json -> pystr.
Variable py_repr : json -> pystr.
Variable utcnow : pystr.
Variable kb : list row.
Variable LLM_API_KEY : pystr.
Variable WCS_URL : option pystr.
Variable WCS_API_KEY : option pystr.
Variable describe : pyexn -> pystr.
Variable coerce_id : json -> option pystr.

Lemma extract_listing_io_exception (ad_text : pystr) (t : trace) (e : pyexn) :
  fst (extract_listing_io service json_loads py_repr utcnow LLM_API_KEY ad_text t) = Throw e ->
  is_Exception e = true.
Proof.
  rewrite extract_listing_io_eq. cbn [fst].
  destruct (service t _) as [resp|msg]; [|now intros [= <-]].
  destruct (negb (Z.eqb (status_code resp) 200)); [now intros [= <-]|].
  destruct (envelope_content resp) as [c|e']; [|now intros [= <-]].
  intro H. now apply lift_exception in H as [x ->].
Qed.

Lemma extract_listing_io_trace (ad_text : pystr) (t : trace) :
  snd (extract_listing_io service json_loads py_repr utcnow LLM_API_KEY ad_text t)
  = t ++ [extraction_request LLM_API_KEY ad_text].
Proof. now rewrite extract_listing_io_eq. Qed.

Lemma advise_io_exception (listing : dict) (t : trace) (e : pyexn) :
  fst (advise_io service json_loads json_dumps kb LLM_API_KEY listing t) = Throw e ->
  is_Exception e = true.
Proof.
  rewrite advise_io_eq.
  destruct (load_kb_for_listing kb listing) as [chunks|x]; [|now intros [= <-]].
  destruct (build_user_message json_dumps listing chunks) as [m|x]; [|now intros [= <-]].
  cbn [fst].
  destruct (service t (advice_request LLM_API_KEY m)) as [resp|msg]; [|now intros [= <-]].
  destruct (negb (Z.eqb (status_code resp) 200)); [now intros [= <-]|].
  destruct (envelope_content resp) as [c|e'] eqn:E.
  - intro H. apply lift_exception in H as [x ->]. reflexivity.
  - intros [= <-]. exact (envelope_content_is_exception _ E).
Qed.

Lemma advise_io_object (listing : dict) (t : trace) (out : json) :
  fst (advise_io service json_loads json_dumps kb LLM_API_KEY listing t) = Return out ->
  exists d, out = JObj d /\ forallb (has_key d) (map fst ADVISORY_DEFAULTS) = true.
Proof.
  rewrite advise_io_eq.
  destruct (load_kb_for_listing kb listing) as [chunks|x]; [|discriminate].
  destruct (build_user_message json_dumps listing chunks) as [m|x]; [|discriminate].
  cbn [fst].
  destruct (service t (advice_request LLM_API_KEY m)) as [resp|msg]; [|discriminate].
  destruct (negb (Z.eqb (status_code resp) 200)); [discriminate|].
  destruct (envelope_content resp) as [c|e']; [|discriminate].
  intro H. apply lift_return in H. destruct c; try discriminate H. cbn [content_text bind] in H.
  destruct (_extract_json json_loads s) as [v|]; [|discriminate]. cbn [bind] in H.
  destruct v; try discriminate H. rewrite apply_defaults_fill in H. injection H as <-.
  eexists. split; [reflexivity | apply fill_has_keys].
Qed.

Lemma advise_io_trace (listing : dict) (t : trace) :
  (exists e, advise_io service json_loads json_dumps kb LLM_API_KEY listing t = (Throw e, t))
  \/ exists chunks m,
       load_kb_for_listing kb listing = Ok chunks
       /\ build_user_message json_dumps listing chunks = Ok m
       /\ snd (advise_io service json_loads json_dumps kb LLM_API_KEY listing t)
          = t ++ [advice_request LLM_API_KEY m].
Proof.
  rewrite advise_io_eq.
  destruct (load_kb_for_listing kb listing) as [chunks|x]; [|left; now eexists].
  destruct (build_user_message json_dumps listing chunks) as [m|x] eqn:B;
    [|left; now eexists].
  right. now exists chunks, m.
Qed.

Lemma analyze_tail_trace (l : dict) (t1 : trace) :
  let insertion := insert_request (env_text WCS_URL) (env_text WCS_API_KEY) l in
  let run := analyze_tail service json_loads json_dumps kb LLM_API_KEY WCS_URL WCS_API_KEY
               describe coerce_id l t1 in
  (snd run = t1
   \/ snd run = t1 ++ [insertion]
   \/ exists chunks m,
        load_kb_for_listing kb l = Ok chunks
        /\ build_user_message json_dumps l chunks = Ok m
        /\ snd run = t1 ++ [insertion; advice_request LLM_API_KEY m])
  /\ (forall r, fst run = Return r ->
        listing r = l
        /\ exists chunks m,
             load_kb_for_listing kb l = Ok chunks
             /\ build_user_message json_dumps l chunks = Ok m
             /\ snd run = t1 ++ [insertion; advice_request LLM_API_KEY m]).
Proof.
  intros insertion run. unfold run, analyze_tail. rewrite insert_listing_eq. cbn zeta.
  fold insertion.
  destruct (unset WCS_URL || unset WCS_API_KEY)%bool.
  { split; [now left | discriminate]. }
  destruct (match service t1 insertion with
            | Answer r =>
                if negb (Z.eqb (status_code r) 200 || Z.eqb (status_code r) 202)
                then Throw (Std (RuntimeError (lit "Weaviate insert failed "
                                               ++ str_of_int (status_code r)
                                               ++ lit ": " ++ resp_text r)))
                else response_json r
            | Failure msg => Throw (RequestException msg)
            end) as [inserted|x].
  2:{ split; [right; left; now destruct (is_Exception x)
             | destruct (is_Exception x); discriminate]. }
  destruct (method_get inserted (lit "id")) as [id|x].
  2:{ split; [now right; left | discriminate]. }
  destruct (advise_io_trace l (t1 ++ [insertion])) as [[e A] | (chunks & m & L & B & A)].
  - rewrite A. split; [now right; left | discriminate].
  - assert (T : forall o : outcome AnalyzeResponse,
               snd (o, (t1 ++ [insertion]) ++ [advice_request LLM_API_KEY m])
               = t1 ++ [insertion; advice_request LLM_API_KEY m]).
    { intro o. cbn [snd]. now rewrite <- app_assoc. }
    destruct (advise_io _ _ _ _ _ _ _) as [[adv|x] t3]; cbn [snd] in A; subst t3.
    + assert (W : forall o : outcome AnalyzeResponse,
                 snd (o, (t1 ++ [insertion]) ++ [advice_request LLM_API_KEY m]) = t1
                 \/ snd (o, (t1 ++ [insertion]) ++ [advice_request LLM_API_KEY m])
                    = t1 ++ [insertion]
                 \/ exists chunks0 m0,
                      load_kb_for_listing kb l = Ok chunks0
                      /\ build_user_message json_dumps l chunks0 = Ok m0
                      /\ snd (o, (t1 ++ [insertion]) ++ [advice_request LLM_API_KEY m])
                         = t1 ++ [insertion; advice_request LLM_API_KEY m0]).
      { intro o. right; right. exists chunks, m. auto. }
      destruct adv; try (split; [apply W | discriminate]).
      destruct (validate_id coerce_id id) as [w|x]; [|split; [apply W | discriminate]].
      split; [apply W|]. intros r [= <-]. cbn [listing]. split; [reflexivity|].
      exists chunks, m. auto.
    + split; [|discriminate]. right; right. exists chunks, m. auto.
Qed.

Lemma insert_listing_exception (listing : dict) (t : trace) (e : pyexn) :
  (unset WCS_URL || unset WCS_API_KEY)%bool = false ->
  fst (insert_listing_to_weaviate service WCS_URL WCS_API_KEY listing t) = Throw e ->
  is_Exception e = true.
Proof.
  intro C. rewrite insert_listing_eq, C. cbn zeta. cbn [fst].
  destruct (service t _) as [resp|msg]; [|now intros [= <-]].
  destruct (negb (Z.eqb (status_code resp) 200 || Z.eqb (status_code resp) 202));
    [now intros [= <-]|].
  unfold response_json. destruct (resp_json resp); [discriminate | now intros [= <-]].
Qed.

Lemma extract_listing_io_return (ad_text : pystr) (t : trace) (out : dict) :
  fst (extract_listing_io service json_loads py_repr utcnow LLM_API_KEY ad_text t) = Return out ->
  exists content,
    extract_listing json_loads py_repr (fun _ => Ok content) utcnow ad_text = Ok out.
Proof.
  rewrite extract_listing_io_eq. cbn [fst].
  destruct (service t _) as [resp|msg]; [|discriminate].
  destruct (negb (Z.eqb (status_code resp) 200)); [discriminate|].
  destruct (envelope_content resp) as [c|e']; [|discriminate].
  intro H. apply lift_return in H. apply extract_listing_content in H as (s & _ & H).
  now exists s.
Qed.

Lemma analyze_eq (req : AnalyzeRequest) (t : trace) :
  analyze service json_loads json_dumps py_repr utcnow kb LLM_API_KEY WCS_URL WCS_API_KEY
    describe coerce_id req t =
  let t1 := t ++ [extraction_request LLM_API_KEY (ad_text req)] in
  match fst (extract_listing_io service json_loads py_repr utcnow LLM_API_KEY (ad_text req) t)
  with
  | Throw e => (Throw (HTTPException 500 (str_exn describe e)), t1)
  | Return out => analyze_tail service json_loads json_dumps kb LLM_API_KEY WCS_URL WCS_API_KEY
                    describe coerce_id (with_source_url req out) t1
  end.
Proof.
  cbn zeta. unfold analyze, try_except. unfold io_bind at 1.
  pose proof (extract_listing_io_trace (ad_text req) t) as T.
  pose proof (@extract_listing_io_exception (ad_text req) t) as X.
  destruct (extract_listing_io service json_loads py_repr utcnow LLM_API_KEY (ad_text req) t)
    as [[out|e] t1]; cbn [fst snd] in *; subst t1.
  2:{ now rewrite (X e eq_refl). }
  unfold analyze_tail, io_bind.
  destruct (insert_listing_to_weaviate service WCS_URL WCS_API_KEY _ _) as [[inserted|e] t2];
    [|now destruct (is_Exception e)].
  unfold pure at 1. destruct (method_get inserted (lit "id")) as [id|e] eqn:M.
  2:{ destruct inserted; cbn [method_get] in M; try discriminate M; now injection M as <-. }
  pose proof (@advise_io_exception (with_source_url req out) t2) as XA.
  destruct (advise_io service json_loads json_dumps kb LLM_API_KEY _ t2) as [[adv|e] t3];
    cbn [fst] in XA.
  2:{ now rewrite (XA e eq_refl). }
  destruct adv; try reflexivity. unfold pure.
  destruct (validate_id coerce_id id) as [w|e] eqn:V; [reflexivity|].
  unfold validate_id in V.
  destruct id; try discriminate V; destruct (coerce_id _); try discriminate V;
    now injection V as <-.
Qed.

End AnalyzeFacts.

Lemma has_key_in (d : dict) (k : pystr) : has_key d k = true <-> In k (map fst d).
Proof.
  unfold has_key. induction d as [|[k' v] d IH]; cbn [dict_get map fst In].
  - split; [discriminate | contradiction].
  - destruct (str_eqb k' k) eqn:E.
    + apply str_eqb_eq in E. split; [now left | reflexivity].
    + apply str_eqb_neq in E. rewrite IH. split; [now right | now intros [? | ?]].
Qed.

Lemma has_key_set (d : dict) (k k' : pystr) (v : json) :
  has_key d k' = true -> has_key (dict_set d k v) k' = true.
Proof.
  unfold has_key. destruct (str_eqb k k') eqn:E.
  - apply str_eqb_eq in E. subst k'. now rewrite dict_get_set_same.
  - now rewrite dict_get_set_other by exact E.
Qed.

(** X20.  With the store configured, [analyze] fails in one way only: every
    exception of its three steps, of the reading of the identifier and of
    the validation of the response is turned into an [HTTPException] with
    status 500. *)
Theorem analyze_fails_with_status_500 :
  forall (service : trace -> request -> reply) (json_loads : pystr -> option json)
         (json_dumps py_repr : json -> pystr) (utcnow : pystr) (kb : list row)
         (LLM_API_KEY : pystr) (WCS_URL WCS_API_KEY : option pystr)
         (describe : pyexn -> pystr) (coerce_id : json -> option pystr)
         (req : AnalyzeRequest) (t : trace) (e : pyexn),
    (unset WCS_URL || unset WCS_API_KEY)%bool = false ->
    fst (analyze service json_loads json_dumps py_repr utcnow kb LLM_API_KEY
           WCS_URL WCS_API_KEY describe coerce_id req t) = Throw e ->
    exists detail, e = HTTPException 500 detail.
Proof.
  intros service json_loads json_dumps py_repr utcnow kb LLM_API_KEY WCS_URL WCS_API_KEY
         describe coerce_id req t e C.
  rewrite analyze_eq. cbn zeta.
  destruct (fst (extract_listing_io _ _ _ _ _ _ _)) as [out|x];
    [|intros [= <-]; now eexists].
  unfold analyze_tail.
  pose proof (@insert_listing_exception service WCS_URL WCS_API_KEY (with_source_url req out)
                (t ++ [extraction_request LLM_API_KEY (ad_text req)])) as X.
  destruct (insert_listing_to_weaviate _ _ _ _ _) as [[inserted|x] t2]; cbn [fst] in X.
  2:{ rewrite (X x C eq_refl). intros [= <-]. now eexists. }
  destruct (method_get inserted (lit "id")) as [id|x]; [|intros [= <-]; now eexists].
  destruct (advise_io _ _ _ _ _ _ _) as [[adv|x] t3]; [|intros [= <-]; now eexists].
  destruct adv; try (intros [= <-]; now eexists).
  destruct (validate_id coerce_id id); [discriminate | intros [= <-]; now eexists].
Qed.

Lemma analyze_fails_with_status_500_witness :
  exists detail, HTTPException 500 (lit "connection refused") = HTTPException 500 detail.
Proof.
  apply (@analyze_fails_with_status_500 SERVICE_DOWN Json.loads NO_REPR NO_REPR CLOCK
           [ROW_GOLF7] API_KEY STORE_URL STORE_KEY NO_TEXT NO_ID SCENARIO_REQUEST []);
    vm_compute; reflexivity.
Defined.

(** X21.  When the extraction fails, [analyze] stops after its first
    request and the detail of the error carries what the service said:
    the message of the network error, or the status and the body of an
    answer that is not 200, or the body of an answer that is no
    completion. *)
Theorem analyze_extraction_failure :
  forall (service : trace -> request -> reply) (json_loads : pystr -> option json)
         (json_dumps py_repr : json -> pystr) (utcnow : pystr) (kb : list row)
         (LLM_API_KEY : pystr) (WCS_URL WCS_API_KEY : option pystr)
         (describe : pyexn -> pystr) (coerce_id : json -> option pystr)
         (req : AnalyzeRequest) (t : trace),
    let rq := extraction_request LLM_API_KEY (ad_text req) in
    let run := analyze service json_loads json_dumps py_repr utcnow kb LLM_API_KEY
                 WCS_URL WCS_API_KEY describe coerce_id req t in
    (forall msg, service t rq = Failure msg ->
       run = (Throw (HTTPException 500 msg), t ++ [rq]))
    /\ (forall resp, service t rq = Answer resp -> status_code resp <> 200%Z ->
          run = (Throw (HTTPException 500 (lit "LLM error " ++ str_of_int (status_code resp)
                                           ++ lit ": " ++ resp_text resp)), t ++ [rq]))
    /\ (forall resp e, service t rq = Answer resp -> status_code resp = 200%Z ->
          envelope_content resp = Throw e ->
          run = (Throw (HTTPException 500 (lit "Unexpected LLM response format: "
                                           ++ resp_text resp)), t ++ [rq])).
Proof.
  intros service json_loads json_dumps py_repr utcnow kb LLM_API_KEY WCS_URL WCS_API_KEY
         describe coerce_id req t rq run.
  assert (R : run = _) by apply analyze_eq. cbn zeta in R. fold rq in R.
  rewrite extract_listing_io_eq in R. fold rq in R. cbn [fst] in R.
  split; [|split].
  - intros msg S. now rewrite S in R.
  - intros resp S N. rewrite S in R. apply Z.eqb_neq in N. now rewrite N in R.
  - intros resp e S C E. now rewrite S, C, E in R.
Qed.

(** X22.  [analyze] sends at most three requests, in this order: the
    extraction, the insertion of the extracted listing (with the address
    of the ad, when given) into the store, and the advice on that same
    listing.  When it returns, the three were sent, and the listing of the
    response is the listing that was stored and advised on. *)
Theorem analyze_requests_in_order :
  forall (service : trace -> request -> reply) (json_loads : pystr -> option json)
         (json_dumps py_repr : json -> pystr) (utcnow : pystr) (kb : list row)
         (LLM_API_KEY : pystr) (WCS_URL WCS_API_KEY : option pystr)
         (describe : pyexn -> pystr) (coerce_id : json -> option pystr)
         (req : AnalyzeRequest) (t : trace),
    let extraction := extraction_request LLM_API_KEY (ad_text req) in
    let insertion := insert_request (env_text WCS_URL) (env_text WCS_API_KEY) in
    let run := analyze service json_loads json_dumps py_repr utcnow kb LLM_API_KEY
                 WCS_URL WCS_API_KEY describe coerce_id req t in
    (snd run = t ++ [extraction]
     \/ exists out,
          fst (extract_listing_io service json_loads py_repr utcnow LLM_API_KEY
                 (ad_text req) t) = Return out
          /\ (snd run = t ++ [extraction; insertion (with_source_url req out)]
              \/ exists chunks m,
                   load_kb_for_listing kb (with_source_url req out) = Ok chunks
                   /\ build_user_message json_dumps (with_source_url req out) chunks = Ok m
                   /\ snd run = t ++ [extraction; insertion (with_source_url req out);
                                      advice_request LLM_API_KEY m]))
    /\ (forall r, fst run = Return r ->
          exists chunks m,
            load_kb_for_listing kb (listing r) = Ok chunks
            /\ build_user_message json_dumps (listing r) chunks = Ok m
            /\ snd run = t ++ [extraction; insertion (listing r);
                               advice_request LLM_API_KEY m]).
Proof.
  intros service json_loads json_dumps py_repr utcnow kb LLM_API_KEY WCS_URL WCS_API_KEY
         describe coerce_id req t extraction insertion run.
  assert (R : run = _) by apply analyze_eq. cbn zeta in R. fold extraction in R.
  destruct (fst (extract_listing_io _ _ _ _ _ _ _)) as [out|x] eqn:X.
  2:{ rewrite R. split; [now left | discriminate]. }
  pose proof (analyze_tail_trace service json_loads json_dumps kb LLM_API_KEY WCS_URL
                WCS_API_KEY describe coerce_id (with_source_url req out)
                (t ++ [extraction])) as T.
  cbn zeta in T. rewrite <- R in T. fold (insertion (with_source_url req out)) in T.
  destruct T as [T1 T2]. split.
  - destruct T1 as [T1 | [T1 | (chunks & m & L & B & T1)]].
    + now left.
    + right. exists out. split; [reflexivity|]. left. rewrite T1. now rewrite <- app_assoc.
    + right. exists out. split; [reflexivity|]. right. exists chunks, m.
      split; [exact L|]. split; [exact B|]. rewrite T1. now rewrite <- app_assoc.
  - intros r H. destruct (T2 r H) as (E & chunks & m & L & B & T). rewrite E.
    exists chunks, m. split; [exact L|]. split; [exact B|]. rewrite T.
    now rewrite <- app_assoc.
Qed.

(** X23.  The response of [analyze].  Its listing is the record of the
    extraction, with [source_url] when the request has a non-empty one
    and without that key otherwise, so it has the fourteen keys of the
    record; its advisor has the eight advisory keys; its [weaviate_id] is
    the validated [id] of the object the store answered with, which
    answered with status 200 or 202. *)
Theorem analyze_response :
  forall (service : trace -> request -> reply) (json_loads : pystr -> option json)
         (json_dumps py_repr : json -> pystr) (utcnow : pystr) (kb : list row)
         (LLM_API_KEY : pystr) (WCS_URL WCS_API_KEY : option pystr)
         (describe : pyexn -> pystr) (coerce_id : json -> option pystr)
         (req : AnalyzeRequest) (t : trace) (r : AnalyzeResponse),
    fst (analyze service json_loads json_dumps py_repr utcnow kb LLM_API_KEY
           WCS_URL WCS_API_KEY describe coerce_id req t) = Return r ->
    (exists out,
       fst (extract_listing_io service json_loads py_repr utcnow LLM_API_KEY
              (ad_text req) t) = Return out
       /\ listing r = with_source_url req out)
    /\ dict_get (listing r) (lit "source_url")
       = match source_url req with
         | Some (c :: u) => Some (JStr (c :: u))
         | _ => None
         end
    /\ forallb (has_key (listing r)) (FACT_KEYS ++ [lit "text"; lit "created_at"]) = true
    /\ forallb (has_key (advisor r)) (map fst ADVISORY_DEFAULTS) = true
    /\ (exists resp d,
          service (t ++ [extraction_request LLM_API_KEY (ad_text req)])
            (insert_request (env_text WCS_URL) (env_text WCS_API_KEY) (listing r))
          = Answer resp
          /\ (status_code resp = 200%Z \/ status_code resp = 202%Z)
          /\ resp_json resp = Some (JObj d)
          /\ validate_id coerce_id (get d (lit "id")) = Return (weaviate_id r)).
Proof.
  intros service json_loads json_dumps py_repr utcnow kb LLM_API_KEY WCS_URL WCS_API_KEY
         describe coerce_id req t r.
  rewrite analyze_eq. cbn zeta.
  destruct (fst (extract_listing_io _ _ _ _ _ _ _)) as [out|x] eqn:X; [|discriminate].
  apply extract_listing_io_return in X as [content X].
  assert (K : map fst out = FACT_KEYS ++ [lit "text"; lit "created_at"]).
  { apply extract_listing_inv in X
      as (c' & data & year & mileage_km & price_eur & _ & _ & _ & _ & _ & ->).
    reflexivity. }
  set (l := with_source_url req out).
  set (t1 := t ++ [extraction_request LLM_API_KEY (ad_text req)]).
  unfold analyze_tail. rewrite insert_listing_eq. cbn zeta.
  destruct (unset WCS_URL || unset WCS_API_KEY)%bool; [discriminate|].
  destruct (service t1 _) as [resp|msg] eqn:S; [|discriminate].
  destruct (Z.eqb (status_code resp) 200 || Z.eqb (status_code resp) 202)%bool eqn:C;
    cbn [negb]; [|discriminate].
  unfold response_json. destruct (resp_json resp) as [inserted|] eqn:J; [|discriminate].
  destruct inserted; cbn [method_get]; try discriminate.
  pose proof (@advise_io_object service json_loads json_dumps kb LLM_API_KEY l
                (t1 ++ [insert_request (env_text WCS_URL) (env_text WCS_API_KEY) l])) as A.
  destruct (advise_io _ _ _ _ _ _ _) as [[adv|x] t3]; [|discriminate].
  cbn [fst] in A. destruct (A adv eq_refl) as (a & -> & A'). clear A.
  destruct (validate_id coerce_id (get d (lit "id"))) as [w|x] eqn:V; [|discriminate].
  intros [= <-]. cbn [listing advisor weaviate_id].
  split; [now exists out|]. split; [|split; [|split; [exact A'|]]].
  - assert (N : dict_get out (lit "source_url") = None).
    { destruct (dict_get out (lit "source_url")) eqn:G; [|reflexivity].
      assert (H : has_key out (lit "source_url") = true) by (unfold has_key; now rewrite G).
      apply has_key_in in H. rewrite K in H.
      repeat (destruct H as [H | H]; [discriminate H|]). contradiction. }
    unfold l, with_source_url. destruct (source_url req) as [[|c u]|]; try exact N.
    apply dict_get_set_same.
  - apply forallb_forall. intros k I.
    assert (H : has_key out k = true) by (apply has_key_in; now rewrite K).
    unfold l, with_source_url. destruct (source_url req) as [[|c u]|]; try exact H.
    now apply has_key_set.
  - exists resp, d. split; [exact S|]. split; [|split; [exact J | exact V]].
    apply orb_true_iff in C as [C | C]; apply Z.eqb_eq in C; auto.
Qed.

Lemma analyze_response_witness :
  (exists out,
     fst (extract_listing_io SERVICE_OK Json.loads NO_REPR CLOCK API_KEY
            (ad_text SCENARIO_REQUEST) []) = Return out
     /\ listing SCENARIO_RESPONSE = with_source_url SCENARIO_REQUEST out)
  /\ dict_get (listing SCENARIO_RESPONSE) (lit "source_url")
     = match source_url SCENARIO_REQUEST with
       | Some (c :: u) => Some (JStr (c :: u))
       | _ => None
       end
  /\ forallb (has_key (listing SCENARIO_RESPONSE))
       (FACT_KEYS ++ [lit "text"; lit "created_at"]) = true
  /\ forallb (has_key (advisor SCENARIO_RESPONSE)) (map fst ADVISORY_DEFAULTS) = true
  /\ (exists resp d,
        SERVICE_OK ([] ++ [extraction_request API_KEY (ad_text SCENARIO_REQUEST)])
          (insert_request (env_text STORE_URL) (env_text STORE_KEY)
             (listing SCENARIO_RESPONSE))
        = Answer resp
        /\ (status_code resp = 200%Z \/ status_code resp = 202%Z)
        /\ resp_json resp = Some (JObj d)
        /\ validate_id NO_ID (get d (lit "id")) = Return (weaviate_id SCENARIO_RESPONSE)).
Proof.
  apply (@analyze_response SERVICE_OK Json.loads NO_REPR NO_REPR CLOCK [ROW_GOLF7; ROW_BMW]
           API_KEY STORE_URL STORE_KEY NO_TEXT NO_ID SCENARIO_REQUEST [] SCENARIO_RESPONSE).
  vm_compute. reflexivity.
Defined.

(** X24.  [analyze] is not atomic.  When the listing was extracted and
    stored, and then the reading of the knowledge base or the building of
    the message raises (a line of the table shorter than its header, a
    [text] that is no string), the call fails with status 500 after two
    requests: the listing stays in the store and no advice is asked. *)
Theorem analyze_stores_before_advising :
  forall (service : trace -> request -> reply) (json_loads : pystr -> option json)
         (json_dumps py_repr : json -> pystr) (utcnow : pystr) (kb : list row)
         (LLM_API_KEY : pystr) (WCS_URL WCS_API_KEY : option pystr)
         (describe : pyexn -> pystr) (coerce_id : json -> option pystr)
         (req : AnalyzeRequest) (t : trace) (out : dict) (resp : response)
         (inserted : dict) (e : exn),
    (unset WCS_URL || unset WCS_API_KEY)%bool = false ->
    fst (extract_listing_io service json_loads py_repr utcnow LLM_API_KEY (ad_text req) t)
    = Return out ->
    let extraction := extraction_request LLM_API_KEY (ad_text req) in
    let insertion := insert_request (env_text WCS_URL) (env_text WCS_API_KEY)
                       (with_source_url req out) in
    service (t ++ [extraction]) insertion = Answer resp ->
    (status_code resp = 200%Z \/ status_code resp = 202%Z) ->
    resp_json resp = Some (JObj inserted) ->
    (load_kb_for_listing kb (with_source_url req out) = Raise e
     \/ exists chunks,
          load_kb_for_listing kb (with_source_url req out) = Ok chunks
          /\ build_user_message json_dumps (with_source_url req out) chunks = Raise e) ->
    analyze service json_loads json_dumps py_repr utcnow kb LLM_API_KEY
      WCS_URL WCS_API_KEY describe coerce_id req t
    = (Throw (HTTPException 500 (str_exn describe (Std e))), t ++ [extraction; insertion]).
Proof.
  intros service json_loads json_dumps py_repr utcnow kb LLM_API_KEY WCS_URL WCS_API_KEY
         describe coerce_id req t out resp inserted e C X extraction insertion S A J F.
  rewrite analyze_eq. cbn zeta. rewrite X. fold extraction.
  unfold analyze_tail. rewrite insert_listing_eq, C. cbn zeta. fold insertion.
  rewrite S.
  assert (A' : negb (Z.eqb (status_code resp) 200 || Z.eqb (status_code resp) 202) = false).
  { destruct A as [-> | ->]; reflexivity. }
  rewrite A'. unfold response_json. rewrite J. cbn [method_get].
  rewrite advise_io_eq.
  assert (T : (t ++ [extraction]) ++ [insertion] = t ++ [extraction; insertion])
    by now rewrite <- app_assoc.
  destruct F as [L | (chunks & L & B)].
  - rewrite L. now rewrite T.
  - rewrite L, B. now rewrite T.
Qed.

Lemma analyze_stores_before_advising_witness :
  analyze SERVICE_OK Json.loads NO_REPR NO_REPR CLOCK [ROW_SHORT] API_KEY STORE_URL STORE_KEY
    NO_TEXT NO_ID SCENARIO_REQUEST []
  = (Throw (HTTPException 500 (str_exn NO_TEXT (Std AttributeError))),
     [] ++ [extraction_request API_KEY (ad_text SCENARIO_REQUEST);
            insert_request (env_text STORE_URL) (env_text STORE_KEY)
              (with_source_url SCENARIO_REQUEST EXTRACTOR_RECORD)]).
Proof.
  apply (@analyze_stores_before_advising SERVICE_OK Json.loads NO_REPR NO_REPR CLOCK
           [ROW_SHORT] API_KEY STORE_URL STORE_KEY NO_TEXT NO_ID SCENARIO_REQUEST []
           EXTRACTOR_RECORD
           {| status_code := 200; resp_text := [];
              resp_json := Some (JObj [ (lit "id", JStr (lit "3f2a")) ]) |}
           [ (lit "id", JStr (lit "3f2a")) ] AttributeError);
    try (vm_compute; reflexivity).
  - left. reflexivity.
  - left. vm_compute. reflexivity.
Defined.

(** ** The start of the service *)

(** X25.  The start of the service.  The module [api.py] loads exactly when
    the three variables of the environment are set and not empty, and the
    constants its functions then use are those of the environment: the
    store is configured, as [analyze] needs it.  A missing key of the
    completion service stops the import of [extract_listing.py] with its
    own message, so the test of [api.py] can only ever name the address
    or the key of the store. *)
Theorem api_starts_configured :
  forall (env : environ),
    (forall s, import_api env = Return s ->
       llm_api_key s <> []
       /\ (unset (wcs_url s) || unset (wcs_api_key s))%bool = false
       /\ Some (llm_api_key s) = getenv env (lit "LLM_API_KEY")
       /\ wcs_url s = getenv env (lit "WCS_URL")
       /\ wcs_api_key s = getenv env (lit "WCS_API_KEY"))
    /\ ((exists s, import_api env = Return s) <->
        forallb (fun k => negb (unset (getenv env k))) REQUIRED_ENV = true)
    /\ (unset (getenv env (lit "LLM_API_KEY")) = true ->
        import_api env = Throw (SystemExit (lit "Missing LLM_API_KEY in environment.")))
    /\ (forall e, import_api env = Throw e ->
          e = SystemExit (lit "Missing LLM_API_KEY in environment.")
          \/ e = SystemExit (lit "Missing env vars: WCS_URL")
          \/ e = SystemExit (lit "Missing env vars: WCS_API_KEY")
          \/ e = SystemExit (lit "Missing env vars: WCS_URL, WCS_API_KEY")).
Proof.
  intro env. unfold import_api, import_extract_listing, import_advisor, REQUIRED_ENV.
  cbn [filter forallb].
  destruct (getenv env (lit "LLM_API_KEY")) as [[|c k]|] eqn:K;
    cbn [unset outcome_bind negb andb].
  1,3: (split; [discriminate|]; split;
        [split; [intros [s H]; discriminate H | discriminate]|];
        split; [reflexivity|]; intros e [= <-]; now left).
  destruct (getenv env (lit "WCS_URL")) as [[|c1 u]|] eqn:U;
    destruct (getenv env (lit "WCS_API_KEY")) as [[|c2 w]|] eqn:W;
    cbn [unset negb andb]; (split; [|split; [|split; [discriminate|]]]);
    try discriminate;
    try (split; [intros [s H]; discriminate H | discriminate]);
    try (intros e [= <-];
         first [ left; reflexivity
               | right; left; reflexivity
               | right; right; left; reflexivity
               | right; right; right; reflexivity ]).
  - intros s [= <-]. cbn [llm_api_key wcs_url wcs_api_key env_text unset orb].
    repeat split. discriminate.
  - split; [reflexivity | intros _; eexists; reflexivity].
Qed.

(** ** The brand, from the reply to the matcher *)





Lemma normalize_falsy (v : json) : truthy v = false -> _normalize v = Ok [].
Proof. intro T. unfold _normalize, py_or. now rewrite T. Qed.



(** ** The chunks in the message *)

Lemma substring_app_r (a x y : pystr) : substring_of a y -> substring_of a (x ++ y).
Proof. intros (pre & post & ->). exists (x ++ pre), post. now rewrite <- app_assoc. Qed.

Lemma substring_app_l (a x y : pystr) : substring_of a x -> substring_of a (x ++ y).
Proof. intros (pre & post & ->). exists pre, (post ++ y). now rewrite <- !app_assoc. Qed.

Lemma join_cons (sep x y : pystr) (l : list pystr) :
  join sep (x :: y :: l) = x ++ sep ++ join sep (y :: l).
Proof. reflexivity. Qed.

Lemma join_bullet (sep : pystr) (l : list pystr) (c : pystr) :
  In c l -> substring_of (sep ++ c) (sep ++ join sep l).
Proof.
  induction l as [|x l IH]; [contradiction|]. intros [<- | I].
  - destruct l as [|y l].
    + apply substring_refl.
    + rewrite join_cons, app_assoc. apply substring_app_l, substring_refl.
  - destruct l as [|y l]; [contradiction|].
    rewrite join_cons, app_assoc. apply substring_app_r. now apply IH.
Qed.

Lemma ok_inj (A : Type) (a b : A) : Ok a = Ok b -> a = b.
Proof. now intros [= ->]. Qed.

(** X27.  The message [build_user_message] returns holds the facts of the
    listing as [json.dumps] writes the object of the twelve keys, and
    every retrieved chunk as an item that starts a line with a hyphen.
    With no chunk, the list is one empty item. *)
Theorem message_lists_facts_and_chunks :
  forall (json_dumps : json -> pystr) (listing : dict) (chunks : list pystr) (m : pystr),
    build_user_message json_dumps listing chunks = Ok m ->
    substring_of
      (json_dumps (JObj (map (fun k => (k, get listing k)) FACT_KEYS))) m
    /\ (forall c, In c chunks -> substring_of ((NEWLINE ++ lit "- ") ++ c) m)
    /\ (chunks = [] ->
        substring_of ((NEWLINE ++ lit "- ") ++ NEWLINE ++ NEWLINE ++ lit "Tasks:") m).
Proof.
  intros json_dumps listing chunks m. unfold build_user_message.
  destruct (match dict_get listing (lit "text") with
            | Some (JStr s) => Ok (strip s)
            | Some _ => Raise AttributeError
            | None => Ok []
            end) as [text|e]; cbn [bind]; [|discriminate].
  intro H. apply ok_inj in H. subst m. split; [|split].
  - do 2 apply substring_app_r. apply substring_app_l, substring_refl.
  - intros c I. do 14 apply substring_app_r. rewrite app_assoc.
    apply substring_app_l. now apply join_bullet.
  - intros ->. do 14 apply substring_app_r. cbn [join]. rewrite app_nil_l.
    match goal with
    | |- substring_of _ (?a ++ ?b ++ ?c ++ ?d ++ ?rest) => exists [], rest
    end.
    rewrite app_nil_l. now rewrite <- !app_assoc.
Qed.

Lemma message_lists_facts_and_chunks_witness :
  substring_of
    (NO_REPR (JObj (map (fun k => (k, get EXTRACTOR_RECORD k)) FACT_KEYS))) SCENARIO_MESSAGE
  /\ (forall c, In c [CHUNK_GOLF7] -> substring_of ((NEWLINE ++ lit "- ") ++ c) SCENARIO_MESSAGE)
  /\ ([CHUNK_GOLF7] = [] ->
      substring_of ((NEWLINE ++ lit "- ") ++ NEWLINE ++ NEWLINE ++ lit "Tasks:")
        SCENARIO_MESSAGE).
Proof.
  apply (@message_lists_facts_and_chunks NO_REPR EXTRACTOR_RECORD [CHUNK_GOLF7]
           SCENARIO_MESSAGE).
  vm_compute. reflexivity.
Defined.
